(** * PostgreSQL table backup to object storage, and restore

    A shallow embedding of [delete_backup.js] (the archive-and-purge pipeline)
    and [restore.js] (the restore pipeline), followed by the properties of the
    natural-language specification that were checked against it.

    Conventions of the embedding:
    - the process time zone is UTC, so the local fields of a JavaScript [Date]
      are its UTC fields;
    - the relational table is a list of rows; the single pooled connection
      carries the view of its open transaction, if any;
    - the object store and the staging directory are finite maps from names to
      contents; gzip is a constructor of the content type;
    - csv-writer, csv-parse, moment and the database driver are embedded as
      far as the options the scripts pass to them select their behaviour;
    - external failures (query, upload, commit, bulk load) are inputs of the
      model. *)

From Stdlib Require Import Ascii String.
From stdpp Require Import base list strings gmap pretty sorting.

(** ** Text helpers *)

Module Text.

Definition dquote : ascii := "034"%char.
Definition newline : ascii := "010"%char.
Definition comma : ascii := ","%char.
Definition backslash : ascii := "092"%char.

Definition str (c : ascii) : string := String c EmptyString.

(** Every double-quote character is doubled (the global replace of the
    quote by two quotes). *)
Fixpoint doubleQuotes (s : string) : string :=
  match s with
  | EmptyString => EmptyString
  | String c rest =>
      if Ascii.eqb c dquote
      then String dquote (String dquote (doubleQuotes rest))
      else String c (doubleQuotes rest)
  end.

(** [s.split(sep)] for a one-character separator; [splitAcc] carries the
    piece being read, reversed. *)
Fixpoint splitAcc (sep : ascii) (piece : list ascii) (s : string) : list string :=
  match s with
  | EmptyString => [string_of_list_ascii (rev piece)]
  | String c rest =>
      if Ascii.eqb c sep
      then string_of_list_ascii (rev piece) :: splitAcc sep [] rest
      else splitAcc sep (c :: piece) rest
  end.

Definition split (sep : ascii) (s : string) : list string := splitAcc sep [] s.

(** [parts.join(sep)] *)
Fixpoint join (sep : string) (parts : list string) : string :=
  match parts with
  | [] => EmptyString
  | [p] => p
  | p :: rest => p +:+ sep +:+ join sep rest
  end.

(** [s.padStart(2, '0')] *)
Definition padStart2 (s : string) : string :=
  match String.length s with
  | O => "00"
  | S O => "0" +:+ s
  | _ => s
  end.

(** [s.padStart(3, '0')] *)
Definition padStart3 (s : string) : string :=
  match String.length s with
  | O => "000"
  | S O => "00" +:+ s
  | S (S O) => "0" +:+ s
  | _ => s
  end.

(** [s.toUpperCase()] on ASCII letters; letters outside ASCII, which
    JavaScript maps too, are left as they are. *)
Definition upperChar (c : ascii) : ascii :=
  let n := nat_of_ascii c in
  if (97 <=? n)%nat && (n <=? 122)%nat then ascii_of_nat (n - 32) else c.

Fixpoint toUpperCase (s : string) : string :=
  match s with
  | EmptyString => EmptyString
  | String c rest => String (upperChar c) (toUpperCase rest)
  end.

(** [String(n)] for an integer. *)
Definition ofZ (n : Z) : string := pretty n.

Fixpoint occurrences (c : ascii) (s : string) : nat :=
  match s with
  | EmptyString => O
  | String d rest => (if Ascii.eqb d c then 1 else 0) + occurrences c rest
  end.

End Text.

(** ** Outcomes of asynchronous calls

    An [await]ed call returns, throws, or never settles. *)

Inductive Outcome (A : Type) : Type :=
| Returned (a : A)
| Thrown (err : string)
| Pending.
Arguments Returned {A} a.
Arguments Thrown {A} err.
Arguments Pending {A}.

Definition isReturned {A} (o : Outcome A) : bool :=
  match o with Returned _ => true | _ => false end.

Definition isThrown {A} (o : Outcome A) : bool :=
  match o with Thrown _ => true | _ => false end.

(** ** JavaScript dates (UTC) *)

Module JsDate.
Local Open Scope Z_scope.

(** A normalised time value, broken down; [month0] is [getMonth()], 0..11. *)
Record Date : Type := mkDate {
  fullYear : Z;
  month0 : Z;
  date : Z;
  hours : Z;
  minutes : Z;
  seconds : Z;
  millis : Z
}.

#[global] Instance Date_eq_dec : EqDecision Date.
Proof. solve_decision. Defined.

Definition isLeap (y : Z) : bool :=
  ((y mod 4 =? 0) && negb (y mod 100 =? 0)) || (y mod 400 =? 0).

Definition daysInMonth (y m0 : Z) : Z :=
  if m0 =? 1 then (if isLeap y then 29 else 28)
  else if (m0 =? 3) || (m0 =? 5) || (m0 =? 8) || (m0 =? 10) then 30
  else 31.

(** The time value as an order-preserving integer: two normalised dates
    compare as their keys do. *)
Definition key (d : Date) : Z :=
  ((((((fullYear d * 12 + month0 d) * 31 + (date d - 1)) * 24 + hours d) * 60
      + minutes d) * 60 + seconds d) * 1000) + millis d.

(** [a <= b] on dates compares time values. *)
Definition leb (a b : Date) : bool := key a <=? key b.

(** [new Date('YYYY-MM-DD')]: midnight UTC of that day. *)
Definition ofIsoDay (y m d : Z) : Date := mkDate y (m - 1) d 0 0 0 0.

(** Day overflow of [MakeDay]: a day past the end of the month runs into
    the next month (a day is at most 31 and a month has at least 28 days,
    so one step is enough). *)
Definition normalise (y m0 d : Z) : Z * Z * Z :=
  let y' := y + m0 / 12 in
  let m' := m0 mod 12 in
  let dim := daysInMonth y' m' in
  if d <=? dim then (y', m', d)
  else if m' =? 11 then (y' + 1, 0, d - dim) else (y', m' + 1, d - dim).

(** [d.setMonth(m)] *)
Definition setMonth (d : Date) (m : Z) : Date :=
  let '(y', m', d') := normalise (fullYear d) m (date d) in
  mkDate y' m' d' (hours d) (minutes d) (seconds d) (millis d).

(** [new Date(year, month, day)]: years 0..99 mean 1900..1999. *)
Definition ofFields (y m0 d : Z) : Date :=
  let y0 := if (0 <=? y) && (y <=? 99) then 1900 + y else y in
  let '(y', m', d') := normalise y0 m0 d in
  mkDate y' m' d' 0 0 0 0.

(** [moment(d).format('YYYY-MM-DDTHH:mm:ss.SSS[Z]')], for years of four
    digits (1000 to 9999); moment pads a shorter year with zeros, which
    this text does not. *)
Definition format (d : Date) : string :=
  Text.ofZ (fullYear d) +:+ "-" +:+ Text.padStart2 (Text.ofZ (month0 d + 1))
    +:+ "-" +:+ Text.padStart2 (Text.ofZ (date d))
    +:+ "T" +:+ Text.padStart2 (Text.ofZ (hours d))
    +:+ ":" +:+ Text.padStart2 (Text.ofZ (minutes d))
    +:+ ":" +:+ Text.padStart2 (Text.ofZ (seconds d))
    +:+ "." +:+ Text.padStart3 (Text.ofZ (millis d)) +:+ "Z".

End JsDate.

(** ** JavaScript values and objects *)

Module Js.

(** The values a row of the driver can hold: SQL NULL, booleans, integers,
    text, timestamps, and json/jsonb values (arrays and objects). *)
#[warnings="-register-all"]
Inductive Value : Type :=
| VNull
| VBool (b : bool)
| VNum (n : Z)
| VStr (s : string)
| VDate (d : JsDate.Date)
| VArr (items : list Value)
| VObj (fields : list (string * Value)).

(** An object: its own enumerable properties in insertion order. *)
Abbreviation Obj := (list (string * Value)) (only parsing).

(** [obj[key]]; [None] is [undefined]. *)
Fixpoint get (key : string) (obj : Obj) : option Value :=
  match obj with
  | [] => None
  | (k, v) :: rest => if String.eqb k key then Some v else get key rest
  end.

(** [obj[key] = v]: an existing property keeps its place, a new one is
    added last. *)
Fixpoint set (key : string) (v : Value) (obj : Obj) : Obj :=
  match obj with
  | [] => [(key, v)]
  | (k, w) :: rest =>
      if String.eqb k key then (k, v) :: rest else (k, w) :: set key v rest
  end.

(** [Object.keys(obj)]: the names in insertion order.  JavaScript lists
    names that are array indices first, in ascending order; column names
    are taken not to be array indices. *)
Definition keys (obj : Obj) : list string := obj.*1.

(** [v && typeof v === 'object'] *)
Definition truthyObject (v : Value) : bool :=
  match v with
  | VDate _ | VArr _ | VObj _ => true
  | _ => false
  end.

Definition isPrimitive (v : Value) : bool := negb (truthyObject v).

(** The escapes of a JSON string literal (quote, backslash, newline).
    [JSON.stringify] escapes the other control characters too; texts are
    taken to hold none. *)
Fixpoint jsonEscape (s : string) : string :=
  match s with
  | EmptyString => EmptyString
  | String c rest =>
      if Ascii.eqb c Text.dquote
      then String Text.backslash (String Text.dquote (jsonEscape rest))
      else if Ascii.eqb c Text.backslash
      then String Text.backslash (String Text.backslash (jsonEscape rest))
      else if Ascii.eqb c Text.newline
      then String Text.backslash (String "n"%char (jsonEscape rest))
      else String c (jsonEscape rest)
  end.

Definition jsonString (s : string) : string :=
  Text.str Text.dquote +:+ jsonEscape s +:+ Text.str Text.dquote.

(** [JSON.stringify(v)] *)
Fixpoint stringify (v : Value) : string :=
  match v with
  | VNull => "null"
  | VBool true => "true"
  | VBool false => "false"
  | VNum n => Text.ofZ n
  | VStr s => jsonString s
  | VDate d => jsonString (JsDate.format d)
  | VArr items => "[" +:+ Text.join "," (map stringify items) +:+ "]"
  | VObj fields =>
      "{" +:+ Text.join ","
                (map (fun kv => jsonString (fst kv) +:+ ":" +:+ stringify (snd kv)) fields)
          +:+ "}"
  end.

(** [String(v)].  A number is an integer that a JavaScript number holds
    exactly, printed in full.  The cases of [VDate], [VArr] and [VObj] are not reached
    from the archive writer, which replaces such values by text first (see
    [Codec.serialized_primitive]); a date is rendered as the codec does,
    an array by its elements, an object by its tag. *)
Fixpoint toString (v : Value) : string :=
  match v with
  | VNull => "null"
  | VBool true => "true"
  | VBool false => "false"
  | VNum n => Text.ofZ n
  | VStr s => s
  | VDate d => JsDate.format d
  | VArr items =>
      Text.join "," (map (fun x => match x with VNull => EmptyString | _ => toString x end) items)
  | VObj _ => "[object Object]"
  end.

End Js.

(** ** Row Codec, encoding side: [writeToCompressedFile]'s serialisation and
    the csv-writer object writer with [alwaysQuote] *)

Module Codec.
Import Js.

(** The body of the [for (const key in newRow)] loop for one value. *)
Definition serializeValue (v : Value) : Value :=
  if truthyObject v then
    match v with
    | VDate d => VStr (JsDate.format d)
    | _ => VStr (Text.str Text.dquote +:+ Text.doubleQuotes (stringify v)
                   +:+ Text.str Text.dquote)
    end
  else v.

(** [rows.map(row => { const newRow = { ...row }; ...; return newRow })],
    as a function of the row's contents. *)
Definition serializeRow (row : Obj) : Obj :=
  map (fun kv => (fst kv, serializeValue (snd kv))) row.

(** *** The same loop over a heap of objects

    Rows are references; the spread allocates a new object, and the loop
    assigns to the properties of that new object. *)
Abbreviation Heap := (gmap nat Obj) (only parsing).

(** [newRow[key] = v] *)
Definition assign (l : nat) (key : string) (v : Value) (h : Heap) : Heap :=
  alter (Js.set key v) l h.

(** One pass of the loop body for [key]. *)
Definition serializeKey (l : nat) (h : Heap) (key : string) : Heap :=
  match h !! l with
  | Some obj =>
      match Js.get key obj with
      | Some v => if truthyObject v then assign l key (serializeValue v) h else h
      | None => h
      end
  | None => h
  end.

(** The callback of [rows.map] on the reference [row]: the new reference
    and the heap after the call. *)
Definition serializeRowIn (row : nat) (h : Heap) : nat * Heap :=
  let newRow := fresh (dom h) in
  let h1 := <[newRow := default [] (h !! row)]> h in
  (newRow, foldl (serializeKey newRow) h1 (Js.keys (default [] (h1 !! newRow)))).

Fixpoint serializeRowsIn (rows : list nat) (h : Heap) : list nat * Heap :=
  match rows with
  | [] => ([], h)
  | row :: rest =>
      let '(newRow, h1) := serializeRowIn row h in
      let '(out, h2) := serializeRowsIn rest h1 in
      (newRow :: out, h2)
  end.

(** *** csv-writer *)

(** A column of the writer: [{ id: column_name, title: COLUMN_NAME }]. *)
Record Header : Type := mkHeader { hid : string; title : string }.

(** [fetchTableHeaders]' mapping of the catalog's column names. *)
Definition toHeaders (columns : list string) : list Header :=
  map (fun c => mkHeader c (Text.toUpperCase c)) columns.

(** [isEmpty]: [undefined], [null] and the empty string. *)
Definition isEmpty (v : option Value) : bool :=
  match v with
  | None | Some VNull | Some (VStr EmptyString) => true
  | _ => false
  end.

Definition quoteField (s : string) : string :=
  Text.str Text.dquote +:+ Text.doubleQuotes s +:+ Text.str Text.dquote.

(** The force-quote field stringifier. *)
Definition stringifyField (v : option Value) : string :=
  if isEmpty v then EmptyString
  else quoteField (toString (default VNull v)).

Definition getCsvLine (fields : list (option Value)) : string :=
  Text.join "," (map stringifyField fields).

(** [records.join(recordDelimiter) + recordDelimiter] *)
Definition joinRecords (lines : list string) : string :=
  Text.join (Text.str Text.newline) lines +:+ Text.str Text.newline.

(** The header string; an empty column list is not an object header and
    gives no header line. *)
Definition getHeaderString (headers : list Header) : string :=
  match headers with
  | [] => EmptyString
  | _ => joinRecords [getCsvLine (map (fun h => Some (VStr (title h))) headers)]
  end.

Definition getRecordAsArray (headers : list Header) (record : Obj) : list (option Value) :=
  map (fun h => Js.get (hid h) record) headers.

Definition stringifyRecords (headers : list Header) (records : list Obj) : string :=
  joinRecords (map (fun r => getCsvLine (getRecordAsArray headers r)) records).

(** The text [csv.writeRecords(serializedRows)] puts in the file. *)
Definition writeRecords (headers : list Header) (records : list Obj) : string :=
  getHeaderString headers +:+ stringifyRecords headers records.

(** The contents of the archive for a batch of rows. *)
Definition encode (headers : list Header) (rows : list Obj) : string :=
  writeRecords headers (map serializeRow rows).

(** The check before compression:
    [!fileContents || fileContents.split(newline).length < 2]
    raises; [validationGate] is [true] when it does not. *)
Definition validationGate (fileContents : string) : bool :=
  negb (String.eqb fileContents EmptyString
        || (length (Text.split Text.newline fileContents) <? 2)%nat).

End Codec.

(** ** Row Codec, decoding side: the csv-parse reader as [restore.js]
    configures it

    Options in force: [columns: true], [skip_empty_lines: true],
    [relax_column_count: true], the quote character also escapes itself,
    the delimiter is a comma and records end at a newline.  Neither
    [relax_quotes] nor [skip_records_with_error] is set, so a quoting error
    ends the parse. *)

Module CsvParse.

Inductive Error : Type :=
| QuoteNotClosed
| InvalidClosingQuote
| InvalidOpeningQuote.

Definition message (e : Error) : string :=
  match e with
  | QuoteNotClosed => "CSV_QUOTE_NOT_CLOSED"
  | InvalidClosingQuote => "CSV_INVALID_CLOSING_QUOTE"
  | InvalidOpeningQuote => "INVALID_OPENING_QUOTE"
  end.

(** The reader's state; [field], [record] and [records] are kept reversed. *)
Record State : Type := mkState {
  quoting : bool;
  wasQuoting : bool;
  field : list ascii;
  record : list string;
  records : list (list string)
}.

Definition initial : State := mkState false false [] [] [].

Definition append (c : ascii) (st : State) : State :=
  mkState (quoting st) (wasQuoting st) (c :: field st) (record st) (records st).

Definition onField (st : State) : State :=
  mkState (quoting st) false []
          (string_of_list_ascii (rev (field st)) :: record st) (records st).

Definition onRecord (st : State) : State :=
  mkState (quoting st) (wasQuoting st) (field st) [] (rev (record st) :: records st).

Definition isDelimiter (c : ascii) : bool := Ascii.eqb c Text.comma.
(** Records end at a line feed, the line end of the archives and of the
    canonical files; the reader's discovery of other line ends from the
    input is not modelled. *)
Definition isRecordDelimiter (c : ascii) : bool := Ascii.eqb c Text.newline.
Definition isQuote (c : ascii) : bool := Ascii.eqb c Text.dquote.

(** The end of the input. *)
Definition finish (st : State) : list (list string) * option Error :=
  if quoting st then (rev (records st), Some QuoteNotClosed)
  else if wasQuoting st || negb (bool_decide (record st = []))
          || negb (bool_decide (field st = []))
  then (rev (records (onRecord (onField st))), None)
  else (rev (records st), None).

(** The character loop.  The result is the records completed, in order,
    and the error that stopped the reader, if any. *)
Fixpoint run (st : State) (input : string) : list (list string) * option Error :=
  match input with
  | EmptyString => finish st
  | String c rest =>
      if isQuote c then
        if quoting st then
          match rest with
          | EmptyString =>
              run (mkState false true (field st) (record st) (records st)) rest
          | String next rest' =>
              if isQuote next then run (append Text.dquote st) rest'
              else if isDelimiter next || isRecordDelimiter next
              then run (mkState false true (field st) (record st) (records st)) rest
              else (rev (records st), Some InvalidClosingQuote)
          end
        else
          match field st with
          | [] => run (mkState true (wasQuoting st) [] (record st) (records st)) rest
          | _ => (rev (records st), Some InvalidOpeningQuote)
          end
      else if quoting st then run (append c st) rest
      else if isRecordDelimiter c then
        if negb (wasQuoting st) && bool_decide (record st = [])
           && bool_decide (field st = [])
        then run st rest
        else run (onRecord (onField st)) rest
      else if isDelimiter c then run (onField st) rest
      else run (append c st) rest
  end.

Definition parseRaw (input : string) : list (list string) * option Error :=
  run initial input.

(** A record as an object keyed by the column names: fields beyond the
    columns are dropped, a short record has fewer properties, and a
    repeated column name keeps its first place and its last value. *)
Fixpoint toObject (columns fields : list string) (obj : Js.Obj) : Js.Obj :=
  match columns, fields with
  | c :: columns', f :: fields' => toObject columns' fields' (Js.set c (Js.VStr f) obj)
  | _, _ => obj
  end.

(** [parse({ columns: true, ... })]: the first record names the columns. *)
Definition parse (input : string) : list Js.Obj * option Error :=
  let '(recs, err) := parseRaw input in
  match recs with
  | [] => ([], err)
  | columns :: data => (map (fun fields => toObject columns fields []) data, err)
  end.

(** *** Records of plain fields

    A field is plain when it holds no quote, no delimiter and no newline;
    a line of plain fields is a record unless it is empty (no field, or
    one empty field), which the reader skips. *)
Fixpoint plain (s : string) : bool :=
  match s with
  | EmptyString => true
  | String c rest =>
      negb (isQuote c) && negb (isDelimiter c) && negb (isRecordDelimiter c)
      && plain rest
  end.

Definition plainLine (fields : list string) : bool :=
  forallb plain fields
  && match fields with
     | [] | [EmptyString] => false
     | _ => true
     end.

Definition lineText (fields : list string) : string :=
  Text.join "," fields +:+ Text.str Text.newline.

Definition fileText (lines : list (list string)) : string :=
  String.concat EmptyString (map lineText lines).

End CsvParse.

(** ** The table and the pooled connection *)

Module Db.
Local Open Scope Z_scope.

(** A row of the table: the two columns the batch query names, [id] and
    [created_at], and the remaining columns as the driver returns them. *)
Record Row : Type := mkRow {
  id : Z;
  created_at : JsDate.Date;
  cols : Js.Obj
}.

Abbreviation Table := (list Row) (only parsing).

(** The row object the driver hands to the script. *)
Definition toObject (r : Row) : Js.Obj :=
  ("id"%string, Js.VNum (id r)) :: ("created_at"%string, Js.VDate (created_at r)) :: cols r.

(** [created_at >= $1 AND created_at < $2] *)
Definition inWindow (lo hi : JsDate.Date) (r : Row) : bool :=
  (JsDate.key lo <=? JsDate.key (created_at r))
  && (JsDate.key (created_at r) <? JsDate.key hi).

(** [ORDER BY created_at ASC]; rows of equal timestamp keep the order the
    sort leaves them in. *)
Definition earlier (a b : Row) : Prop :=
  JsDate.key (created_at a) <= JsDate.key (created_at b).

#[global] Instance earlier_dec a b : Decision (earlier a b).
Proof. unfold earlier. apply _. Defined.

(** The rows of the common table expression:
    [FROM t WHERE ... ORDER BY created_at ASC LIMIT $3]. *)
Definition chosen (t : Table) (lo hi : JsDate.Date) (limit : nat) : list Row :=
  take limit (merge_sort earlier (filter (fun r => inWindow lo hi r = true) t)).

(** The common table expression: [SELECT id FROM ...]. *)
Definition cte (t : Table) (lo hi : JsDate.Date) (limit : nat) : list Z :=
  id <$> chosen t lo hi limit.

(** [DELETE FROM t WHERE id IN (SELECT id FROM cte) RETURNING *]: the rows
    returned and the table that remains. *)
Definition deleteReturning (t : Table) (lo hi : JsDate.Date) (limit : nat)
  : list Row * Table :=
  let ids := cte t lo hi limit in
  (filter (fun r => id r ∈ ids) t, filter (fun r => id r ∉ ids) t).

(** [SELECT COUNT( * )] restricted to the window. *)
Definition countWindow (t : Table) (lo hi : JsDate.Date) : nat :=
  length (filter (fun r => inWindow lo hi r = true) t).

(** The pooled connection: the committed table and, while a transaction is
    open, the table as that transaction sees it. *)
Record Session : Type := mkSession {
  committed : Table;
  view : option Table
}.

Definition current (s : Session) : Table := default (committed s) (view s).

(** [BEGIN]; inside a transaction it only warns. *)
Definition begin (s : Session) : Session :=
  match view s with
  | None => mkSession (committed s) (Some (committed s))
  | Some _ => s
  end.

(** [COMMIT]; outside a transaction it only warns. *)
Definition commit (s : Session) : Session :=
  match view s with
  | Some v => mkSession v None
  | None => s
  end.

(** [ROLLBACK] *)
Definition rollback (s : Session) : Session := mkSession (committed s) None.

(** A statement that changes the table: in a transaction it changes the
    view, outside one it commits at once. *)
Definition store (t : Table) (s : Session) : Session :=
  match view s with
  | Some _ => mkSession (committed s) (Some t)
  | None => mkSession t None
  end.

Definition inTransaction (s : Session) : bool :=
  match view s with Some _ => true | None => false end.

(** What the connection is asked to do, in order. *)
Inductive Event : Type :=
| Connect
| Begin
| Select
| Delete (returned : nat)
| Copy
| Commit
| Rollback
| Release.

(** Whether a journal releases the connection while a transaction that it
    began is still open; [open] is the state before the journal. *)
Fixpoint releasesOpen (open : bool) (journal : list Event) : bool :=
  match journal with
  | [] => false
  | Begin :: rest => releasesOpen true rest
  | Commit :: rest | Rollback :: rest => releasesOpen false rest
  | Release :: rest => open || releasesOpen open rest
  | _ :: rest => releasesOpen open rest
  end.

End Db.

(** ** The process: connection, object store, staging directory *)

(** File and object contents: text, or the gzip of a text. *)
Inductive Blob : Type :=
| Plain (text : string)
| Gzip (text : string).

Record World : Type := mkWorld {
  session : Db.Session;
  bucket : gmap string Blob;
  disk : gmap string Blob;
  journal : list Db.Event;
  errors : list string
}.

(** External failures, by the object key of the batch they hit. *)
Record Faults : Type := mkFaults {
  queryFails : string -> bool;
  uploadFails : string -> bool;
  commitFails : string -> bool
}.

Definition noFaults : Faults :=
  mkFaults (fun _ => false) (fun _ => false) (fun _ => false).

(** *** Effectful code: state passing with outcomes *)

Definition M (A : Type) : Type := World -> Outcome A * World.

Definition ret {A} (a : A) : M A := fun w => (Returned a, w).

Definition throw {A} (err : string) : M A := fun w => (Thrown err, w).

Definition bind {A B} (m : M A) (f : A -> M B) : M B :=
  fun w =>
    match m w with
    | (Returned a, w') => f a w'
    | (Thrown e, w') => (Thrown e, w')
    | (Pending, w') => (Pending, w')
    end.

Notation "x <- m ;; k" := (bind m (fun x => k))
  (at level 100, m at next level, right associativity).
Notation "m ;;; k" := (bind m (fun _ => k))
  (at level 100, right associativity).

(** [try { body } catch (err) { handler }] *)
Definition tryCatch {A} (body : M A) (handler : string -> M A) : M A :=
  fun w =>
    match body w with
    | (Thrown e, w') => handler e w'
    | other => other
    end.

(** [try { body } finally { cleanup }] *)
Definition tryFinally {A} (body : M A) (cleanup : M unit) : M A :=
  fun w =>
    match body w with
    | (Pending, w') => (Pending, w')
    | (o, w') =>
        match cleanup w' with
        | (Returned _, w'') => (o, w'')
        | (Thrown e, w'') => (Thrown e, w'')
        | (Pending, w'') => (Pending, w'')
        end
    end.

Definition modify (f : World -> World) : M unit := fun w => (Returned tt, f w).

Definition gets {A} (f : World -> A) : M A := fun w => (Returned (f w), w).

Definition setSession (s : Db.Session) (w : World) : World :=
  mkWorld s (bucket w) (disk w) (journal w) (errors w).

Definition setBucket (b : gmap string Blob) (w : World) : World :=
  mkWorld (session w) b (disk w) (journal w) (errors w).

Definition setDisk (d : gmap string Blob) (w : World) : World :=
  mkWorld (session w) (bucket w) d (journal w) (errors w).

Definition record (e : Db.Event) (w : World) : World :=
  mkWorld (session w) (bucket w) (disk w) (journal w ++ [e]) (errors w).

(** [console.error(...)] *)
Definition consoleError (msg : string) : M unit :=
  modify (fun w => mkWorld (session w) (bucket w) (disk w) (journal w) (errors w ++ [msg])).

(** *** The connection *)

Definition poolConnect : M unit := modify (record Db.Connect).
Definition clientRelease : M unit := modify (record Db.Release).

Definition queryBegin : M unit :=
  modify (fun w => record Db.Begin (setSession (Db.begin (session w)) w)).

Definition queryCommit : M unit :=
  modify (fun w => record Db.Commit (setSession (Db.commit (session w)) w)).

Definition queryRollback : M unit :=
  modify (fun w => record Db.Rollback (setSession (Db.rollback (session w)) w)).

Definition queryDelete (lo hi : JsDate.Date) (limit : nat) : M (list Db.Row) :=
  fun w =>
    let '(rows, t') := Db.deleteReturning (Db.current (session w)) lo hi limit in
    (Returned rows, record (Db.Delete (length rows)) (setSession (Db.store t' (session w)) w)).

(** *** The staging directory *)

(** [fs.writeFileSync(path, data)] *)
Definition writeFileSync (path : string) (data : Blob) : M unit :=
  modify (fun w => setDisk (<[path := data]> (disk w)) w).

(** [fs.readFileSync(path)] *)
Definition readFileSync (path : string) : M Blob :=
  fun w =>
    match disk w !! path with
    | Some b => (Returned b, w)
    | None => (Thrown "ENOENT", w)
    end.

(** [fs.readFileSync(path, 'utf-8')]; the script reads only text this way. *)
Definition readTextSync (path : string) : M string :=
  b <- readFileSync path ;;
  match b with
  | Plain s => ret s
  | Gzip _ => throw "not a text file"
  end.

(** [fs.unlinkSync(path)] *)
Definition unlinkSync (path : string) : M unit :=
  fun w =>
    match disk w !! path with
    | Some _ => (Returned tt, setDisk (delete path (disk w)) w)
    | None => (Thrown "ENOENT", w)
    end.

(** [fs.existsSync(path)] *)
Definition existsSync (path : string) : M bool :=
  gets (fun w => bool_decide (is_Some (disk w !! path))).

(** [zlib.gzipSync] and [zlib.gunzipSync] *)
Definition gzipSync (text : string) : Blob := Gzip text.

Definition gunzipSync (b : Blob) : M string :=
  match b with
  | Gzip s => ret s
  | Plain _ => throw "incorrect header check"
  end.

(** ** The archive-and-purge pipeline: [delete_backup.js] *)

Module Backup.
Local Open Scope Z_scope.

Definition BACKUP_PATH : string := "backup_logs".

(** The configuration section of the script, and the column names the
    catalog lists for the table in ordinal order. *)
Record Config : Type := mkConfig {
  tableName : string;
  BATCH_SIZE : nat;
  catalog : list string
}.

(** The year and month in the form [YYYY-MM] of the paths. *)
Definition yearMonth (year month : Z) : string :=
  Text.ofZ year +:+ "-" +:+ Text.padStart2 (Text.ofZ month).

(** [monthStart] of [processMonth]. *)
Definition monthStart (year month : Z) : string :=
  yearMonth year month +:+ "-01".

(** [nextMonth] of [processMonth]: [new Date(year, month, 1)]. *)
Definition nextMonth (year month : Z) : JsDate.Date := JsDate.ofFields year month 1.

(** [nextMonthStart] of [processMonth]. *)
Definition nextMonthStart (year month : Z) : string :=
  monthStart (JsDate.fullYear (nextMonth year month))
             (JsDate.month0 (nextMonth year month) + 1).

(** The timestamp the database reads in the text [Y-MM-01]: midnight of
    the first day of that month. *)
Definition firstOfMonth (year month : Z) : JsDate.Date :=
  JsDate.mkDate year (month - 1) 1 0 0 0 0.

(** The bounds of the batch query for a month: [$1] and [$2].  The texts
    the script sends, [Y-MM-01], are read as these dates for years from 100
    on; for a year below 100 the text is no such date. *)
Definition windowStart (year month : Z) : JsDate.Date := firstOfMonth year month.

Definition windowEnd (year month : Z) : JsDate.Date :=
  firstOfMonth (JsDate.fullYear (nextMonth year month))
               (JsDate.month0 (nextMonth year month) + 1).

(** The object key of a batch. *)
Definition s3Key (table : string) (year month : Z) (batchNumber : nat) : string :=
  "db_backup/" +:+ table +:+ "/" +:+ yearMonth year month
    +:+ "/backup_" +:+ yearMonth year month
    +:+ "_batch" +:+ pretty batchNumber +:+ ".csv.gz".

(** The staging path of the uncompressed file of a batch. *)
Definition csvPath (table : string) (year month : Z) (batchNumber : nat) : string :=
  BACKUP_PATH +:+ "/" +:+ table +:+ "_" +:+ yearMonth year month
    +:+ "_batch" +:+ pretty batchNumber +:+ ".csv".

Definition gzPath (table : string) (year month : Z) (batchNumber : nat) : string :=
  csvPath table year month batchNumber +:+ ".gz".

(** [fetchTableHeaders] *)
Definition fetchTableHeaders (cfg : Config) : M (list Codec.Header) :=
  poolConnect ;;;
  tryFinally
    (modify (record Db.Select) ;;; ret (Codec.toHeaders (catalog cfg)))
    clientRelease.

(** [getRowCount] *)
Definition getRowCount : M nat :=
  poolConnect ;;;
  tryFinally
    (modify (record Db.Select) ;;;
     gets (fun w => length (Db.current (session w))))
    clientRelease.

(** [writeToCompressedFile]; the result is the path of the compressed
    file. *)
Definition writeToCompressedFile (rows : list Js.Obj) (table : string)
    (year month : Z) (batchNumber : nat) (headers : list Codec.Header) : M string :=
  let filePath := csvPath table year month batchNumber in
  writeFileSync filePath (Plain (Codec.encode headers rows)) ;;;
  fileContents <- readTextSync filePath ;;
  if negb (Codec.validationGate fileContents)
  then throw "CSV file is empty or malformed."
  else
    let compressedPath := filePath +:+ ".gz" in
    writeFileSync compressedPath (gzipSync fileContents) ;;;
    unlinkSync filePath ;;;
    present <- existsSync compressedPath ;;
    if negb present
    then throw "File generation or compression failed."
    else ret compressedPath.

(** [uploadToS3] *)
Definition uploadToS3 (flt : Faults) (filePath key : string) : M unit :=
  fileContents <- readFileSync filePath ;;
  tryCatch
    (if uploadFails flt key
     then throw "upload failed"
     else modify (fun w => setBucket (<[key := fileContents]> (bucket w)) w))
    (fun err => consoleError "Error uploading file to S3:" ;;; throw err).

(** How one pass of the [while (true)] body ends. *)
Inductive Step : Type :=
| Break
| Next (deleted : nat).

(** One pass of the loop body of [processMonth]. *)
Definition batch (flt : Faults) (cfg : Config) (year month : Z)
    (headers : list Codec.Header) (batchNumber : nat) : M Step :=
  let key := s3Key (tableName cfg) year month batchNumber in
  poolConnect ;;;
  tryFinally
    (tryCatch
       (queryBegin ;;;
        rows <- (if queryFails flt key then throw "query failed"
                 else queryDelete (windowStart year month) (windowEnd year month)
                                  (BATCH_SIZE cfg)) ;;
        match rows with
        | [] => ret Break
        | _ =>
            filePath <- writeToCompressedFile (map Db.toObject rows) (tableName cfg)
                          year month batchNumber headers ;;
            uploadToS3 flt filePath key ;;;
            (if commitFails flt key then throw "commit failed" else queryCommit) ;;;
            ret (Next (length rows))
        end)
       (fun err =>
          consoleError "Error during month processing, rolling back..." ;;;
          queryRollback ;;;
          throw err))
    clientRelease.

(** The [while (true)] loop of [processMonth]; the result is
    [totalDeleted].  Running out of [fuel] stands for a loop that does not
    end. *)
Fixpoint batches (fuel : nat) (flt : Faults) (cfg : Config) (year month : Z)
    (headers : list Codec.Header) (batchNumber totalDeleted : nat) : M nat :=
  match fuel with
  | O => fun w => (Pending, w)
  | S fuel' =>
      step <- batch flt cfg year month headers batchNumber ;;
      match step with
      | Break => ret totalDeleted
      | Next n =>
          batches fuel' flt cfg year month headers (S batchNumber) (totalDeleted + n)%nat
      end
  end.

(** [processMonth] *)
Definition processMonth (fuel : nat) (flt : Faults) (cfg : Config) (year month : Z)
  : M nat :=
  headers <- fetchTableHeaders cfg ;;
  batches fuel flt cfg year month headers 1%nat 0%nat.

(** The months the loop of [backupAndDeleteRows] visits:
    [while (currentDate <= endDate) { ...; currentDate.setMonth(
    currentDate.getMonth() + 1) }], as pairs of [getFullYear()] and
    [getMonth() + 1]. *)
Fixpoint visit (fuel : nat) (currentDate endDate : JsDate.Date) : option (list (Z * Z)) :=
  if JsDate.leb currentDate endDate then
    match fuel with
    | O => None
    | S fuel' =>
        cons (JsDate.fullYear currentDate, JsDate.month0 currentDate + 1)
          <$> visit fuel' (JsDate.setMonth currentDate (JsDate.month0 currentDate + 1))
                    endDate
    end
  else Some [].

(** Every pass moves the date at least one month on, so the months between
    the two dates bound the passes. *)
Definition monthsBetween (a b : JsDate.Date) : nat :=
  Z.to_nat ((JsDate.fullYear b - JsDate.fullYear a) * 12
            + (JsDate.month0 b - JsDate.month0 a) + 2).

(** The months processed for [START_DATE] and [END_DATE]. *)
Definition months (startDate endDate : JsDate.Date) : option (list (Z * Z)) :=
  visit (monthsBetween startDate endDate) startDate endDate.

Fixpoint processMonths (fuel : nat) (flt : Faults) (cfg : Config) (ms : list (Z * Z))
  : M unit :=
  match ms with
  | [] => ret tt
  | (year, month) :: rest =>
      processMonth fuel flt cfg year month ;;;
      processMonths fuel flt cfg rest
  end.

(** [backupAndDeleteRows] *)
Definition backupAndDeleteRows (fuel : nat) (flt : Faults) (cfg : Config)
    (startDate endDate : JsDate.Date) : M unit :=
  getRowCount ;;;
  match months startDate endDate with
  | Some ms => processMonths fuel flt cfg ms ;;; getRowCount ;;; ret tt
  | None => fun w => (Pending, w)
  end.

(** A date lies between [START_DATE] and [END_DATE], both included. *)
Definition inRange (startDate endDate d : JsDate.Date) : bool :=
  JsDate.leb startDate d && JsDate.leb d endDate.

(** A date lies in the window of a processed month. *)
Definition covers (d : JsDate.Date) (ym : Z * Z) : bool :=
  (JsDate.key (windowStart (fst ym) (snd ym)) <=? JsDate.key d)
  && (JsDate.key d <? JsDate.key (windowEnd (fst ym) (snd ym))).

Definition windowsCovering (d : JsDate.Date) (ms : list (Z * Z)) : nat :=
  length (filter (fun ym => covers d ym = true) ms).

(** The number of a month, counted from January of year 0, the month of
    that number as the loop names it, and [n] months in a row. *)
Definition monthIndex (d : JsDate.Date) : Z := JsDate.fullYear d * 12 + JsDate.month0 d.

Definition monthOfIndex (i : Z) : Z * Z := (i / 12, i mod 12 + 1).

Definition monthRange (i : Z) (n : nat) : list (Z * Z) :=
  map monthOfIndex (seqZ i (Z.of_nat n)).

(** The fields of a date are in their ranges. *)
Definition wellFormed (d : JsDate.Date) : Prop :=
  0 <= JsDate.month0 d < 12 /\ 1 <= JsDate.date d <= 31
  /\ 0 <= JsDate.hours d < 24 /\ 0 <= JsDate.minutes d < 60
  /\ 0 <= JsDate.seconds d < 60 /\ 0 <= JsDate.millis d < 1000.

(** The staging directory after the writer has run on a batch: the
    uncompressed file written and removed, the compressed file written. *)
Definition staged (table : string) (year month : Z) (n : nat) (content : string)
    (d : gmap string Blob) : gmap string Blob :=
  delete (csvPath table year month n)
    (<[gzPath table year month n := Gzip content]>
       (<[csvPath table year month n := Plain content]> d)).

End Backup.

(** ** The restore pipeline: [restore.js] *)

Module Restore.

Definition localFilePath : string := Backup.BACKUP_PATH +:+ "/temp-file.csv".
Definition processedFilePath : string := Backup.BACKUP_PATH +:+ "/processed-temp-file.csv".

(** The object key built from [tableName], [yearMonth] and [batchNo]. *)
Definition s3Key (table yearMonth : string) (batchNo : nat) : string :=
  "db_backup/" +:+ table +:+ "/" +:+ yearMonth +:+ "/backup_" +:+ yearMonth
    +:+ "_batch" +:+ pretty batchNo +:+ ".csv.gz".

(** The bulk load of the database, [COPY table (columns) FROM STDIN WITH
    DELIMITER ',' CSV HEADER], is an input of the model: from the column
    list, the text streamed and the table as the transaction sees it, the
    table after the rows taken in so far, and the error that stopped the
    load, if any. *)
Definition CopyIn : Type :=
  list string -> string -> Db.Table -> Db.Table * option string.

(** An element of [Array.prototype.join]: [undefined] and [null] give the
    empty text. *)
Definition joinItem (v : option Js.Value) : string :=
  match v with
  | None | Some Js.VNull => EmptyString
  | Some v => Js.toString v
  end.

(** What the loop of [preprocessCsvFile] writes for one record. *)
Definition rowLine (headers : list string) (record : Js.Obj) : string :=
  Text.join "," (map (fun h => joinItem (Js.get h record)) headers)
    +:+ Text.str Text.newline.

(** What the loop writes for the records it is handed: the header line,
    from the keys of the first record, then a line for each record. *)
Definition processed (records : list Js.Obj) : string :=
  match records with
  | [] => EmptyString
  | first :: _ =>
      let headers := Js.keys first in
      Text.join "," headers +:+ Text.str Text.newline
        +:+ String.concat EmptyString (map (rowLine headers) records)
  end.

(** [preprocessCsvFile].  When the reader fails, the loop has been handed
    some of the records completed before the error, [delivered] of them at
    most (how many depends on how the stream was chunked), and then
    throws. *)
Definition preprocessCsvFile (delivered : nat) (inputFilePath outputFilePath : string)
  : M unit :=
  input <- readTextSync inputFilePath ;;
  match CsvParse.parse input with
  | (records, None) => writeFileSync outputFilePath (Plain (processed records))
  | (records, Some e) =>
      writeFileSync outputFilePath (Plain (processed (take delivered records))) ;;;
      throw (CsvParse.message e)
  end.

(** [readCsvHeaders]: the promise resolves at the first record, rejects at
    an error, and stays pending when the file has no record. *)
Definition readCsvHeaders (filePath : string) : M (list string) :=
  input <- readTextSync filePath ;;
  match CsvParse.parse input with
  | (first :: _, _) => ret (Js.keys first)
  | ([], Some e) => throw (CsvParse.message e)
  | ([], None) => fun w => (Pending, w)
  end.

(** The [COPY] statement run through [pg-copy-streams]. *)
Definition queryCopy (copy : CopyIn) (columns : list string) (content : string) : M unit :=
  fun w =>
    let '(t', err) := copy columns content (Db.current (session w)) in
    let w' := record Db.Copy (setSession (Db.store t' (session w)) w) in
    match err with
    | None => (Returned tt, w')
    | Some e => (Thrown e, w')
    end.

(** [restoreCsvToTable] *)
Definition restoreCsvToTable (copy : CopyIn) (table csvFilePath : string) : M unit :=
  poolConnect ;;;
  tryFinally
    (tryCatch
       (queryBegin ;;;
        headers <- readCsvHeaders csvFilePath ;;
        content <- readTextSync csvFilePath ;;
        queryCopy copy headers content ;;;
        queryCommit)
       (fun err =>
          queryRollback ;;;
          consoleError "Error during restore:" ;;;
          throw err))
    clientRelease.

(** [s3.send(new GetObjectCommand(...))] with the body read to a buffer. *)
Definition getObject (key : string) : M Blob :=
  fun w =>
    match bucket w !! key with
    | Some b => (Returned b, w)
    | None => (Thrown "NoSuchKey", w)
    end.

Definition unlinkIfExists (path : string) : M unit :=
  present <- existsSync path ;;
  if present then unlinkSync path else ret tt.

(** [downloadAndRestoreS3File] *)
Definition downloadAndRestoreS3File (copy : CopyIn) (delivered : nat)
    (key table : string) : M unit :=
  tryFinally
    (tryCatch
       (data <- getObject key ;;
        decompressed <- gunzipSync data ;;
        writeFileSync localFilePath (Plain decompressed) ;;;
        preprocessCsvFile delivered localFilePath processedFilePath ;;;
        restoreCsvToTable copy table processedFilePath)
       (fun err => consoleError "Error during download and restore process:"))
    (unlinkIfExists localFilePath ;;; unlinkIfExists processedFilePath).


(** The decode of the Row Codec on one archive: the text of the
    canonical file. *)
Definition decode (archive : string) : string :=
  processed (CsvParse.parse archive).1.

(** The fields of the data records of a canonical file, read back as
    comma-separated values. *)
Definition readBack (canonical : string) : list (list string) * option CsvParse.Error :=
  let '(recs, err) := CsvParse.parseRaw canonical in (tail recs, err).

(** The staging directory once the [finally] block has run. *)
Definition cleaned (d : gmap string Blob) : gmap string Blob :=
  delete processedFilePath (delete localFilePath d).

(** The steps of [downloadAndRestoreS3File] before the load step:
    download, decompress, stage, decode. *)
Definition fetched (delivered : nat) (key : string) : M unit :=
  data <- getObject key ;;
  decompressed <- gunzipSync data ;;
  writeFileSync localFilePath (Plain decompressed) ;;;
  preprocessCsvFile delivered localFilePath processedFilePath.

(** The staging directory after those steps on an archive. *)
Definition unpacked (archive canonical : string) (d : gmap string Blob)
  : gmap string Blob :=
  <[processedFilePath := Plain canonical]> (<[localFilePath := Plain archive]> d).

End Restore.

(** ** Sample data *)

Module Samples.
Import Js.

Definition row1 : Db.Row :=
  Db.mkRow 1 (JsDate.mkDate 2022 2 5 10 30 0 0) [("name"%string, VStr "alpha")].
Definition row2 : Db.Row :=
  Db.mkRow 2 (JsDate.mkDate 2022 2 4 8 0 0 0) [("name"%string, VStr "beta")].
Definition row3 : Db.Row :=
  Db.mkRow 3 (JsDate.mkDate 2022 3 9 0 0 0 0) [("name"%string, VNull)].

(** Two rows of March 2022 and one of April 2022. *)
Definition table : list Db.Row := [row1; row2; row3].

Definition world : World := mkWorld (Db.mkSession table None) ∅ ∅ [] [].

Definition cfg : Backup.Config := Backup.mkConfig "events" 2 ["id"; "created_at"; "name"]%string.

Definition headers : list Codec.Header := Codec.toHeaders (Backup.catalog cfg).

(** The object store refuses every upload. *)
Definition uploadDown : Faults :=
  mkFaults (fun _ => false) (fun _ => true) (fun _ => false).

Definition march : JsDate.Date := Backup.windowStart 2022 3.
Definition april : JsDate.Date := Backup.windowEnd 2022 3.

End Samples.

(** Sample data of the restore. *)

Module RestoreSamples.

(** The archive of the two March rows of the sample table. *)
Definition archive : string :=
  Codec.encode Samples.headers (map Db.toObject [Samples.row1; Samples.row2]).

Definition key : string := Restore.s3Key "events" "2022-03" 1.

(** A table that holds the April row, and a store that holds the
    archive. *)
Definition world : World :=
  mkWorld (Db.mkSession [Samples.row3] None) {[ key := Gzip archive ]} ∅ [] [].


(** A bulk load that takes every row in. *)
Definition copyAccepts : Restore.CopyIn :=
  fun _ _ t => (t ++ [Samples.row1; Samples.row2], None).



(** An archive whose records have one field fewer and one field more than
    the header has columns. *)
Definition raggedArchive : string :=
  "ID,NAME" +:+ Text.str Text.newline
    +:+ "1" +:+ Text.str Text.newline
    +:+ "2,beta,extra" +:+ Text.str Text.newline.

End RestoreSamples.

(** ** The round trip of the Row Codec, as the specification compares it

    The specification compares a decoded record with the row field for
    field, timestamps as formatted strings and nested values as parsed
    structures.  [Expected.rowFields] is the row in that form: nothing for
    NULL, the formatted timestamp, the JSON text of a nested value, the text
    of any other value. *)

Module Expected.

Definition fieldText (v : option Js.Value) : string :=
  match v with
  | None | Some Js.VNull => EmptyString
  | Some (Js.VDate d) => JsDate.format d
  | Some (Js.VArr items) => Js.stringify (Js.VArr items)
  | Some (Js.VObj fields) => Js.stringify (Js.VObj fields)
  | Some v => Js.toString v
  end.

Definition rowFields (columns : list string) (row : Js.Obj) : list string :=
  map (fun c => fieldText (Js.get c row)) columns.

End Expected.

(** Sample rows of the codec. *)

Module CodecSamples.
Import Js.

Definition quoted (s : string) : string :=
  Text.str Text.dquote +:+ s +:+ Text.str Text.dquote.

Definition columns : list string := ["id"; "name"]%string.

(** A text with the delimiter in it. *)
Definition rowComma : list (string * Value) :=
  [("id"%string, VNum 7); ("name"%string, VStr "a,b")].

(** A text with quotes in it. *)
Definition rowQuote : list (string * Value) :=
  [("id"%string, VNum 8); ("name"%string, VStr ("say " +:+ quoted "hi"))].

(** Two rows that differ only in where the delimiter falls. *)
Definition rowLeft : list (string * Value) :=
  [("id"%string, VStr "x,y"); ("name"%string, VStr "z")].
Definition rowRight : list (string * Value) :=
  [("id"%string, VStr "x"); ("name"%string, VStr "y,z")].

(** A row of NULL, number, plain text, timestamp and nested values. *)
Definition richColumns : list string := ["id"; "name"; "meta"; "created_at"; "note"]%string.

Definition rowRich : list (string * Value) :=
  [("id"%string, VNum 9); ("name"%string, VStr "plain");
   ("meta"%string, VObj [("k"%string, VStr "v"); ("n"%string, VArr [VNum 1; VNull])]);
   ("created_at"%string, VDate (JsDate.mkDate 2022 2 5 1 2 3 45));
   ("note"%string, VNull)].

(** The round trip of one row: encode, decode, and read the canonical
    file back. *)
Definition roundTrip (cols : list string) (row : list (string * Value))
  : list (list string) * option CsvParse.Error :=
  Restore.readBack (Restore.decode (Codec.encode (Codec.toHeaders cols) [row])).

End CodecSamples.

(** ** Counting what a run did *)

Module Counting.

Definition isCommit (ev : Db.Event) : bool :=
  match ev with Db.Commit => true | _ => false end.

Definition isDelete (ev : Db.Event) : bool :=
  match ev with Db.Delete _ => true | _ => false end.

(** The [COMMIT]s of a journal: the batches archived and deleted. *)
Definition commits (journal : list Db.Event) : nat :=
  length (filter (fun ev => isCommit ev = true) journal).

(** The batch statements of a journal: the selections made. *)
Definition selections (journal : list Db.Event) : nat :=
  length (filter (fun ev => isDelete ev = true) journal).

Definition isConnect (ev : Db.Event) : bool :=
  match ev with Db.Connect => true | _ => false end.

Definition isRelease (ev : Db.Event) : bool :=
  match ev with Db.Release => true | _ => false end.

(** The connections taken from the pool and those given back. *)
Definition connects (journal : list Db.Event) : nat :=
  length (filter (fun ev => isConnect ev = true) journal).

Definition releases (journal : list Db.Event) : nat :=
  length (filter (fun ev => isRelease ev = true) journal).

(** A computation gives back every connection it takes, however it
    ends. *)
Definition givesBack {A} (m : M A) : Prop :=
  forall w, exists j', journal (m w).2 = journal w ++ j' /\ connects j' = releases j'.

(** The number of batches of [size] rows that [rows] rows fill. *)
Definition batchesFor (rows size : nat) : nat := (rows + size - 1) / size.

(** The rows of a table outside a window. *)
Definition outside (lo hi : JsDate.Date) (t : list Db.Row) : list Db.Row :=
  filter (fun r => Db.inWindow lo hi r = false) t.

(** A row lies in the window of one of the months [ms]. *)
Definition processed (ms : list (Z * Z)) (r : Db.Row) : bool :=
  existsb (Backup.covers (Db.created_at r)) ms.

(** The rows of a table that lie in the window of none of the months. *)
Definition kept (ms : list (Z * Z)) (t : list Db.Row) : list Db.Row :=
  filter (fun r => processed ms r = false) t.

(** The month of a row is one of the months from that of [s] to that of
    [e]. *)
Definition betweenMonths (s e : JsDate.Date) (r : Db.Row) : Prop :=
  (Backup.monthIndex s <= Backup.monthIndex (Db.created_at r) <= Backup.monthIndex e)%Z.

#[global] Instance betweenMonths_dec s e r : Decision (betweenMonths s e r).
Proof. unfold betweenMonths. apply _. Defined.




End Counting.

(** A bucket that holds archives of an earlier run: batch 1 of March 2022
    and batch 1 of February 2022. *)
Module Rerun.

Definition earlierMarch : Blob := Gzip "earlier archive of March".
Definition earlierFebruary : Blob := Gzip "earlier archive of February".

Definition bucket : gmap string Blob :=
  <[Backup.s3Key "events" 2022 3 1 := earlierMarch]>
    (<[Backup.s3Key "events" 2022 2 1 := earlierFebruary]> ∅).

Definition world : World :=
  mkWorld (Db.mkSession Samples.table None) bucket ∅ [] [].

End Rerun.

(** A store whose archive holds the header line and no row. *)
Module RestoreEdge.

Definition headerOnly : string := Codec.encode Samples.headers [].

Definition world : World :=
  mkWorld (Db.mkSession [Samples.row3] None)
    {[ RestoreSamples.key := Gzip headerOnly ]} ∅ [] [].

End RestoreEdge.

(** ** What the reader makes of what the writer wrote *)

Module Reading.
Import Js.

(** The text of a cell: what the writer puts between the quotes, and
    nothing for an empty value. *)
Definition cellText (v : option Value) : string :=
  if Codec.isEmpty v then EmptyString else toString (default VNull v).

Definition cells (fields : list (option Value)) : list string := map cellText fields.

(** A line the writer leaves empty: no field, or one empty field. *)
Definition blank (fields : list (option Value)) : bool :=
  match fields with
  | [] => true
  | [v] => Codec.isEmpty v
  | _ => false
  end.

(** The values the writer is asked to write, line by line: the titles,
    when there are columns, and the values of each record. *)
Definition written (headers : list Codec.Header) (records : list Obj)
  : list (list (option Value)) :=
  match headers with
  | [] => []
  | _ => [map (fun h => Some (VStr (Codec.title h))) headers]
  end ++ map (Codec.getRecordAsArray headers) records.

(** The line of a list of values, with its record delimiter. *)
Definition lineOf (fields : list (option Value)) : string :=
  Codec.getCsvLine fields +:+ Text.str Text.newline.

End Reading.

(** ** What an archive keeps of a row *)

Module Archive.
Import Js.

(** The values that are printed exactly as the script prints them: SQL
    NULL, booleans, text, integers that JavaScript numbers hold exactly,
    and timestamps of a four-digit year. *)
Definition exact (v : Value) : Prop :=
  match v with
  | VNull | VBool _ | VStr _ => True
  | VNum n => (Z.abs n < 2 ^ 53)%Z
  | VDate d => Backup.wellFormed d /\ (1000 <= JsDate.fullYear d <= 9999)%Z
  | VArr _ | VObj _ => False
  end.






End Archive.

(** A table in which three rows share an id, one of them a row of April;
    batches of one row. *)
Module Duplicates.

Definition first : Db.Row :=
  Db.mkRow 1 (JsDate.mkDate 2022 2 5 10 30 0 0) [("name"%string, Js.VStr "alpha")].
Definition second : Db.Row :=
  Db.mkRow 1 (JsDate.mkDate 2022 3 9 0 0 0 0) [("name"%string, Js.VStr "beta")].
Definition third : Db.Row :=
  Db.mkRow 1 (JsDate.mkDate 2022 2 4 8 0 0 0) [("name"%string, Js.VStr "gamma")].

Definition table : list Db.Row := [first; second; third].

Definition world : World := mkWorld (Db.mkSession table None) ∅ ∅ [] [].

Definition cfg : Backup.Config :=
  Backup.mkConfig "events" 1 ["id"; "created_at"; "name"]%string.

End Duplicates.

(** * Properties *)

(** Unfolding of the primitives and of the effect combinators. *)
Ltac unfold_effects :=
  unfold readTextSync, consoleError, poolConnect, clientRelease, queryBegin,
    queryCommit, queryRollback, queryDelete, writeFileSync, readFileSync,
    unlinkSync, existsSync, gunzipSync, gzipSync in *;
  unfold modify, gets in *;
  unfold bind, ret, throw, tryCatch, tryFinally in *;
  unfold record, setSession, setBucket, setDisk in *.

(** ** Batch Selector *)

Section BatchSelector.
Import Db.

Lemma filter_all {A} (P : A -> Prop) `{!forall x, Decision (P x)} (l : list A) :
  (forall x, x ∈ l -> P x) -> filter P l = l.
Proof.
  induction l as [|a l IH]; intros Hall; [done|].
  rewrite filter_cons_True by (apply Hall; left).
  f_equal. apply IH. intros x Hx. apply Hall. by right.
Qed.

Lemma filter_none {A} (P : A -> Prop) `{!forall x, Decision (P x)} (l : list A) :
  (forall x, x ∈ l -> ~ P x) -> filter P l = [].
Proof.
  induction l as [|a l IH]; intros Hall; [done|].
  rewrite filter_cons_False by (apply Hall; left).
  apply IH. intros x Hx. apply Hall. by right.
Qed.

#[local] Instance earlier_total : Total earlier.
Proof. intros a b. unfold earlier. lia. Qed.

#[local] Instance earlier_trans : Transitive earlier.
Proof. intros a b c. unfold earlier. lia. Qed.

Lemma chosen_submseteq t lo hi limit : chosen t lo hi limit ⊆+ t.
Proof.
  unfold chosen. etrans; [apply submseteq_take|].
  rewrite merge_sort_Permutation.
  apply sublist_submseteq, sublist_filter.
Qed.

(** With [id] a key of the table, deleting by [id IN (...)] removes the
    chosen rows and no others. *)
Lemma filter_ids_chosen (t s : Table) :
  NoDup (id <$> t) -> s ⊆+ t ->
  filter (fun r => id r ∈ id <$> s) t ≡ₚ s.
Proof.
  intros Hnd Hsub.
  destruct (submseteq_Permutation _ _ Hsub) as [k Hk].
  rewrite Hk, filter_app.
  assert (Hnd' : NoDup (id <$> s ++ k)) by (by rewrite <- Hk).
  rewrite fmap_app in Hnd'. apply NoDup_app in Hnd' as (_ & Hdisj & _).
  rewrite filter_all, filter_none.
  - by rewrite app_nil_r.
  - intros x Hx Hin. apply (Hdisj (id x)); [done|]. by apply list_elem_of_fmap_2.
  - intros x Hx. by apply list_elem_of_fmap_2.
Qed.

Lemma returned_chosen t lo hi limit :
  NoDup (id <$> t) ->
  (deleteReturning t lo hi limit).1 ≡ₚ chosen t lo hi limit.
Proof.
  intros Hnd. unfold deleteReturning, cte. cbn [fst].
  apply (filter_ids_chosen t (chosen t lo hi limit) Hnd), chosen_submseteq.
Qed.

Lemma returned_remaining t lo hi limit :
  t ≡ₚ (deleteReturning t lo hi limit).1 ++ (deleteReturning t lo hi limit).2.
Proof. unfold deleteReturning. cbn [fst snd]. by rewrite filter_app_complement. Qed.

Lemma chosen_inWindow t lo hi limit r :
  r ∈ chosen t lo hi limit -> inWindow lo hi r = true.
Proof.
  unfold chosen. intros Hr.
  apply elem_of_take in Hr as (i & Hr & _).
  apply list_elem_of_lookup_2 in Hr.
  rewrite merge_sort_Permutation in Hr.
  by apply list_elem_of_filter in Hr as [? _].
Qed.

Lemma chosen_earliest t lo hi limit r r' :
  r ∈ chosen t lo hi limit -> r' ∈ t -> inWindow lo hi r' = true ->
  id r' ∉ id <$> chosen t lo hi limit -> earlier r r'.
Proof.
  unfold chosen.
  set (l := merge_sort earlier (filter (fun r => inWindow lo hi r = true) t)).
  intros Hr Hr' Hw Hnot.
  assert (Hl : r' ∈ l).
  { unfold l. rewrite merge_sort_Permutation. by apply list_elem_of_filter. }
  rewrite <- (take_drop limit l) in Hl.
  apply elem_of_app in Hl as [Hl|Hl].
  - exfalso. apply Hnot. by apply list_elem_of_fmap_2.
  - apply (StronglySorted_app_1_elem_of earlier (take limit l) (drop limit l)); [|done..].
    rewrite take_drop. apply StronglySorted_merge_sort; apply _.
Qed.

(** With [id] a key of the table, the batch
    statement returns at most [limit] rows (as many as the window allows),
    all of them rows of the table inside the window and none later than a
    window row left behind; the rows returned and the rows remaining are
    together exactly the table; no id returned is left in the table; the
    window count drops by the number of rows returned; and run after
    [BEGIN] the statement changes only the view of the open transaction. *)
Lemma deleteReturning_selects (t : list Row) (lo hi : JsDate.Date) (limit : nat) :
  NoDup (id <$> t) ->
  let R := (deleteReturning t lo hi limit).1 in
  let t' := (deleteReturning t lo hi limit).2 in
  length R <= limit
  /\ length R = limit `min` countWindow t lo hi
  /\ (forall r, r ∈ R -> r ∈ t /\ inWindow lo hi r = true)
  /\ (forall r r', r ∈ R -> r' ∈ t' -> inWindow lo hi r' = true -> earlier r r')
  /\ t ≡ₚ R ++ t'
  /\ (forall r, r ∈ R -> id r ∉ id <$> t')
  /\ countWindow t' lo hi = countWindow t lo hi - length R
  /\ (forall w, session w = mkSession t None ->
        exists w', (queryBegin ;;; queryDelete lo hi limit) w = (Returned R, w')
                   /\ session w' = mkSession t (Some t')).
Proof.
  intros Hnd R t'.
  assert (HR : R ≡ₚ chosen t lo hi limit) by (by apply returned_chosen).
  assert (Hlen : length R = limit `min` countWindow t lo hi).
  { rewrite HR. unfold chosen, countWindow.
    by rewrite length_take, (Permutation_length (merge_sort_Permutation _ _)). }
  assert (Hin : forall r, r ∈ R -> r ∈ t /\ inWindow lo hi r = true).
  { intros r Hr. split.
    - unfold R, deleteReturning in Hr. cbn [fst] in Hr.
      by apply list_elem_of_filter in Hr as [_ ?].
    - rewrite HR in Hr. by eapply chosen_inWindow. }
  assert (Hsplit : t ≡ₚ R ++ t') by apply returned_remaining.
  split_and!; try done.
  - lia.
  - intros r r' Hr Hr' Hw. rewrite HR in Hr.
    unfold t', deleteReturning in Hr'. cbn [snd] in Hr'.
    apply list_elem_of_filter in Hr' as [Hnot Hr'].
    by eapply chosen_earliest.
  - intros r Hr Hid. apply list_elem_of_fmap in Hid as (r' & Heq & Hr').
    unfold R, t', deleteReturning in Hr, Hr'. cbn [fst snd] in Hr, Hr'.
    apply list_elem_of_filter in Hr as [Hr _].
    apply list_elem_of_filter in Hr' as [Hr' _].
    apply Hr'. by rewrite <- Heq.
  - unfold countWindow at 2. rewrite Hsplit, filter_app, length_app.
    rewrite (filter_all _ R) by (intros x Hx; by apply Hin).
    unfold countWindow. lia.
  - intros [s b d j e] Hw. cbn in Hw. subst s. eexists. split; reflexivity.
Qed.

End BatchSelector.

(** ** Archive Writer: the check before compression *)

Section ValidationGate.
Import Codec.

Lemma splitAcc_length sep piece s :
  length (Text.splitAcc sep piece s) = S (Text.occurrences sep s).
Proof.
  revert piece. induction s as [|c s IH]; intros piece; cbn; [done|].
  destruct (Ascii.eqb c sep); cbn; by rewrite IH.
Qed.

Lemma occurrences_app c a b :
  Text.occurrences c (a +:+ b) = Text.occurrences c a + Text.occurrences c b.
Proof. induction a as [|d a IH]; simpl; [done|]. rewrite IH. lia. Qed.

(** The check lets a text through exactly when it holds a newline. *)
Lemma validationGate_newline (fileContents : string) :
  validationGate fileContents = true <-> 1 <= Text.occurrences Text.newline fileContents.
Proof.
  unfold validationGate, Text.split. rewrite splitAcc_length.
  destruct (String.eqb fileContents EmptyString) eqn:E.
  - apply String.eqb_eq in E. subst. cbn. split; [discriminate | lia].
  - rewrite orb_false_l, negb_true_iff, Nat.ltb_ge. lia.
Qed.

Lemma joinRecords_newline lines :
  1 <= Text.occurrences Text.newline (joinRecords lines).
Proof. unfold joinRecords. rewrite occurrences_app. cbn. lia. Qed.

(** Whatever the writer produces passes the check. *)
Lemma validationGate_writeRecords headers records :
  validationGate (writeRecords headers records) = true.
Proof.
  apply validationGate_newline. unfold writeRecords, stringifyRecords.
  rewrite occurrences_app. pose proof (joinRecords_newline
    (map (fun r => getCsvLine (getRecordAsArray headers r)) records)). lia.
Qed.

End ValidationGate.

(** ** Archive Writer: staging files *)

Section ArchiveWriter.
Import Backup.

Lemma append_ne (p s : string) : s <> EmptyString -> p +:+ s <> p.
Proof.
  intros Hs. induction p as [|c p IH]; simpl; [done|].
  intros Heq. injection Heq as Heq. by apply IH.
Qed.

Lemma gzPath_ne_csvPath table year month n :
  gzPath table year month n <> csvPath table year month n.
Proof. unfold gzPath. by apply append_ne. Qed.

(** The writer always returns: it leaves the compressed file, removes the
    uncompressed one, and touches nothing else. *)
Lemma writeToCompressedFile_returns rows table year month n headers w :
  writeToCompressedFile rows table year month n headers w
  = (Returned (gzPath table year month n),
     setDisk (staged table year month n (Codec.encode headers rows) (disk w)) w).
Proof.
  unfold writeToCompressedFile, staged, gzPath.
  pose proof (gzPath_ne_csvPath table year month n) as Hne. unfold gzPath in Hne.
  set (csv := csvPath table year month n) in *.
  set (content := Codec.encode headers rows).
  destruct w as [s b d j e].
  unfold_effects; unfold bind; cbn.
  rewrite lookup_insert_eq. cbn.
  unfold content at 1, Codec.encode. rewrite validationGate_writeRecords. cbn.
  rewrite lookup_insert_ne by done. rewrite lookup_insert_eq. cbn.
  rewrite lookup_delete_ne by done. rewrite lookup_insert_eq.
  rewrite bool_decide_eq_true_2 by eauto. cbn. reflexivity.
Qed.

Lemma staged_gz table year month n content d :
  staged table year month n content d !! gzPath table year month n = Some (Gzip content).
Proof.
  unfold staged. rewrite lookup_delete_ne by (apply not_eq_sym, gzPath_ne_csvPath).
  apply lookup_insert_eq.
Qed.

Lemma staged_csv table year month n content d :
  staged table year month n content d !! csvPath table year month n = None.
Proof. unfold staged. apply lookup_delete_eq. Qed.

Lemma staged_other table year month n content d path :
  path <> csvPath table year month n -> path <> gzPath table year month n ->
  staged table year month n content d !! path = d !! path.
Proof.
  intros H1 H2. unfold staged.
  by rewrite lookup_delete_ne, !lookup_insert_ne.
Qed.

End ArchiveWriter.

(** ** One pass of the month loop, case by case *)

Section BatchCases.
Import Backup.
#[local] Arguments Db.deleteReturning : simpl never.
#[local] Arguments writeToCompressedFile : simpl never.
#[local] Arguments s3Key : simpl never.
#[local] Arguments staged : simpl never.

Context (flt : Faults) (cfg : Config) (year month : Z)
        (headers : list Codec.Header) (n : nat).
Context (c : list Db.Row) (v : option (list Db.Row)) (R t' : list Db.Row)
        (b d : gmap string Blob) (j : list Db.Event) (e : list string).
Context (Hdel : Db.deleteReturning (Db.current (Db.mkSession c v))
                  (windowStart year month) (windowEnd year month)
                  (BATCH_SIZE cfg) = (R, t')).

Let w : World := mkWorld (Db.mkSession c v) b d j e.
Let key : string := s3Key (tableName cfg) year month n.
Let content : string := Codec.encode headers (map Db.toObject R).
Let d' : gmap string Blob := staged (tableName cfg) year month n content d.

(** The connection with or without a transaction open before the pass. *)
Ltac either_view :=
  destruct v as [seen|]; cbn in Hdel.

(** A pass whose selection is not empty: through the delete, the writer
    and the read of the compressed file. *)
Ltac through_writer :=
  unfold_effects; cbn;
  rewrite Hdel; destruct R as [|r R0]; [done|];
  rewrite writeToCompressedFile_returns; unfold_effects; cbn;
  rewrite staged_gz; cbn; by rewrite <- !app_assoc.

Lemma batch_query_fails :
  queryFails flt key = true ->
  batch flt cfg year month headers n w
  = (Thrown "query failed",
     mkWorld (Db.mkSession c None) b d
       (j ++ [Db.Connect; Db.Begin; Db.Rollback; Db.Release])
       (e ++ ["Error during month processing, rolling back..."])).
Proof.
  intros Hq. unfold batch. fold key. rewrite Hq.
  either_view; unfold_effects; cbn; by rewrite <- !app_assoc.
Qed.

Lemma batch_break :
  queryFails flt key = false -> R = [] ->
  batch flt cfg year month headers n w
  = (Returned Break,
     mkWorld (Db.mkSession c (Some t')) b d
       (j ++ [Db.Connect; Db.Begin; Db.Delete 0; Db.Release]) e).
Proof.
  intros Hq HR. unfold batch. fold key. rewrite Hq.
  either_view; unfold_effects; cbn; rewrite Hdel, HR; cbn;
    by rewrite <- !app_assoc.
Qed.

Lemma batch_upload_fails :
  queryFails flt key = false -> R <> [] -> uploadFails flt key = true ->
  batch flt cfg year month headers n w
  = (Thrown "upload failed",
     mkWorld (Db.mkSession c None) b d'
       (j ++ [Db.Connect; Db.Begin; Db.Delete (length R); Db.Rollback; Db.Release])
       (e ++ ["Error uploading file to S3:";
              "Error during month processing, rolling back..."])).
Proof.
  intros Hq HR Hu. unfold batch, uploadToS3. fold key. rewrite Hq, Hu.
  either_view; through_writer.
Qed.

Lemma batch_commit_fails :
  queryFails flt key = false -> R <> [] -> uploadFails flt key = false ->
  commitFails flt key = true ->
  batch flt cfg year month headers n w
  = (Thrown "commit failed",
     mkWorld (Db.mkSession c None) (<[key := Gzip content]> b) d'
       (j ++ [Db.Connect; Db.Begin; Db.Delete (length R); Db.Rollback; Db.Release])
       (e ++ ["Error during month processing, rolling back..."])).
Proof.
  intros Hq HR Hu Hc. unfold batch, uploadToS3. fold key. rewrite Hq, Hu, Hc.
  either_view; through_writer.
Qed.

Lemma batch_next :
  queryFails flt key = false -> R <> [] -> uploadFails flt key = false ->
  commitFails flt key = false ->
  batch flt cfg year month headers n w
  = (Returned (Next (length R)),
     mkWorld (Db.mkSession t' None) (<[key := Gzip content]> b) d'
       (j ++ [Db.Connect; Db.Begin; Db.Delete (length R); Db.Commit; Db.Release]) e).
Proof.
  intros Hq HR Hu Hc. unfold batch, uploadToS3. fold key. rewrite Hq, Hu, Hc.
  either_view; through_writer.
Qed.

End BatchCases.

(** ** Batch Selector: the statement in a pass of the loop *)

Section BatchStatement.
Import Backup.

(** [BEGIN] and then the batch statement, on a connection in any state:
    the rows are returned and only what the transaction sees changes. *)
Lemma begin_then_delete (c : list Db.Row) (v : option (list Db.Row))
    (b d : gmap string Blob) (j : list Db.Event) (e : list string)
    (lo hi : JsDate.Date) (limit : nat) :
  (queryBegin ;;; queryDelete lo hi limit) (mkWorld (Db.mkSession c v) b d j e)
  = let '(R, t') := Db.deleteReturning (Db.current (Db.mkSession c v)) lo hi limit in
    (Returned R,
     mkWorld (Db.mkSession c (Some t')) b d
       (j ++ [Db.Begin; Db.Delete (length R)]) e).
Proof.
  unfold queryBegin, queryDelete, bind, modify, record, setSession.
  cbn [session bucket disk journal errors].
  destruct v as [seen|]; cbn.
  - destruct (Db.deleteReturning seen lo hi limit) as [R t'].
    by rewrite <- app_assoc.
  - destruct (Db.deleteReturning c lo hi limit) as [R t'].
    by rewrite <- app_assoc.
Qed.

(** C1. Select-delete atomicity, on a table in which [id] is a key and
    for a month of a year from 100 on.  In a pass of the loop of
    [processMonth] whose query does not fail, the batch statement chooses
    at most [BATCH_SIZE] rows (as many as the window allows), all of them
    rows of the table inside the window and none later than a window row
    left behind; the rows returned and the rows remaining are together
    exactly the table; no id returned is left in the table; the window
    count drops by the number of rows returned.  The pass runs the
    statement once, after [BEGIN], where it changes only what the open
    transaction sees; and the pass ends in one of three ways: no row was
    returned and nothing changes; the rows returned are archived under
    the key of the batch and their deletion, and nothing else, is
    committed; or the pass throws and the deletion is rolled back. *)
Theorem select_delete_atomicity (flt : Faults) (cfg : Config) (year month : Z)
    (headers : list Codec.Header) (n : nat) (w : World) :
  let cur := Db.current (session w) in
  let lo := windowStart year month in
  let hi := windowEnd year month in
  let key := s3Key (tableName cfg) year month n in
  let R := (Db.deleteReturning cur lo hi (BATCH_SIZE cfg)).1 in
  let t' := (Db.deleteReturning cur lo hi (BATCH_SIZE cfg)).2 in
  let out := batch flt cfg year month headers n w in
  (100 <= year)%Z -> (1 <= month <= 12)%Z ->
  NoDup (Db.id <$> cur) ->
  queryFails flt key = false ->
  length R <= BATCH_SIZE cfg
  /\ length R = BATCH_SIZE cfg `min` Db.countWindow cur lo hi
  /\ (forall r, r ∈ R -> r ∈ cur /\ Db.inWindow lo hi r = true)
  /\ (forall r r', r ∈ R -> r' ∈ t' -> Db.inWindow lo hi r' = true -> Db.earlier r r')
  /\ cur ≡ₚ R ++ t'
  /\ (forall r, r ∈ R -> Db.id r ∉ Db.id <$> t')
  /\ Db.countWindow t' lo hi = Db.countWindow cur lo hi - length R
  /\ (exists w', (queryBegin ;;; queryDelete lo hi (BATCH_SIZE cfg)) w = (Returned R, w')
                 /\ Db.current (session w') = t'
                 /\ Db.committed (session w') = Db.committed (session w))
  /\ (exists rest,
        journal out.2
        = journal w ++ [Db.Connect; Db.Begin; Db.Delete (length R)] ++ rest)
  /\ ((R = [] /\ out.1 = Returned Break
       /\ session out.2 = Db.mkSession (Db.committed (session w)) (Some t')
       /\ bucket out.2 = bucket w)
      \/ (R <> [] /\ out.1 = Returned (Next (length R))
          /\ session out.2 = Db.mkSession t' None
          /\ bucket out.2
             = <[key := Gzip (Codec.encode headers (map Db.toObject R))]> (bucket w))
      \/ (R <> [] /\ (exists err, out.1 = Thrown err)
          /\ session out.2 = Db.mkSession (Db.committed (session w)) None)).
Proof.
  destruct w as [[c v] b d j e]. intros cur lo hi key R t' out _ _ Hnd Hq.
  destruct (deleteReturning_selects cur lo hi (BATCH_SIZE cfg) Hnd)
    as (H1 & H2 & H3 & H4 & H5 & H6 & H7 & _).
  fold R t' in H1, H2, H3, H4, H5, H6, H7.
  assert (Hdel : Db.deleteReturning (Db.current (Db.mkSession c v)) lo hi
                   (BATCH_SIZE cfg) = (R, t')).
  { subst R t' cur. cbn [session]. by destruct (Db.deleteReturning _ _ _ _). }
  split_and!; [done..| | |].
  - rewrite (begin_then_delete c v b d j e lo hi (BATCH_SIZE cfg)), Hdel.
    eexists. by split_and!.
  - subst out. destruct (decide (R = [])) as [HR|HR].
    { rewrite (batch_break flt cfg year month headers n c v R t' b d j e Hdel Hq HR).
      cbn [snd journal]. rewrite HR. by exists [Db.Release]. }
    destruct (uploadFails flt key) eqn:Hu.
    { rewrite (batch_upload_fails flt cfg year month headers n c v R t' b d j e
                 Hdel Hq HR Hu).
      cbn [snd journal]. by exists [Db.Rollback; Db.Release]. }
    destruct (commitFails flt key) eqn:Hc.
    { rewrite (batch_commit_fails flt cfg year month headers n c v R t' b d j e
                 Hdel Hq HR Hu Hc).
      cbn [snd journal]. by exists [Db.Rollback; Db.Release]. }
    rewrite (batch_next flt cfg year month headers n c v R t' b d j e
               Hdel Hq HR Hu Hc).
    cbn [snd journal]. by exists [Db.Commit; Db.Release].
  - subst out. destruct (decide (R = [])) as [HR|HR].
    { rewrite (batch_break flt cfg year month headers n c v R t' b d j e Hdel Hq HR).
      left. by split_and!. }
    destruct (uploadFails flt key) eqn:Hu.
    { rewrite (batch_upload_fails flt cfg year month headers n c v R t' b d j e
                 Hdel Hq HR Hu).
      right. right. split_and!; [done|by eexists|done]. }
    destruct (commitFails flt key) eqn:Hc.
    { rewrite (batch_commit_fails flt cfg year month headers n c v R t' b d j e
                 Hdel Hq HR Hu Hc).
      right. right. split_and!; [done|by eexists|done]. }
    rewrite (batch_next flt cfg year month headers n c v R t' b d j e
               Hdel Hq HR Hu Hc).
    right. left. by split_and!.
Qed.

(** The theorem at the sample table: the first pass for March 2022, with
    batches of two rows, commits the deletion of the two rows of March. *)
Lemma select_delete_atomicity_witness :
  (Db.deleteReturning Samples.table Samples.march Samples.april 2).1
  ≡ₚ [Samples.row1; Samples.row2]
  /\ Db.countWindow (Db.deleteReturning Samples.table Samples.march Samples.april 2).2
       Samples.march Samples.april
     = Db.countWindow Samples.table Samples.march Samples.april
       - length (Db.deleteReturning Samples.table Samples.march Samples.april 2).1
  /\ (exists rest,
        journal (batch noFaults Samples.cfg 2022 3 Samples.headers 1 Samples.world).2
        = [] ++ [Db.Connect; Db.Begin; Db.Delete 2] ++ rest).
Proof.
  assert (Hnd : NoDup (Db.id <$> Samples.table)).
  { apply (bool_decide_unpack _). vm_compute. exact I. }
  destruct (select_delete_atomicity noFaults Samples.cfg 2022 3 Samples.headers 1
              Samples.world ltac:(lia) ltac:(lia) Hnd eq_refl)
    as (_ & _ & _ & _ & _ & _ & Hcount & _ & Hjournal & _).
  split; [by vm_compute|]. split; [exact Hcount|exact Hjournal].
Defined.

(** The claim without the condition on [id].  Three rows share the id 1,
    two of March and one of April; with batches of one row the first
    pass for March returns and deletes all three, the row of April among
    them: more rows than [BATCH_SIZE], and a row outside the window. *)
Lemma duplicate_ids_delete_more :
  let out := batch noFaults Duplicates.cfg 2022 3 Samples.headers 1 Duplicates.world in
  BATCH_SIZE Duplicates.cfg = 1
  /\ Db.inWindow (windowStart 2022 3) (windowEnd 2022 3) Duplicates.second = false
  /\ out.1 = Returned (Next 3)
  /\ journal out.2 = [Db.Connect; Db.Begin; Db.Delete 3; Db.Commit; Db.Release]
  /\ Db.committed (session out.2) = []
  /\ ~ (length (Db.deleteReturning Duplicates.table (windowStart 2022 3)
                  (windowEnd 2022 3) 1).1 <= 1).
Proof.
  cbv zeta. split_and!; try (vm_compute; reflexivity).
  vm_compute. lia.
Qed.

End BatchStatement.

(** ** Archive Pipeline: delete, upload and commit of one batch *)

Section BatchOutcome.
Import Backup.

(** C3, as the code has it.  The delete of a batch stays uncommitted until
    its upload has succeeded.  Whenever a pass of the month loop throws,
    the connection is rolled back: the table holds exactly what it held
    before the pass and no transaction is open.  In particular when the
    upload fails after the delete has run, the pass throws, the rows are
    back and nothing is stored.  When a pass completes a batch, the rows
    are gone from the table and the archive object is in the store.  A
    pass never stays pending. *)
Theorem batch_failure_restores_rows (flt : Faults) (cfg : Config) (year month : Z)
    (headers : list Codec.Header) (n : nat) (w : World) :
  let key := s3Key (tableName cfg) year month n in
  let del := Db.deleteReturning (Db.current (session w)) (windowStart year month)
               (windowEnd year month) (BATCH_SIZE cfg) in
  let out := batch flt cfg year month headers n w in
  (forall err, out.1 = Thrown err ->
     session out.2 = Db.rollback (session w)
     /\ Db.committed (session out.2) = Db.committed (session w))
  /\ (queryFails flt key = false -> del.1 <> [] -> uploadFails flt key = true ->
      out.1 = Thrown "upload failed"
      /\ Db.Delete (length del.1) ∈ journal out.2
      /\ session out.2 = Db.rollback (session w)
      /\ bucket out.2 = bucket w)
  /\ (forall k, out.1 = Returned (Next k) ->
      k = length del.1
      /\ session out.2 = Db.mkSession del.2 None
      /\ bucket out.2 !! key = Some (Gzip (Codec.encode headers (map Db.toObject del.1))))
  /\ out.1 <> Pending.
Proof.
  destruct w as [[c v] b d j e]. intros key del out.
  cbn [session] in del.
  destruct del as [R t'] eqn:Hdel. cbn [fst snd].
  destruct (queryFails flt key) eqn:Hq.
  { subst out. unfold key in Hq.
    rewrite (batch_query_fails flt cfg year month headers n c v R t' b d j e Hdel Hq).
    cbn. split_and!; try done. }
  destruct (decide (R = [])) as [HR|HR].
  { subst out. unfold key in Hq.
    rewrite (batch_break flt cfg year month headers n c v R t' b d j e Hdel Hq HR).
    cbn. split_and!; try done. }
  destruct (uploadFails flt key) eqn:Hu.
  { subst out. unfold key in Hq, Hu.
    rewrite (batch_upload_fails flt cfg year month headers n c v R t' b d j e
               Hdel Hq HR Hu).
    cbn. split_and!; try done.
    intros _ _ _. split_and!; try done. set_solver. }
  destruct (commitFails flt key) eqn:Hc.
  { subst out. unfold key in Hq, Hu, Hc.
    rewrite (batch_commit_fails flt cfg year month headers n c v R t' b d j e
               Hdel Hq HR Hu Hc).
    cbn. split_and!; try done. }
  subst out. unfold key in Hq, Hu, Hc.
  rewrite (batch_next flt cfg year month headers n c v R t' b d j e Hdel Hq HR Hu Hc).
  cbn. split_and!; try done.
  intros k [= <-]. split_and!; try done. apply lookup_insert_eq.
Qed.

(** The theorem at the sample table, with the object store down. *)
Lemma batch_failure_restores_rows_witness :
  Db.view (session Samples.world) = None
  /\ (batch Samples.uploadDown Samples.cfg 2022 3 Samples.headers 1 Samples.world).1
     = Thrown "upload failed"
  /\ session (batch Samples.uploadDown Samples.cfg 2022 3 Samples.headers 1
                Samples.world).2
     = session Samples.world.
Proof.
  split; [reflexivity|].
  destruct (batch_failure_restores_rows Samples.uploadDown Samples.cfg 2022 3
              Samples.headers 1 Samples.world) as (_ & H & _).
  destruct H as (H1 & _ & H2 & _); [reflexivity | by vm_compute | reflexivity |].
  by split.
Defined.

(** C3, as the specification words it, fails.  On the sample table the
    upload fails after the delete of two rows has run, and no row of the
    table is lost: the claim that the deleted rows are not restored is
    false there. *)
Lemma upload_failure_loses_no_row :
  let out := batch Samples.uploadDown Samples.cfg 2022 3 Samples.headers 1 Samples.world in
  out.1 = Thrown "upload failed"
  /\ Db.Delete 2 ∈ journal out.2
  /\ ~ (exists r, r ∈ Samples.table /\ r ∉ Db.current (session out.2)).
Proof.
  intros out.
  assert (H1 : out.1 = Thrown "upload failed") by (by vm_compute).
  assert (H2 : journal out.2
               = [Db.Connect; Db.Begin; Db.Delete 2; Db.Rollback; Db.Release])
    by (by vm_compute).
  assert (H3 : Db.current (session out.2) = Samples.table) by (by vm_compute).
  clearbody out. rewrite H2, H3. split_and!; [done| |].
  - apply list_elem_of_In. cbn. tauto.
  - intros (r & Hin & Hout). exact (Hout Hin).
Qed.

(** The gap that does exist is the reverse one: when the commit fails
    after the upload, the object is stored and the rows are still in the
    table. *)
Lemma commit_failure_leaves_both (flt : Faults) (cfg : Config) (year month : Z)
    (headers : list Codec.Header) (n : nat) (w : World) :
  let key := s3Key (tableName cfg) year month n in
  let del := Db.deleteReturning (Db.current (session w)) (windowStart year month)
               (windowEnd year month) (BATCH_SIZE cfg) in
  let out := batch flt cfg year month headers n w in
  queryFails flt key = false -> del.1 <> [] -> uploadFails flt key = false ->
  commitFails flt key = true ->
  out.1 = Thrown "commit failed"
  /\ Db.committed (session out.2) = Db.committed (session w)
  /\ bucket out.2 !! key = Some (Gzip (Codec.encode headers (map Db.toObject del.1))).
Proof.
  destruct w as [[c v] b d j e]. intros key del out.
  cbn [session] in del.
  destruct del as [R t'] eqn:Hdel. cbn [fst snd]. intros Hq HR Hu Hc.
  subst out. unfold key in Hq, Hu, Hc.
  rewrite (batch_commit_fails flt cfg year month headers n c v R t' b d j e
             Hdel Hq HR Hu Hc).
  cbn. split_and!; try done. apply lookup_insert_eq.
Qed.

End BatchOutcome.

(** ** Archive Pipeline: the month loop and its transactions *)

Section MonthLoop.
Import Backup.

Lemma releasesOpen_last_pass (open : bool) (pre : list Db.Event) (k : nat) :
  Db.releasesOpen open (pre ++ [Db.Connect; Db.Begin; Db.Delete k; Db.Release]) = true.
Proof.
  revert open. induction pre as [|ev pre IH]; intros open; [done|].
  destruct ev; cbn; rewrite ?IH; try done. by destruct open.
Qed.

Lemma deleteReturning_shrinks (t R t' : list Db.Row) lo hi limit :
  Db.deleteReturning t lo hi limit = (R, t') -> R <> [] -> length t' < length t.
Proof.
  intros Hdel HR. pose proof (returned_remaining t lo hi limit) as Hp.
  rewrite Hdel in Hp. cbn in Hp. apply Permutation_length in Hp.
  rewrite length_app in Hp. destruct R; [done|]. cbn in Hp. lia.
Qed.

(** Without faults and with fuel for one pass more than the table has
    rows, the loop returns; its last pass, the one whose selection is
    empty, leaves the loop by [break] between [BEGIN] and [COMMIT], and the
    connection is released with that transaction open. *)
Lemma batches_end_open (fuel : nat) (cfg : Config) (year month : Z)
    (headers : list Codec.Header) :
  forall (n total : nat) (c : list Db.Row) (v : option (list Db.Row))
         (b d : gmap string Blob) (j : list Db.Event) (e : list string),
    length (Db.current (Db.mkSession c v)) < fuel ->
    exists total' t1 t2 b' d' pre,
      batches fuel noFaults cfg year month headers n total
        (mkWorld (Db.mkSession c v) b d j e)
      = (Returned total',
         mkWorld (Db.mkSession t1 (Some t2)) b' d'
           (j ++ pre ++ [Db.Connect; Db.Begin; Db.Delete 0; Db.Release]) e).
Proof.
  induction fuel as [|fuel IH]; intros n total c v b d j e Hfuel; [lia|].
  destruct (Db.deleteReturning (Db.current (Db.mkSession c v)) (windowStart year month)
              (windowEnd year month) (BATCH_SIZE cfg)) as [R t'] eqn:Hdel.
  cbn [batches]. unfold bind at 1.
  destruct (decide (R = [])) as [HR|HR].
  - rewrite (batch_break noFaults cfg year month headers n c v R t' b d j e
               Hdel eq_refl HR).
    exists total, c, t', b, d, []. reflexivity.
  - rewrite (batch_next noFaults cfg year month headers n c v R t' b d j e Hdel
               eq_refl HR eq_refl eq_refl).
    pose proof (deleteReturning_shrinks _ _ _ _ _ _ Hdel HR) as Hlt.
    edestruct (IH (S n) (total + length R) t' None) as
      (total' & t1 & t2 & b' & d' & pre & ->); [cbn; lia|].
    exists total', t1, t2, b', d',
      ([Db.Connect; Db.Begin; Db.Delete (length R); Db.Commit; Db.Release] ++ pre).
    by rewrite <- !app_assoc.
Qed.

(** C5, evaluated on the code.  Every run of [processMonth] without
    faults returns, and it returns with the transaction of its last pass
    still open: the journal of the connection ends with [BEGIN], the empty
    selection and the release, with neither [COMMIT] nor [ROLLBACK]
    between them. *)
Theorem processMonth_releases_open_transaction (cfg : Config) (year month : Z)
    (w : World) :
  let out := processMonth (S (length (Db.current (session w)))) noFaults cfg
               year month w in
  isReturned out.1 = true
  /\ Db.inTransaction (session out.2) = true
  /\ (exists pre, journal out.2
                  = pre ++ [Db.Connect; Db.Begin; Db.Delete 0; Db.Release])
  /\ (forall open, Db.releasesOpen open (journal out.2) = true).
Proof.
  destruct w as [[c v] b d j e]. intros out.
  subst out. unfold processMonth, fetchTableHeaders. unfold bind at 1.
  unfold_effects. cbn [fst snd session].
  edestruct (batches_end_open (S (length (Db.current (Db.mkSession c v)))) cfg
               year month (Codec.toHeaders (catalog cfg)) 1 0 c v b d
               (((j ++ [Db.Connect]) ++ [Db.Select]) ++ [Db.Release]) e)
    as (total' & t1 & t2 & b' & d' & pre & Heq); [lia|].
  cbn in Heq |- *. rewrite Heq. cbn.
  split_and!; try done.
  - eexists. rewrite app_assoc. reflexivity.
  - intros open. rewrite app_assoc. apply releasesOpen_last_pass.
Qed.

(** The theorem at the sample table: two rows of March 2022, batches of
    two. *)
Lemma processMonth_releases_open_transaction_witness :
  Db.view (session Samples.world) = None
  /\ Db.inTransaction
       (session (processMonth 4 noFaults Samples.cfg 2022 3 Samples.world).2) = true
  /\ Db.releasesOpen false
       (journal (processMonth 4 noFaults Samples.cfg 2022 3 Samples.world).2) = true.
Proof.
  split; [reflexivity|].
  destruct (processMonth_releases_open_transaction Samples.cfg 2022 3 Samples.world)
    as (_ & H1 & _ & H2).
  split; [exact H1 | exact (H2 false)].
Defined.

End MonthLoop.

(** ** Archive Writer: what is left in the staging directory *)

Section Staging.
Import Backup.

(** C9, as the code has it.  The writer returns the path of the compressed
    file; when it has returned, the uncompressed file is gone, the
    compressed file is in the staging directory, and no other file has
    changed.  A pass of the month loop that reaches the writer ends,
    whether its upload and commit succeed or fail, with the compressed
    file still in the staging directory. *)
Theorem writer_keeps_compressed_file (rows : list (list (string * Js.Value)))
    (table : string) (year month : Z) (n : nat) (headers : list Codec.Header)
    (w : World) :
  let out := writeToCompressedFile rows table year month n headers w in
  out.1 = Returned (gzPath table year month n)
  /\ disk out.2 !! csvPath table year month n = None
  /\ disk out.2 !! gzPath table year month n = Some (Gzip (Codec.encode headers rows))
  /\ (forall path, path <> csvPath table year month n ->
                   path <> gzPath table year month n ->
                   disk out.2 !! path = disk w !! path)
  /\ (forall flt cfg,
        table = tableName cfg ->
        queryFails flt (s3Key table year month n) = false ->
        rows = map Db.toObject
                 (Db.deleteReturning (Db.current (session w)) (windowStart year month)
                    (windowEnd year month) (BATCH_SIZE cfg)).1 ->
        rows <> [] ->
        disk (batch flt cfg year month headers n w).2 !! gzPath table year month n
        = Some (Gzip (Codec.encode headers rows))
        /\ disk (batch flt cfg year month headers n w).2 !! csvPath table year month n
           = None).
Proof.
  intros out. subst out. rewrite writeToCompressedFile_returns.
  destruct w as [[c v] b d j e]. cbn [fst snd disk setDisk session].
  split_and!; [done | apply staged_csv | apply staged_gz | apply staged_other |].
  intros flt cfg -> Hq Hrows Hne.
  destruct (Db.deleteReturning (Db.current (Db.mkSession c v)) (windowStart year month)
              (windowEnd year month) (BATCH_SIZE cfg)) as [R t'] eqn:Hdel.
  cbn [fst] in Hrows. subst rows.
  assert (HR : R <> []) by (by destruct R).
  destruct (uploadFails flt (s3Key (tableName cfg) year month n)) eqn:Hu;
    [|destruct (commitFails flt (s3Key (tableName cfg) year month n)) eqn:Hc].
  - rewrite (batch_upload_fails flt cfg year month headers n c v R t' b d j e
               Hdel Hq HR Hu).
    cbn. split; [apply staged_gz | apply staged_csv].
  - rewrite (batch_commit_fails flt cfg year month headers n c v R t' b d j e
               Hdel Hq HR Hu Hc).
    cbn. split; [apply staged_gz | apply staged_csv].
  - rewrite (batch_next flt cfg year month headers n c v R t' b d j e
               Hdel Hq HR Hu Hc).
    cbn. split; [apply staged_gz | apply staged_csv].
Qed.

(** The theorem at the first batch of the sample table. *)
Lemma writer_keeps_compressed_file_witness :
  disk (batch noFaults Samples.cfg 2022 3 Samples.headers 1 Samples.world).2
    !! gzPath "events" 2022 3 1
  = Some (Gzip (Codec.encode Samples.headers
                  (map Db.toObject [Samples.row1; Samples.row2]))).
Proof.
  destruct (writer_keeps_compressed_file
              (map Db.toObject [Samples.row1; Samples.row2]) "events" 2022 3 1
              Samples.headers Samples.world) as (_ & _ & _ & _ & H).
  destruct (H noFaults Samples.cfg) as [Hgz _];
    [reflexivity | reflexivity | by vm_compute | done | exact Hgz].
Defined.

(** C9, as the specification words it, fails.  After the first batch of
    the sample table has been written, uploaded and committed, its
    compressed file is still in the staging directory. *)
Lemma compressed_file_persists :
  let out := batch noFaults Samples.cfg 2022 3 Samples.headers 1 Samples.world in
  out.1 = Returned (Next 2)
  /\ bucket out.2 !! s3Key "events" 2022 3 1 = disk out.2 !! gzPath "events" 2022 3 1
  /\ ~ (disk out.2 !! gzPath "events" 2022 3 1 = None).
Proof.
  intros out.
  assert (H1 : out.1 = Returned (Next 2)) by (by vm_compute).
  assert (H2 : disk out.2 !! gzPath "events" 2022 3 1
               = Some (Gzip (Codec.encode Samples.headers
                               (map Db.toObject [Samples.row1; Samples.row2]))))
    by (by vm_compute).
  assert (H3 : bucket out.2 !! s3Key "events" 2022 3 1
               = Some (Gzip (Codec.encode Samples.headers
                               (map Db.toObject [Samples.row1; Samples.row2]))))
    by (by vm_compute).
  clearbody out. rewrite H2, H3. split_and!; [done | done | discriminate].
Qed.

End Staging.

(** ** Row Codec: the reader on records of plain fields *)

Section PlainRecords.
Import CsvParse.

Lemma append_cons (c : ascii) (s t : string) : String c s +:+ t = String c (s +:+ t).
Proof. reflexivity. Qed.

Lemma append_nil (t : string) : EmptyString +:+ t = t.
Proof. reflexivity. Qed.

Lemma string_app_assoc (a b c : string) : (a +:+ b) +:+ c = a +:+ (b +:+ c).
Proof.
  induction a as [|x a IH]; [done|]. rewrite !append_cons. by rewrite IH.
Qed.

Lemma run_plain_field (s rest : string) :
  forall (wq : bool) (f : list ascii) (r : list string) (recs : list (list string)),
    plain s = true ->
    run (mkState false wq f r recs) (s +:+ rest)
    = run (mkState false wq (rev (list_ascii_of_string s) ++ f) r recs) rest.
Proof.
  induction s as [|c s IH]; intros wq f r recs Hs; [done|].
  rewrite append_cons. cbn in Hs. apply andb_true_iff in Hs as [Hc Hs].
  apply andb_true_iff in Hc as [Hc Hn]. apply andb_true_iff in Hc as [Hq Hd].
  apply negb_true_iff in Hq, Hd, Hn.
  simpl. rewrite Hq, Hd, Hn. cbn [quoting].
  unfold append. cbn. rewrite IH by done. by rewrite <- app_assoc.
Qed.

Lemma rev_field (s : string) :
  string_of_list_ascii (rev (rev (list_ascii_of_string s) ++ [])) = s.
Proof. by rewrite app_nil_r, rev_involutive, string_of_list_ascii_of_string. Qed.

Lemma run_comma (wq : bool) (f : list ascii) (r : list string)
    (recs : list (list string)) (rest : string) :
  run (mkState false wq f r recs) (String Text.comma rest)
  = run (mkState false false [] (string_of_list_ascii (rev f) :: r) recs) rest.
Proof. reflexivity. Qed.

Lemma run_newline (f : list ascii) (r : list string) (recs : list (list string))
    (rest : string) :
  run (mkState false false f r recs) (String Text.newline rest)
  = if bool_decide (r = []) && bool_decide (f = [])
    then run (mkState false false f r recs) rest
    else run (mkState false false [] []
                (rev (string_of_list_ascii (rev f) :: r) :: recs)) rest.
Proof. reflexivity. Qed.

Lemma run_plain_line (fs : list string) :
  forall (f : string) (r : list string) (recs : list (list string)) (rest : string),
    forallb plain (f :: fs) = true ->
    ~ (r = [] /\ fs = [] /\ f = EmptyString) ->
    run (mkState false false [] r recs)
        (Text.join "," (f :: fs) +:+ String Text.newline rest)
    = run (mkState false false [] [] ((rev r ++ f :: fs) :: recs)) rest.
Proof.
  induction fs as [|g fs IH]; intros f r recs rest Hp Hne.
  - cbn in Hp. apply andb_true_iff in Hp as [Hf _].
    change (Text.join "," [f]) with f.
    rewrite run_plain_field by done. rewrite run_newline, rev_field.
    destruct (decide (r = [])) as [->|Hr].
    + destruct f as [|c f]; [by destruct Hne|].
      rewrite (bool_decide_eq_false_2 (rev _ ++ [] = [])); [by rewrite andb_false_r|].
      cbn. intros H%(f_equal length). rewrite app_nil_r, length_app in H.
      cbn in H. lia.
    + rewrite (bool_decide_eq_false_2 (r = [])) by done. cbn [andb rev].
      done.
  - cbn [forallb] in Hp. apply andb_true_iff in Hp as [Hf Hp].
    change (Text.join "," (f :: g :: fs))
      with (f +:+ "," +:+ Text.join "," (g :: fs)).
    rewrite !string_app_assoc. rewrite run_plain_field by done.
    change ("," +:+ Text.join "," (g :: fs) +:+ String Text.newline rest)
      with (String Text.comma (Text.join "," (g :: fs) +:+ String Text.newline rest)).
    rewrite run_comma, rev_field.
    rewrite IH; [|done|by intros [? _]].
    cbn [rev]. by rewrite <- app_assoc.
Qed.

Lemma append_nil_r (s : string) : s +:+ EmptyString = s.
Proof. induction s as [|c s IH]; [done|]. by rewrite append_cons, IH. Qed.

Lemma fileText_cons (fs : list string) (lines : list (list string)) :
  fileText (fs :: lines) = lineText fs +:+ fileText lines.
Proof.
  unfold fileText. destruct lines as [|l lines]; [symmetry; apply append_nil_r|].
  reflexivity.
Qed.

(** The reader returns the lines of a file of plain records, in order and
    without an error, whatever the number of fields of each. *)
Lemma run_plain_file (lines : list (list string)) :
  forall recs : list (list string),
    forallb plainLine lines = true ->
    run (mkState false false [] [] recs) (fileText lines)
    = (rev recs ++ lines, None).
Proof.
  induction lines as [|fs lines IH]; intros recs Hl.
  - cbn. by rewrite app_nil_r.
  - cbn [forallb] in Hl. apply andb_true_iff in Hl as [Hfs Hl].
    unfold plainLine in Hfs. apply andb_true_iff in Hfs as [Hp Hne].
    rewrite fileText_cons. unfold lineText. rewrite string_app_assoc.
    unfold Text.str. rewrite append_cons, append_nil.
    destruct fs as [|f fs]; [done|].
    rewrite run_plain_line; [|done|].
    + rewrite IH by done. cbn [rev app]. by rewrite <- app_assoc.
    + intros (_ & -> & ->). done.
Qed.

Lemma parseRaw_plain_file (lines : list (list string)) :
  forallb plainLine lines = true -> parseRaw (fileText lines) = (lines, None).
Proof. intros Hl. unfold parseRaw, initial. by rewrite run_plain_file. Qed.

End PlainRecords.

(** ** Restore Pipeline: the bulk load and its transaction *)

Section RestoreLoad.
Import Restore.

Context (copy : CopyIn).


Lemma unlinkIfExists_eq (path : string) (w : World) :
  unlinkIfExists path w = (Returned tt, setDisk (delete path (disk w)) w).
Proof.
  destruct w as [s b d j e]. unfold unlinkIfExists. unfold_effects. cbn.
  destruct (d !! path) as [x|] eqn:Hd.
  - rewrite bool_decide_eq_true_2 by eauto. cbn. by rewrite Hd.
  - rewrite bool_decide_eq_false_2 by (by intros [? ?]). cbn.
    by rewrite delete_id.
Qed.

Lemma fetched_cases (delivered : nat) (key : string) (s : Db.Session)
    (b d : gmap string Blob) (j : list Db.Event) (e : list string) :
  let w := mkWorld s b d j e in
  match b !! key with
  | Some (Gzip archive) =>
      match CsvParse.parse archive with
      | (records, None) =>
          fetched delivered key w
          = (Returned tt, mkWorld s b (unpacked archive (processed records) d) j e)
      | (records, Some perr) =>
          fetched delivered key w
          = (Thrown (CsvParse.message perr),
             mkWorld s b (unpacked archive (processed (take delivered records)) d) j e)
      end
  | Some (Plain _) =>
      fetched delivered key w = (Thrown "incorrect header check", w)
  | None => fetched delivered key w = (Thrown "NoSuchKey", w)
  end.
Proof.
  intros w. subst w. unfold fetched, getObject, preprocessCsvFile, unpacked.
  unfold_effects. cbn.
  destruct (b !! key) as [[text|archive]|]; cbn; [done| |done].
  rewrite lookup_insert_eq. cbn.
  by destruct (CsvParse.parse archive) as [records [perr|]]; cbn.
Qed.

(** The driver in terms of its steps: a thrown error is logged and the
    driver returns; the staging files are removed unless the load step
    stays pending. *)
Lemma downloadAndRestoreS3File_eq (delivered : nat) (key table : string) (w : World) :
  downloadAndRestoreS3File copy delivered key table w
  = match (fetched delivered key ;;; restoreCsvToTable copy table processedFilePath) w with
    | (Returned _, w1) => (Returned tt, setDisk (cleaned (disk w1)) w1)
    | (Thrown _, w1) =>
        (Returned tt,
         mkWorld (session w1) (bucket w1) (cleaned (disk w1)) (journal w1)
           (errors w1 ++ ["Error during download and restore process:"]))
    | (Pending, w1) => (Pending, w1)
    end.
Proof.
  unfold downloadAndRestoreS3File, fetched, tryFinally, tryCatch, cleaned.
  set (body := bind (getObject key) _).
  set (body' := bind (bind (getObject key) _) _).
  assert (Hb : body w = body' w).
  { subst body body'. unfold bind. destruct (getObject key w) as [[data| |] w1]; [|done..].
    destruct (gunzipSync data w1) as [[text| |] w2]; [|done..].
    destruct (writeFileSync localFilePath (Plain text) w2) as [[[]| |] w3]; [|done..].
    by destruct (preprocessCsvFile delivered localFilePath processedFilePath w3)
      as [[[]| |] w4]. }
  rewrite Hb. destruct (body' w) as [[[]|err|] w1]; [| |done].
  - unfold bind. rewrite !unlinkIfExists_eq. by destruct w1.
  - unfold consoleError, modify. unfold bind. rewrite !unlinkIfExists_eq. done.
Qed.


End RestoreLoad.

Section RestoreRuns.
Import Restore.






(** A record with too few or too many fields is kept, not skipped: the
    sample archive with a short and a long record decodes to a line for
    each. *)
Lemma ragged_records_are_kept :
  CsvParse.parse RestoreSamples.raggedArchive
  = ([[("ID"%string, Js.VStr "1")];
      [("ID"%string, Js.VStr "2"); ("NAME"%string, Js.VStr "beta")]], None)
  /\ decode RestoreSamples.raggedArchive
     = "ID" +:+ Text.str Text.newline +:+ "1" +:+ Text.str Text.newline
         +:+ "2" +:+ Text.str Text.newline.
Proof. split; by vm_compute. Qed.

End RestoreRuns.

(** ** Row Codec: serialisation and the rows it is given *)

Section Serialisation.
Import Codec.

Lemma serializeKey_other (l l' : nat) (h : gmap nat (list (string * Js.Value)))
    (key : string) :
  l' <> l -> serializeKey l h key !! l' = h !! l'.
Proof.
  intros Hne. unfold serializeKey, assign.
  destruct (h !! l) as [obj|]; [|done].
  destruct (Js.get key obj) as [v|]; [|done].
  destruct (Js.truthyObject v); [|done].
  by rewrite lookup_alter_ne.
Qed.

Lemma serializeKeys_other (l l' : nat) (keys : list string) :
  forall h : gmap nat (list (string * Js.Value)),
    l' <> l -> foldl (serializeKey l) h keys !! l' = h !! l'.
Proof.
  induction keys as [|key keys IH]; intros h Hne; [done|].
  cbn. rewrite IH by done. by apply serializeKey_other.
Qed.

Lemma serializeKeys_dom (l : nat) (keys : list string) :
  forall h : gmap nat (list (string * Js.Value)),
    dom (foldl (serializeKey l) h keys) = dom h.
Proof.
  induction keys as [|key keys IH]; intros h; [done|].
  cbn. rewrite IH. unfold serializeKey, assign.
  destruct (h !! l) as [obj|]; [|done].
  destruct (Js.get key obj) as [v|]; [|done].
  destruct (Js.truthyObject v); [|done].
  apply set_eq. intros x. rewrite !elem_of_dom.
  destruct (decide (x = l)) as [->|Hne].
  - rewrite lookup_alter_eq. apply fmap_is_Some.
  - by rewrite lookup_alter_ne.
Qed.

Lemma serializeRowIn_fresh (row : nat) (h : gmap nat (list (string * Js.Value))) :
  (serializeRowIn row h).1 ∉ dom h.
Proof. unfold serializeRowIn. cbn. apply is_fresh. Qed.

Lemma serializeRowIn_keeps (row : nat) (h : gmap nat (list (string * Js.Value)))
    (l : nat) (obj : list (string * Js.Value)) :
  h !! l = Some obj -> (serializeRowIn row h).2 !! l = Some obj.
Proof.
  intros Hl. unfold serializeRowIn. cbn [snd].
  assert (Hne : l <> fresh (dom h)).
  { intros ->. apply (is_fresh (dom h)). apply elem_of_dom. eauto. }
  rewrite serializeKeys_other by done. by rewrite lookup_insert_ne.
Qed.

Lemma serializeRowIn_dom (row : nat) (h : gmap nat (list (string * Js.Value))) :
  dom (serializeRowIn row h).2 = {[ (serializeRowIn row h).1 ]} ∪ dom h.
Proof.
  unfold serializeRowIn. cbn [fst snd]. rewrite serializeKeys_dom.
  apply dom_insert_L.
Qed.

(** C10. Serialisation does not change the rows it is given.  The loop
    works on new objects: every reference it returns is a reference the
    heap did not hold before, there is one for each row, and every object
    the heap held before the call, the rows among them, is the same after
    it, so each column of each row still has its value. *)
Theorem serialization_keeps_rows (rows : list nat)
    (h : gmap nat (list (string * Js.Value))) :
  let out := serializeRowsIn rows h in
  length out.1 = length rows
  /\ (forall l, l ∈ out.1 -> l ∉ dom h)
  /\ (forall l obj, h !! l = Some obj -> out.2 !! l = Some obj)
  /\ (forall row obj key,
        row ∈ rows -> h !! row = Some obj ->
        (out.2 !! row) ≫= Js.get key = Js.get key obj).
Proof.
  intros out. subst out.
  assert (H : length (serializeRowsIn rows h).1 = length rows
              /\ (forall l, l ∈ (serializeRowsIn rows h).1 -> l ∉ dom h)
              /\ (forall l obj, h !! l = Some obj ->
                                (serializeRowsIn rows h).2 !! l = Some obj)).
  { revert h. induction rows as [|row rows IH]; intros h.
    - cbn. split_and!; [done | by intros l ?%elem_of_nil | done].
    - cbn [serializeRowsIn].
      pose proof (serializeRowIn_fresh row h) as Hfresh.
      pose proof (serializeRowIn_keeps row h) as Hkeep.
      pose proof (serializeRowIn_dom row h) as Hdom.
      destruct (serializeRowIn row h) as [newRow h1]. cbn [fst snd] in *.
      destruct (IH h1) as (Hlen & Hnew & Hold).
      destruct (serializeRowsIn rows h1) as [out h2]. cbn [fst snd] in *.
      split_and!.
      + cbn. by rewrite Hlen.
      + intros l [->|Hl]%elem_of_cons; [done|].
        intros Hin. apply (Hnew l Hl). rewrite Hdom. by apply elem_of_union_r.
      + intros l obj Hl. by apply Hold, Hkeep. }
  destruct H as (Hlen & Hnew & Hold). split_and!; try done.
  intros row obj key _ Hrow. by rewrite (Hold row obj Hrow).
Qed.

Lemma get_app_fresh (key : string) (a b : list (string * Js.Value)) :
  key ∉ Js.keys a -> Js.get key (a ++ b) = Js.get key b.
Proof.
  induction a as [|[k v] a IH]; intros Hk; [done|].
  cbn in *. apply not_elem_of_cons in Hk as [Hne Hk].
  destruct (String.eqb k key) eqn:E; [by apply String.eqb_eq in E|]. by apply IH.
Qed.

Lemma set_app_fresh (key : string) (x : Js.Value) (a b : list (string * Js.Value)) :
  key ∉ Js.keys a -> Js.set key x (a ++ b) = a ++ Js.set key x b.
Proof.
  induction a as [|[k v] a IH]; intros Hk; [done|].
  cbn in *. apply not_elem_of_cons in Hk as [Hne Hk].
  destruct (String.eqb k key) eqn:E; [by apply String.eqb_eq in E|].
  by rewrite IH.
Qed.

Lemma keys_serializeRow (obj : list (string * Js.Value)) :
  Js.keys (serializeRow obj) = Js.keys obj.
Proof. unfold Js.keys, serializeRow. induction obj as [|[k v] obj IH]; cbn; congruence. Qed.

Lemma serializeRow_app (a b : list (string * Js.Value)) :
  serializeRow (a ++ b) = serializeRow a ++ serializeRow b.
Proof. unfold serializeRow. apply map_app. Qed.

Lemma serializeValue_primitive (v : Js.Value) :
  Js.truthyObject v = false -> serializeValue v = v.
Proof. unfold serializeValue. by intros ->. Qed.

(** The values of a serialised row are primitive: the writer never meets
    a date, an array or an object. *)
Lemma serialized_primitive (obj : list (string * Js.Value)) (key : string)
    (v : Js.Value) :
  (key, v) ∈ serializeRow obj -> Js.isPrimitive v = true.
Proof.
  unfold serializeRow. intros ([k x] & [= -> ->] & _)%list_elem_of_fmap.
  cbn. unfold serializeValue. destruct (Js.truthyObject x) eqn:E.
  - by destruct x.
  - unfold Js.isPrimitive. by rewrite E.
Qed.

Lemma serializeKeys_copy (l : nat) (suf : list (string * Js.Value)) :
  forall (done : list (string * Js.Value)) (h : gmap nat (list (string * Js.Value))),
    h !! l = Some (serializeRow done ++ suf) ->
    NoDup (Js.keys (done ++ suf)) ->
    foldl (serializeKey l) h (Js.keys suf) !! l = Some (serializeRow (done ++ suf)).
Proof.
  induction suf as [|[k v] suf IH]; intros done h Hl Hnd.
  - cbn. by rewrite app_nil_r in *.
  - cbn [Js.keys fmap list_fmap fst foldl].
    assert (Hk : k ∉ Js.keys (serializeRow done)).
    { rewrite keys_serializeRow. unfold Js.keys in *. rewrite fmap_app in Hnd.
      apply NoDup_app in Hnd as (_ & Hdisj & _). intros Hin.
      apply (Hdisj k Hin). cbn. left. }
    replace (done ++ (k, v) :: suf) with ((done ++ [(k, v)]) ++ suf) in *
      by (by rewrite <- app_assoc).
    apply IH; [|done].
    unfold serializeKey. rewrite Hl, get_app_fresh by done. cbn.
    rewrite String.eqb_refl.
    rewrite serializeRow_app. cbn. rewrite <- app_assoc. cbn.
    destruct (Js.truthyObject v) eqn:E.
    + unfold assign. rewrite lookup_alter_eq, Hl. cbn.
      rewrite set_app_fresh by done. cbn. by rewrite String.eqb_refl.
    + by rewrite Hl, serializeValue_primitive.
Qed.

(** The object the loop returns for a row holds the serialised values of
    that row: the heap-level loop computes [serializeRow]. *)
Lemma serializeRowIn_copy (row : nat) (h : gmap nat (list (string * Js.Value)))
    (obj : list (string * Js.Value)) :
  h !! row = Some obj -> NoDup (Js.keys obj) ->
  (serializeRowIn row h).2 !! (serializeRowIn row h).1 = Some (serializeRow obj).
Proof.
  intros Hrow Hnd. unfold serializeRowIn. cbn [fst snd].
  rewrite Hrow, lookup_insert_eq. cbn [default].
  apply (serializeKeys_copy _ obj []); [|done].
  by rewrite lookup_insert_eq.
Qed.

End Serialisation.

(** ** Row Codec: the round trip through an archive *)

Section RoundTrip.
Import CodecSamples.

(** C2, evaluated on the code.  A row whose text holds the delimiter comes
    back from the archive with that text split in two fields; a row whose
    text holds quotes gives a canonical file that cannot be read back;
    two rows that differ only in where a delimiter falls decode to the
    same canonical file.  A row of NULL, number, plain text, timestamp and
    nested values does come back field for field from the canonical file,
    because the unquoted re-join undoes the extra quoting the backup puts
    around a nested value: in the record the reader hands to the decode
    loop, that value is still wrapped in quotes, with its own quotes
    doubled. *)
Theorem delimiter_text_not_restored :
  roundTrip columns rowComma = ([["7"; "a"; "b"]], None)
  /\ Expected.rowFields columns rowComma = ["7"; "a,b"]
  /\ roundTrip columns rowQuote = ([], Some CsvParse.InvalidOpeningQuote)
  /\ Restore.decode (Codec.encode (Codec.toHeaders columns) [rowLeft])
     = Restore.decode (Codec.encode (Codec.toHeaders columns) [rowRight])
  /\ Expected.rowFields columns rowLeft <> Expected.rowFields columns rowRight
  /\ roundTrip richColumns rowRich = ([Expected.rowFields richColumns rowRich], None)
  /\ (forall record,
        (CsvParse.parse (Codec.encode (Codec.toHeaders richColumns) [rowRich])).1
        = [record] ->
        Js.get "META" record
        = Some (Js.VStr (quoted (Text.doubleQuotes
                                   (Expected.fieldText (Js.get "meta" rowRich)))))
        /\ Js.get "META" record
           <> Some (Js.VStr (Expected.fieldText (Js.get "meta" rowRich)))).
Proof.
  split_and!; try by vm_compute.
  intros record Hrecord. vm_compute in Hrecord. injection Hrecord as <-.
  split; by vm_compute.
Qed.

End RoundTrip.

(** ** Archive Writer: the check before compression, on the writer's output *)

Section GateOnWriter.
Import Backup.

(** C8, evaluated on the code.  The check raises exactly on a text with no
    newline in it.  Every text the writer produces ends with a newline, so
    the check lets through a batch with data rows, and it also lets
    through the file of a batch with no row at all, which holds the header
    line and no data row: for such a batch the writer does not raise, and
    it returns the path of the compressed file. *)
Theorem header_only_file_passes_check :
  (forall s, Codec.validationGate s = true <-> 1 <= Text.occurrences Text.newline s)
  /\ (forall headers rows, Codec.validationGate (Codec.encode headers rows) = true)
  /\ Codec.encode Samples.headers []
     = CodecSamples.quoted "ID" +:+ "," +:+ CodecSamples.quoted "CREATED_AT" +:+ ","
         +:+ CodecSamples.quoted "NAME" +:+ Text.str Text.newline
         +:+ Text.str Text.newline
  /\ Codec.validationGate (Codec.encode Samples.headers []) = true
  /\ Codec.validationGate (CodecSamples.quoted "ID" +:+ Text.str Text.newline) = true
  /\ (writeToCompressedFile [] "events" 2022 3 1 Samples.headers Samples.world).1
     = Returned (gzPath "events" 2022 3 1).
Proof.
  split_and!.
  - apply validationGate_newline.
  - intros headers rows. apply validationGate_writeRecords.
  - by vm_compute.
  - by vm_compute.
  - by vm_compute.
  - by rewrite writeToCompressedFile_returns.
Qed.

End GateOnWriter.

(** ** Archive Pipeline: the months of a date range *)

Section Months.
Import Backup.

(** C6, evaluated on the code.  From 15 March to 10 April 2022 the loop
    visits March only: 5 April lies in the range and in no window.  From
    31 January to 30 April 2022 the step from 31 January lands in March:
    15 February lies in the range and in no window.  With the dates of the
    configuration section, 1 March to 31 December 2022, the ten months are
    all visited. *)
Theorem month_loop_leaves_dates_uncovered :
  months (JsDate.ofIsoDay 2022 3 15) (JsDate.ofIsoDay 2022 4 10) = Some [(2022, 3)]%Z
  /\ inRange (JsDate.ofIsoDay 2022 3 15) (JsDate.ofIsoDay 2022 4 10)
             (JsDate.ofIsoDay 2022 4 5) = true
  /\ windowsCovering (JsDate.ofIsoDay 2022 4 5) [(2022, 3)]%Z = 0
  /\ months (JsDate.ofIsoDay 2022 1 31) (JsDate.ofIsoDay 2022 4 30)
     = Some [(2022, 1); (2022, 3); (2022, 4)]%Z
  /\ inRange (JsDate.ofIsoDay 2022 1 31) (JsDate.ofIsoDay 2022 4 30)
             (JsDate.ofIsoDay 2022 2 15) = true
  /\ windowsCovering (JsDate.ofIsoDay 2022 2 15) [(2022, 1); (2022, 3); (2022, 4)]%Z = 0
  /\ months (JsDate.ofIsoDay 2022 3 1) (JsDate.ofIsoDay 2022 12 31)
     = Some [(2022, 3); (2022, 4); (2022, 5); (2022, 6); (2022, 7); (2022, 8);
             (2022, 9); (2022, 10); (2022, 11); (2022, 12)]%Z.
Proof. split_and!; by vm_compute. Qed.

End Months.

(** ** Archive Pipeline: the months of a range that starts on the first day
    of a month *)

Section MonthsFromFirstDay.
Import Backup.
Local Open Scope Z_scope.

Lemma daysInMonth_min (y m0 : Z) : 28 <= JsDate.daysInMonth y m0.
Proof.
  unfold JsDate.daysInMonth.
  repeat match goal with |- context [if ?b then _ else _] => destruct b end; lia.
Qed.

Lemma monthOfIndex_index (i : Z) :
  (monthOfIndex i).1 * 12 + ((monthOfIndex i).2 - 1) = i.
Proof. unfold monthOfIndex. cbn. pose proof (Z.div_mod i 12). lia. Qed.

(** Stepping a first day of a month gives the first day of the next. *)
Lemma setMonth_first (i : Z) :
  JsDate.setMonth (firstOfMonth (monthOfIndex i).1 (monthOfIndex i).2)
                  (JsDate.month0 (firstOfMonth (monthOfIndex i).1 (monthOfIndex i).2) + 1)
  = firstOfMonth (monthOfIndex (i + 1)).1 (monthOfIndex (i + 1)).2.
Proof.
  unfold JsDate.setMonth, JsDate.normalise, firstOfMonth, monthOfIndex.
  cbn [fst snd JsDate.fullYear JsDate.month0 JsDate.date JsDate.hours JsDate.minutes
       JsDate.seconds JsDate.millis].
  replace (i mod 12 + 1 - 1 + 1) with (i mod 12 + 1) by lia.
  set (y' := i / 12 + (i mod 12 + 1) / 12).
  set (m' := (i mod 12 + 1) mod 12).
  pose proof (daysInMonth_min y' m') as Hd.
  destruct (1 <=? JsDate.daysInMonth y' m') eqn:E; [|apply Z.leb_gt in E; lia].
  assert (Hy : y' = (i + 1) / 12 /\ m' = (i + 1) mod 12).
  { subst y' m'. pose proof (Z.mod_pos_bound i 12 ltac:(lia)) as Hm.
    pose proof (Z.div_mod i 12 ltac:(lia)) as Hi.
    destruct (decide (i mod 12 = 11)) as [H11|H11].
    - rewrite H11. change ((11 + 1) / 12) with 1. change ((11 + 1) mod 12) with 0.
      assert (Hi1 : i + 1 = 12 * (i / 12 + 1) + 0) by lia.
      split.
      + apply (Z.div_unique (i + 1) 12 (i / 12 + 1) 0); lia.
      + apply (Z.mod_unique (i + 1) 12 (i / 12 + 1) 0); lia.
    - rewrite (Z.div_small (i mod 12 + 1) 12) by lia.
      rewrite (Z.mod_small (i mod 12 + 1) 12) by lia.
      rewrite Z.add_0_r. split.
      + apply (Z.div_unique (i + 1) 12 (i / 12) (i mod 12 + 1)); lia.
      + apply (Z.mod_unique (i + 1) 12 (i / 12) (i mod 12 + 1)); lia. }
  destruct Hy as [-> ->]. f_equal. lia.
Qed.

(** A first day of a month is not after a day exactly when its month is
    not after the month of that day. *)
Lemma leb_first (i : Z) (e : JsDate.Date) :
  wellFormed e ->
  JsDate.leb (firstOfMonth (monthOfIndex i).1 (monthOfIndex i).2) e
  = (i <=? monthIndex e).
Proof.
  intros (Hm & Hd & Hh & Hmi & Hs & Hms).
  unfold JsDate.leb, JsDate.key, firstOfMonth, monthIndex.
  cbn [JsDate.fullYear JsDate.month0 JsDate.date JsDate.hours JsDate.minutes
       JsDate.seconds JsDate.millis].
  pose proof (monthOfIndex_index i) as Hi.
  set (a := (monthOfIndex i).1) in *. set (b := (monthOfIndex i).2) in *.
  replace (a * 12 + (b - 1)) with i by lia.
  destruct (i <=? JsDate.fullYear e * 12 + JsDate.month0 e) eqn:E.
  - apply Z.leb_le in E. apply Z.leb_le. nia.
  - apply Z.leb_gt in E. apply Z.leb_gt. nia.
Qed.

Lemma monthRange_cons (i : Z) (n : nat) :
  monthRange i (S n) = monthOfIndex i :: monthRange (i + 1) n.
Proof.
  unfold monthRange. rewrite seqZ_cons by lia. cbn [map].
  do 3 f_equal; lia.
Qed.

(** From the first day of a month the loop visits the months in a row, up
    to the month of the end date, and it ends. *)
Lemma visit_from_first (e : JsDate.Date) :
  wellFormed e ->
  forall (n fuel : nat) (i : Z),
    monthIndex e - i + 1 = Z.of_nat n -> (n < fuel)%nat ->
    visit fuel (firstOfMonth (monthOfIndex i).1 (monthOfIndex i).2) e
    = Some (monthRange i n).
Proof.
  intros He. induction n as [|n IH]; intros fuel i Hn Hfuel.
  - assert (Hleb : JsDate.leb (firstOfMonth (monthOfIndex i).1 (monthOfIndex i).2) e
                   = false).
    { rewrite leb_first by done. apply Z.leb_gt. lia. }
    destruct fuel; cbn [visit]; by rewrite Hleb.
  - destruct fuel as [|fuel]; [lia|]. cbn [visit].
    rewrite leb_first by done.
    rewrite (proj2 (Z.leb_le i (monthIndex e))) by lia.
    rewrite setMonth_first, (IH fuel (i + 1)) by lia.
    rewrite monthRange_cons. cbn [fmap option_fmap option_map]. do 2 f_equal.
    unfold firstOfMonth, monthOfIndex. cbn. f_equal. lia.
Qed.

Lemma monthOfIndex_ofIsoDay (y m : Z) :
  1 <= m <= 12 -> monthOfIndex (monthIndex (JsDate.ofIsoDay y m 1)) = (y, m).
Proof.
  intros Hm. unfold monthOfIndex, monthIndex, JsDate.ofIsoDay. cbn.
  rewrite <- (Z.div_unique (y * 12 + (m - 1)) 12 y (m - 1)) by lia.
  rewrite <- (Z.mod_unique (y * 12 + (m - 1)) 12 y (m - 1)) by lia.
  f_equal. lia.
Qed.

Lemma nextMonth_index (y m : Z) :
  100 <= y -> 1 <= m <= 12 -> monthIndex (nextMonth y m) = y * 12 + m.
Proof.
  intros Hy Hm. unfold nextMonth, JsDate.ofFields, JsDate.normalise.
  destruct ((0 <=? y) && (y <=? 99)) eqn:E.
  { apply andb_true_iff in E as [_ E]. apply Z.leb_le in E. lia. }
  pose proof (daysInMonth_min (y + m / 12) (m mod 12)) as Hdim.
  destruct (1 <=? JsDate.daysInMonth (y + m / 12) (m mod 12)) eqn:E1;
    [|apply Z.leb_gt in E1; lia].
  unfold monthIndex. cbn. pose proof (Z.div_mod m 12 ltac:(lia)). lia.
Qed.

(** A date lies in the window of a month exactly when it is a date of
    that month. *)
Lemma covers_monthOfIndex (d : JsDate.Date) (i : Z) :
  wellFormed d -> 1200 <= i ->
  covers d (monthOfIndex i) = bool_decide (monthIndex d = i).
Proof.
  intros (Hm & Hd & Hh & Hmi & Hs & Hms) Hi.
  pose proof (Z.mod_pos_bound i 12 ltac:(lia)) as Hmod.
  pose proof (Z.div_mod i 12 ltac:(lia)) as Hdiv.
  assert (Hy : 100 <= i / 12) by (apply Z.div_le_lower_bound; lia).
  pose proof (nextMonth_index (i / 12) (i mod 12 + 1) Hy ltac:(lia)) as Hnext.
  unfold covers, windowStart, windowEnd, monthOfIndex. cbn [fst snd].
  set (nm := nextMonth (i / 12) (i mod 12 + 1)) in *.
  unfold monthIndex in Hnext.
  unfold firstOfMonth, JsDate.key, monthIndex.
  cbn [JsDate.fullYear JsDate.month0 JsDate.date JsDate.hours JsDate.minutes
       JsDate.seconds JsDate.millis].
  replace (i / 12 * 12 + (i mod 12 + 1 - 1)) with i by lia.
  replace (JsDate.fullYear nm * 12 + (JsDate.month0 nm + 1 - 1)) with (i + 1) by lia.
  case_bool_decide as Hidx.
  - apply andb_true_iff. split; [apply Z.leb_le | apply Z.ltb_lt]; nia.
  - apply andb_false_iff.
    destruct (decide (JsDate.fullYear d * 12 + JsDate.month0 d < i)).
    + left. apply Z.leb_gt. nia.
    + right. apply Z.ltb_ge. nia.
Qed.

Lemma windowsCovering_monthRange (d : JsDate.Date) (n : nat) :
  wellFormed d ->
  forall i, 1200 <= i ->
    windowsCovering d (monthRange i n)
    = if bool_decide (i <= monthIndex d < i + Z.of_nat n) then 1%nat else 0%nat.
Proof.
  intros Hd. induction n as [|n IH]; intros i Hi.
  - cbn. by rewrite bool_decide_eq_false_2 by lia.
  - rewrite monthRange_cons. unfold windowsCovering in *.
    rewrite filter_cons. rewrite (covers_monthOfIndex d i Hd Hi).
    specialize (IH (i + 1) ltac:(lia)).
    destruct (decide (monthIndex d = i)) as [Heq|Hne].
  + rewrite (bool_decide_eq_true_2 _ Heq), decide_True by done.
    cbn [length]. rewrite IH.
    rewrite (bool_decide_eq_false_2 (i + 1 <= _ < _)) by lia.
    by rewrite bool_decide_eq_true_2 by lia.
  + rewrite (bool_decide_eq_false_2 _ Hne), decide_False by done. rewrite IH.
    repeat case_bool_decide; try done; lia.
Qed.

Lemma key_bounds (d : JsDate.Date) :
  wellFormed d ->
  monthIndex d * 2678400000 <= JsDate.key d < (monthIndex d + 1) * 2678400000.
Proof.
  intros (Hm & Hd & Hh & Hmi & Hs & Hms). unfold JsDate.key, monthIndex. lia.
Qed.

(** When [START_DATE] is the first day of a month (of a year from 100 on),
    the loop visits the months from that month to the month of [END_DATE]
    in a row, and ends; a date lies in exactly one of their windows when
    its month is one of them, and in none otherwise; so every date from
    [START_DATE] to [END_DATE] lies in exactly one window. *)
Theorem months_from_first_day (ys ms : Z) (e : JsDate.Date) :
  100 <= ys -> 1 <= ms <= 12 -> wellFormed e ->
  let s := JsDate.ofIsoDay ys ms 1 in
  let n := Z.to_nat (monthIndex e - monthIndex s + 1) in
  months s e = Some (monthRange (monthIndex s) n)
  /\ forall d, wellFormed d ->
       windowsCovering d (monthRange (monthIndex s) n)
       = (if bool_decide (monthIndex s <= monthIndex d <= monthIndex e)
          then 1%nat else 0%nat)
       /\ (inRange s e d = true ->
           windowsCovering d (monthRange (monthIndex s) n) = 1%nat).
Proof.
  intros Hys Hms He s n.
  assert (Hs : s = firstOfMonth (monthOfIndex (monthIndex s)).1
                                (monthOfIndex (monthIndex s)).2).
  { subst s. by rewrite monthOfIndex_ofIsoDay. }
  assert (Hidx : 1200 <= monthIndex s).
  { subst s. unfold monthIndex, JsDate.ofIsoDay. cbn. lia. }
  assert (Hws : wellFormed s).
  { subst s. unfold wellFormed, JsDate.ofIsoDay. cbn. lia. }
  split.
  - unfold months. rewrite Hs at 2.
    destruct (decide (monthIndex s <= monthIndex e)) as [Hle|Hgt].
    + apply visit_from_first; [done| |].
      * subst n. lia.
      * subst n. unfold monthsBetween, monthIndex in *. lia.
    + assert (Hn : n = 0%nat) by (subst n; lia). rewrite Hn.
      destruct (monthsBetween s e) as [|fuel] eqn:Hfuel; cbn [visit];
        rewrite leb_first by done;
        by rewrite (proj2 (Z.leb_gt _ _)) by lia.
  - intros d Hd.
    assert (Hcount : windowsCovering d (monthRange (monthIndex s) n)
                     = (if bool_decide (monthIndex s <= monthIndex d <= monthIndex e)
                        then 1%nat else 0%nat)).
    { rewrite windowsCovering_monthRange by done.
      repeat case_bool_decide; try done; subst n; lia. }
    split; [exact Hcount|].
    intros Hin. rewrite Hcount. rewrite bool_decide_eq_true_2; [done|].
    unfold inRange, JsDate.leb in Hin. apply andb_true_iff in Hin as [H1 H2].
    apply Z.leb_le in H1, H2.
    pose proof (key_bounds s Hws). pose proof (key_bounds d Hd).
    pose proof (key_bounds e He). lia.
Qed.

(** The theorem at the dates of the configuration section. *)
Lemma months_from_first_day_witness :
  wellFormed (JsDate.ofIsoDay 2022 12 31)
  /\ months (JsDate.ofIsoDay 2022 3 1) (JsDate.ofIsoDay 2022 12 31)
     = Some (monthRange 24266 10).
Proof.
  assert (He : wellFormed (JsDate.ofIsoDay 2022 12 31)).
  { unfold wellFormed. cbn. lia. }
  split; [exact He|].
  destruct (months_from_first_day 2022 3 (JsDate.ofIsoDay 2022 12 31)
              ltac:(lia) ltac:(lia) He) as [H _].
  exact H.
Defined.

End MonthsFromFirstDay.

(** * Further properties of the code *)

(** ** Object keys and staging paths *)

Section Keys.
Import Backup.

Lemma append_inv_head (a x y : string) : a +:+ x = a +:+ y -> x = y.
Proof.
  induction a as [|c a IH]; [done|]. rewrite !append_cons. intros [= H]. by apply IH.
Qed.

Lemma list_ascii_of_string_app (a b : string) :
  list_ascii_of_string (a +:+ b) = list_ascii_of_string a ++ list_ascii_of_string b.
Proof. induction a as [|c a IH]; [done|]. rewrite append_cons. cbn. by rewrite IH. Qed.

Lemma append_inv_tail (a b s : string) : a +:+ s = b +:+ s -> a = b.
Proof.
  intros H%(f_equal list_ascii_of_string).
  rewrite !list_ascii_of_string_app in H. apply app_inv_tail in H.
  apply (f_equal string_of_list_ascii) in H.
  by rewrite !string_of_list_ascii_of_string in H.
Qed.

(** Two batches of a month have two keys. *)
Lemma s3Key_inj (table : string) (year month : Z) (n n' : nat) :
  s3Key table year month n = s3Key table year month n' -> n = n'.
Proof.
  unfold s3Key. intros H.
  repeat apply append_inv_head in H.
  apply append_inv_tail in H. by apply pretty_nat_inj in H.
Qed.

Lemma csvPath_inj (table : string) (year month : Z) (n n' : nat) :
  csvPath table year month n = csvPath table year month n' -> n = n'.
Proof.
  unfold csvPath. intros H.
  repeat apply append_inv_head in H.
  apply append_inv_tail in H. by apply pretty_nat_inj in H.
Qed.










End Keys.

(** ** Archive Pipeline: a month processed to exhaustion *)

Section Exhaustion.
Import Backup Counting.

Lemma fmap_key_eq {A B} (f : A -> B) (l : list A) (x y : A) :
  NoDup (f <$> l) -> x ∈ l -> y ∈ l -> f x = f y -> x = y.
Proof.
  induction l as [|a l IH]; intros Hnd Hx Hy Hf; [by apply elem_of_nil in Hx|].
  cbn in Hnd. apply NoDup_cons in Hnd as [Ha Hnd].
  apply elem_of_cons in Hx as [->|Hx]; apply elem_of_cons in Hy as [->|Hy]; try done.
  - exfalso. apply Ha. rewrite Hf. by apply list_elem_of_fmap_2.
  - exfalso. apply Ha. rewrite <- Hf. by apply list_elem_of_fmap_2.
  - by apply IH.
Qed.

Lemma filter_ext_in {A} (P Q : A -> Prop) `{!forall x, Decision (P x)}
    `{!forall x, Decision (Q x)} (l : list A) :
  (forall x, x ∈ l -> P x <-> Q x) -> filter P l = filter Q l.
Proof.
  induction l as [|a l IH]; intros Hall; [done|].
  assert (Hl : filter P l = filter Q l).
  { apply IH. intros x Hx. apply Hall. by right. }
  destruct (decide (P a)) as [Ha|Ha].
  - rewrite !filter_cons_True; [by f_equal|by apply Hall; [left|]|done].
  - rewrite !filter_cons_False; [done| |done].
    intros Hq. apply Ha, Hall; [left|done].
Qed.

Lemma returned_length (t : list Db.Row) lo hi limit :
  NoDup (Db.id <$> t) ->
  length (Db.deleteReturning t lo hi limit).1 = limit `min` Db.countWindow t lo hi.
Proof.
  intros Hnd. rewrite (returned_chosen t lo hi limit Hnd).
  unfold Db.chosen, Db.countWindow.
  by rewrite length_take, (Permutation_length (merge_sort_Permutation _ _)).
Qed.

Lemma countWindow_zero (t : list Db.Row) lo hi :
  Db.countWindow t lo hi = 0 -> outside lo hi t = t.
Proof.
  unfold Db.countWindow, outside. intros H%nil_length_inv.
  apply filter_all. intros x Hx.
  destruct (Db.inWindow lo hi x) eqn:E; [|done].
  by destruct (filter_nil_not_elem_of _ _ x H E).
Qed.

(** An empty selection from a table keyed by [id], with a limit of one row
    at least: the window is empty and the statement changes nothing. *)
Lemma selection_empty (t t' : list Db.Row) lo hi limit :
  NoDup (Db.id <$> t) -> 1 <= limit ->
  Db.deleteReturning t lo hi limit = ([], t') ->
  Db.countWindow t lo hi = 0 /\ t' = t.
Proof.
  intros Hnd Hlim Hdel.
  pose proof (returned_length t lo hi limit Hnd) as Hlen.
  pose proof (returned_chosen t lo hi limit Hnd) as Hch.
  rewrite Hdel in Hlen, Hch. cbn in Hlen, Hch.
  split; [lia|].
  symmetry in Hch. apply Permutation_nil_r in Hch.
  unfold Db.deleteReturning, Db.cte in Hdel. rewrite Hch in Hdel.
  injection Hdel as _ <-. apply filter_all. intros x _. apply not_elem_of_nil.
Qed.

(** A selection from a table keyed by [id] leaves a table keyed by [id],
    with the rows outside the window as they were and the window shorter
    by the rows returned. *)
Lemma selection_step (t R t' : list Db.Row) lo hi limit :
  NoDup (Db.id <$> t) ->
  Db.deleteReturning t lo hi limit = (R, t') ->
  NoDup (Db.id <$> t')
  /\ length R = limit `min` Db.countWindow t lo hi
  /\ Db.countWindow t' lo hi = Db.countWindow t lo hi - length R
  /\ outside lo hi t' = outside lo hi t.
Proof.
  intros Hnd Hdel.
  pose proof (returned_length t lo hi limit Hnd) as Hlen.
  pose proof (returned_chosen t lo hi limit Hnd) as Hch.
  pose proof (returned_remaining t lo hi limit) as Hsplit.
  rewrite Hdel in Hlen, Hch, Hsplit. cbn [fst snd] in Hlen, Hch, Hsplit.
  assert (Ht' : t' = filter (fun r => Db.id r ∉ Db.cte t lo hi limit) t).
  { unfold Db.deleteReturning in Hdel. by injection Hdel as _ <-. }
  split_and!.
  - apply (sublist_NoDup _ (Db.id <$> t)); [done|].
    rewrite Ht'. apply fmap_sublist, sublist_filter.
  - done.
  - unfold Db.countWindow at 2. rewrite Hsplit, filter_app, length_app.
    rewrite (filter_all _ R).
    + unfold Db.countWindow. lia.
    + intros x Hx. rewrite Hch in Hx. by eapply chosen_inWindow.
  - unfold outside. rewrite Ht', list_filter_filter.
    apply filter_ext_in. intros x Hxt. split; [by intros [? _]|].
    intros Hout. split; [done|].
    intros Hin. unfold Db.cte in Hin.
    apply list_elem_of_fmap in Hin as (y & Hid & Hy).
    pose proof (chosen_inWindow _ _ _ _ _ Hy) as Hw.
    assert (Hyt : y ∈ t).
    { eapply elem_of_submseteq; [exact Hy|apply chosen_submseteq]. }
    assert (x = y) by (by eapply fmap_key_eq).
    congruence.
Qed.

Lemma batchesFor_zero size : 1 <= size -> batchesFor 0 size = 0.
Proof. intros Hs. unfold batchesFor. apply Nat.div_small. lia. Qed.

Lemma batchesFor_step rows size :
  1 <= size -> 1 <= rows ->
  batchesFor rows size = S (batchesFor (rows - size `min` rows) size).
Proof.
  intros Hs Hr. unfold batchesFor.
  destruct (decide (rows <= size)) as [Hle|Hgt].
  - replace (rows - size `min` rows) with 0 by lia.
    rewrite (Nat.div_small (0 + size - 1)) by lia.
    symmetry. apply (Nat.div_unique _ _ _ (rows - 1)); lia.
  - replace (rows + size - 1) with ((rows - size `min` rows + size - 1) + 1 * size) by lia.
    rewrite Nat.div_add by lia. lia.
Qed.

Lemma commits_app j j' : commits (j ++ j') = commits j + commits j'.
Proof. unfold commits. by rewrite filter_app, length_app. Qed.

Lemma selections_app j j' : selections (j ++ j') = selections j + selections j'.
Proof. unfold selections. by rewrite filter_app, length_app. Qed.

(** The loop of [processMonth] without faults, on a table keyed by [id]
    and with a batch size of one row at least, started at any batch
    number and with the connection in any state. *)
Lemma batches_exhaust (cfg : Config) (year month : Z) (headers : list Codec.Header) :
  1 <= BATCH_SIZE cfg ->
  forall (fuel n total : nat) (c : list Db.Row) (v : option (list Db.Row))
         (b d : gmap string Blob) (j : list Db.Event) (e : list string),
  let cur := Db.current (Db.mkSession c v) in
  let lo := windowStart year month in
  let hi := windowEnd year month in
  let k := batchesFor (Db.countWindow cur lo hi) (BATCH_SIZE cfg) in
  NoDup (Db.id <$> cur) ->
  Db.countWindow cur lo hi < fuel ->
  exists b' d' j',
    batches fuel noFaults cfg year month headers n total
      (mkWorld (Db.mkSession c v) b d j e)
    = (Returned (total + Db.countWindow cur lo hi),
       mkWorld (Db.mkSession (if decide (k = 0) then c else outside lo hi cur)
                             (Some (outside lo hi cur)))
               b' d' (j ++ j') e)
    /\ commits j' = k
    /\ selections j' = S k
    /\ (forall key, (forall i, n <= i < n + k -> key <> s3Key (tableName cfg) year month i) ->
          b' !! key = b !! key)
    /\ (1 <= k ->
          b' !! s3Key (tableName cfg) year month n
          = Some (Gzip (Codec.encode headers
                          (map Db.toObject
                             (Db.deleteReturning cur lo hi (BATCH_SIZE cfg)).1))))
    /\ (forall r, r ∈ cur -> Db.inWindow lo hi r = true ->
          exists i R, n <= i < n + k
            /\ b' !! s3Key (tableName cfg) year month i
                = Some (Gzip (Codec.encode headers (map Db.toObject R)))
            /\ r ∈ R /\ R ⊆+ cur /\ length R <= BATCH_SIZE cfg).
Proof.
  intros Hsize fuel.
  induction fuel as [|fuel IH]; intros n total c v b d j e cur lo hi k Hnd Hfuel; [lia|].
  destruct (Db.deleteReturning cur lo hi (BATCH_SIZE cfg)) as [R t'] eqn:Hdel.
  destruct (selection_step _ _ _ _ _ _ Hnd Hdel) as (Hnd' & Hlen & Hcount & Hout).
  destruct R as [|r0 R0].
  - destruct (selection_empty _ _ _ _ _ Hnd Hsize Hdel) as [Hzero ->].
    exists b, d, [Db.Connect; Db.Begin; Db.Delete 0; Db.Release].
    assert (Hk : k = 0) by (unfold k; rewrite Hzero; by apply batchesFor_zero).
    cbn [batches]. unfold bind at 1.
    rewrite (batch_break noFaults cfg year month headers n c v [] cur b d j e Hdel) by done.
    rewrite Hk, Hzero, (countWindow_zero _ _ _ Hzero), Nat.add_0_r.
    split_and!; try done; [lia|].
    intros r Hr Hw. exfalso.
    apply nil_length_inv in Hzero.
    by apply (filter_nil_not_elem_of _ _ r Hzero).
  - set (R := r0 :: R0) in *.
    assert (HR : R <> []) by done.
    assert (Hpos : 1 <= Db.countWindow cur lo hi).
    { assert (1 <= length R) by (cbn; lia). lia. }
    cbn [batches]. unfold bind at 1.
    rewrite (batch_next noFaults cfg year month headers n c v R t' b d j e Hdel)
      by done.
    set (b1 := <[s3Key (tableName cfg) year month n
                 := Gzip (Codec.encode headers (map Db.toObject R))]> b).
    destruct (IH (S n) (total + length R) t' None b1
                (staged (tableName cfg) year month n
                   (Codec.encode headers (map Db.toObject R)) d)
                (j ++ [Db.Connect; Db.Begin; Db.Delete (length R); Db.Commit; Db.Release])
                e) as (b' & d' & j' & Hrun & Hc & Hs & Hframe & _ & Harch).
    { done. }
    { cbn [Db.current Db.committed Db.view default]. fold lo hi. lia. }
    cbn [Db.current Db.committed Db.view default] in Hrun, Hc, Hs, Hframe, Harch.
    fold lo hi in Hrun, Hc, Hs, Hframe, Harch.
    set (k' := batchesFor (Db.countWindow t' lo hi) (BATCH_SIZE cfg)) in *.
    assert (Hk : k = S k').
    { unfold k, k'. rewrite Hcount, Hlen. by apply batchesFor_step. }
    assert (Hperm : cur ≡ₚ R ++ t').
    { pose proof (returned_remaining cur lo hi (BATCH_SIZE cfg)) as Hp.
      by rewrite Hdel in Hp. }
    assert (Hfinal : outside lo hi t' = if decide (k' = 0) then t' else outside lo hi t').
    { destruct (decide (k' = 0)) as [Hz|]; [|done].
      apply countWindow_zero.
      destruct (decide (Db.countWindow t' lo hi = 0)) as [|Hne]; [done|].
      unfold k' in Hz. rewrite batchesFor_step in Hz by lia. done. }
    exists b', d',
      ([Db.Connect; Db.Begin; Db.Delete (length R); Db.Commit; Db.Release] ++ j').
    split_and!.
    + rewrite Hrun. rewrite <- Hfinal, Hout, Hcount, Hk.
      rewrite decide_False by done.
      rewrite <- app_assoc. do 2 f_equal. lia.
    + rewrite commits_app, Hc, Hk. done.
    + rewrite selections_app, Hs, Hk. done.
    + intros key Hkey. rewrite Hframe.
      * unfold b1. apply lookup_insert_ne. apply not_eq_sym, Hkey. lia.
      * intros i Hi. apply Hkey. lia.
    + intros _. cbn [fst]. rewrite Hframe.
      * unfold b1. by rewrite lookup_insert_eq.
      * intros i Hi Heq. apply s3Key_inj in Heq. lia.
    + intros r Hr Hw.
      rewrite Hperm in Hr. apply elem_of_app in Hr as [Hr|Hr].
      * exists n, R. split; [lia|]. split_and!; [ |done| |lia].
        -- rewrite Hframe.
           ++ unfold b1. by rewrite lookup_insert_eq.
           ++ intros i Hi Heq. apply s3Key_inj in Heq. lia.
        -- rewrite Hperm. by apply submseteq_inserts_r.
      * destruct (Harch r Hr Hw) as (i & R' & Hi & Hb & Hin & Hsub & Hl).
        exists i, R'. split; [lia|]. split_and!; [done|done| |done].
        rewrite Hperm. by apply submseteq_inserts_l.
Qed.

(** [processMonth] under the same conditions: the headers are fetched on
    a connection of their own, then the loop runs from batch 1. *)
Lemma processMonth_exhaust (cfg : Config) (year month : Z) (fuel : nat)
    (c : list Db.Row) (v : option (list Db.Row))
    (b d : gmap string Blob) (j : list Db.Event) (e : list string) :
  let cur := Db.current (Db.mkSession c v) in
  let lo := windowStart year month in
  let hi := windowEnd year month in
  let k := batchesFor (Db.countWindow cur lo hi) (BATCH_SIZE cfg) in
  1 <= BATCH_SIZE cfg ->
  NoDup (Db.id <$> cur) ->
  Db.countWindow cur lo hi < fuel ->
  exists b' d' j',
    processMonth fuel noFaults cfg year month (mkWorld (Db.mkSession c v) b d j e)
    = (Returned (Db.countWindow cur lo hi),
       mkWorld (Db.mkSession (if decide (k = 0) then c else outside lo hi cur)
                             (Some (outside lo hi cur)))
               b' d' (j ++ [Db.Connect; Db.Select; Db.Release] ++ j') e)
    /\ commits j' = k
    /\ selections j' = S k
    /\ (forall key, (forall i, 1 <= i <= k -> key <> s3Key (tableName cfg) year month i) ->
          b' !! key = b !! key)
    /\ (1 <= k ->
          b' !! s3Key (tableName cfg) year month 1
          = Some (Gzip (Codec.encode (Codec.toHeaders (catalog cfg))
                          (map Db.toObject
                             (Db.deleteReturning cur lo hi (BATCH_SIZE cfg)).1))))
    /\ (forall r, r ∈ cur -> Db.inWindow lo hi r = true ->
          exists i R, 1 <= i <= k
            /\ b' !! s3Key (tableName cfg) year month i
                = Some (Gzip (Codec.encode (Codec.toHeaders (catalog cfg))
                                (map Db.toObject R)))
            /\ r ∈ R /\ R ⊆+ cur /\ length R <= BATCH_SIZE cfg).
Proof.
  intros cur lo hi k Hsize Hnd Hfuel.
  destruct (batches_exhaust cfg year month (Codec.toHeaders (catalog cfg)) Hsize
              fuel 1 0 c v b d (j ++ [Db.Connect; Db.Select; Db.Release]) e Hnd Hfuel)
    as (b' & d' & j' & Hrun & Hc & Hs & Hframe & Hfirst & Harch).
  exists b', d', j'.
  split_and!; [|done|done| |done|].
  - unfold processMonth, fetchTableHeaders. unfold bind at 1.
    unfold_effects. cbn [fst snd session bucket disk journal errors].
    rewrite <- !app_assoc. cbn [app].
    rewrite Hrun. by rewrite <- app_assoc.
  - intros key Hkey. apply Hframe. intros i Hi. apply Hkey. subst k cur lo hi. lia.
  - intros r Hr Hw. destruct (Harch r Hr Hw) as (i & R & Hi & Hrest).
    exists i, R. split; [subst k cur lo hi; lia|done].
Qed.

End Exhaustion.

(** ** Archive Pipeline: what a month's run leaves behind *)

Section MonthRun.
Import Backup Counting.

Lemma samples_keyed : NoDup (Db.id <$> Db.current (session Samples.world)).
Proof. apply (bool_decide_unpack _). vm_compute. exact I. Qed.

(** X1.  [processMonth] without faults, on a table in which [id] is a key
    and with a batch size of one row at least, returns; the total it has
    counted is the number of rows the table held in the month's window;
    afterwards the window holds no row, the rows outside the window are
    the table, in their order, and nothing was logged as an error. *)
Theorem processMonth_empties_window (cfg : Config) (year month : Z) (fuel : nat)
    (w : World) :
  let cur := Db.current (session w) in
  let lo := windowStart year month in
  let hi := windowEnd year month in
  let out := processMonth fuel noFaults cfg year month w in
  1 <= BATCH_SIZE cfg ->
  NoDup (Db.id <$> cur) ->
  Db.countWindow cur lo hi < fuel ->
  out.1 = Returned (Db.countWindow cur lo hi)
  /\ Db.current (session out.2) = outside lo hi cur
  /\ Db.countWindow (Db.current (session out.2)) lo hi = 0
  /\ errors out.2 = errors w.
Proof.
  destruct w as [[c v] b d j e]. intros cur lo hi out Hsize Hnd Hfuel.
  destruct (processMonth_exhaust cfg year month fuel c v b d j e Hsize Hnd Hfuel)
    as (b' & d' & j' & Hrun & _).
  subst out. rewrite Hrun.
  change (Db.current (session _.2)) with (outside lo hi cur).
  split_and!; try done.
  unfold Db.countWindow, outside. rewrite list_filter_filter.
  rewrite filter_none; [done|].
  intros x _ [Hin Hout]. congruence.
Qed.

Lemma processMonth_empties_window_witness :
  (processMonth 4 noFaults Samples.cfg 2022 3 Samples.world).1 = Returned 2
  /\ Db.current (session (processMonth 4 noFaults Samples.cfg 2022 3 Samples.world).2)
     = [Samples.row3].
Proof.
  destruct (processMonth_empties_window Samples.cfg 2022 3 4 Samples.world)
    as (H1 & H2 & _); [cbn; lia|exact samples_keyed|vm_compute; lia|].
  split; [exact H1|exact H2].
Defined.

(** X2.  Under the same conditions the run makes one selection more than
    it commits batches, and it commits as many batches as the rows of the
    window fill at [BATCH_SIZE] rows a batch: the row count divided by the
    batch size, rounded up. *)
Theorem processMonth_batch_count (cfg : Config) (year month : Z) (fuel : nat)
    (w : World) :
  let cur := Db.current (session w) in
  let lo := windowStart year month in
  let hi := windowEnd year month in
  let out := processMonth fuel noFaults cfg year month w in
  1 <= BATCH_SIZE cfg ->
  NoDup (Db.id <$> cur) ->
  Db.countWindow cur lo hi < fuel ->
  exists j', journal out.2 = journal w ++ j'
    /\ commits j' = batchesFor (Db.countWindow cur lo hi) (BATCH_SIZE cfg)
    /\ selections j' = S (batchesFor (Db.countWindow cur lo hi) (BATCH_SIZE cfg)).
Proof.
  destruct w as [[c v] b d j e]. intros cur lo hi out Hsize Hnd Hfuel.
  destruct (processMonth_exhaust cfg year month fuel c v b d j e Hsize Hnd Hfuel)
    as (b' & d' & j' & Hrun & Hc & Hs & _).
  subst out. rewrite Hrun. cbn [snd journal].
  exists ([Db.Connect; Db.Select; Db.Release] ++ j').
  split; [done|]. by rewrite commits_app, selections_app, Hc, Hs.
Qed.

Lemma processMonth_batch_count_witness :
  exists j',
    journal (processMonth 4 noFaults Samples.cfg 2022 3 Samples.world).2 = [] ++ j'
    /\ commits j' = 1 /\ selections j' = 2.
Proof.
  destruct (processMonth_batch_count Samples.cfg 2022 3 4 Samples.world)
    as (j' & H1 & H2 & H3); [cbn; lia|exact samples_keyed|vm_compute; lia|].
  exists j'. split; [exact H1|]. split; [exact H2|exact H3].
Defined.

(** X4.  The batch counter of [processMonth] starts at 1 on every call:
    when the window holds a row, the object under the key of batch 1 is,
    after the run, the archive of the first batch selected, whatever
    object the bucket held under that key before. *)
Theorem processMonth_overwrites_first_batch (cfg : Config) (year month : Z)
    (fuel : nat) (w : World) :
  let cur := Db.current (session w) in
  let lo := windowStart year month in
  let hi := windowEnd year month in
  let out := processMonth fuel noFaults cfg year month w in
  1 <= BATCH_SIZE cfg ->
  NoDup (Db.id <$> cur) ->
  Db.countWindow cur lo hi < fuel ->
  1 <= Db.countWindow cur lo hi ->
  bucket out.2 !! s3Key (tableName cfg) year month 1
  = Some (Gzip (Codec.encode (Codec.toHeaders (catalog cfg))
                  (map Db.toObject
                     (Db.deleteReturning cur lo hi (BATCH_SIZE cfg)).1))).
Proof.
  destruct w as [[c v] b d j e]. intros cur lo hi out Hsize Hnd Hfuel Hrows.
  destruct (processMonth_exhaust cfg year month fuel c v b d j e Hsize Hnd Hfuel)
    as (b' & d' & j' & Hrun & _ & _ & _ & Hfirst & _).
  subst out. rewrite Hrun. cbn [snd bucket]. apply Hfirst.
  fold cur lo hi. rewrite batchesFor_step by done. lia.
Qed.

(** The earlier archive of March is gone after the month is run again. *)
Lemma processMonth_overwrites_first_batch_witness :
  bucket Rerun.world !! s3Key "events" 2022 3 1 = Some Rerun.earlierMarch
  /\ bucket (processMonth 4 noFaults Samples.cfg 2022 3 Rerun.world).2
       !! s3Key "events" 2022 3 1
     = Some (Gzip (Codec.encode Samples.headers
                     (map Db.toObject [Samples.row1; Samples.row2]))).
Proof.
  split; [reflexivity|].
  apply (processMonth_overwrites_first_batch Samples.cfg 2022 3 4 Rerun.world).
  - cbn; lia.
  - exact samples_keyed.
  - vm_compute; lia.
  - vm_compute; lia.
Defined.

(** X5.  Under the conditions of X1 the run stores objects under the keys
    of the month's committed batches only: every other key of the bucket
    holds after the run what it held before. *)
Theorem processMonth_keeps_other_objects (cfg : Config) (year month : Z)
    (fuel : nat) (w : World) (key : string) :
  let cur := Db.current (session w) in
  let lo := windowStart year month in
  let hi := windowEnd year month in
  let out := processMonth fuel noFaults cfg year month w in
  1 <= BATCH_SIZE cfg ->
  NoDup (Db.id <$> cur) ->
  Db.countWindow cur lo hi < fuel ->
  (forall i, 1 <= i <= batchesFor (Db.countWindow cur lo hi) (BATCH_SIZE cfg) ->
             key <> s3Key (tableName cfg) year month i) ->
  bucket out.2 !! key = bucket w !! key.
Proof.
  destruct w as [[c v] b d j e]. intros cur lo hi out Hsize Hnd Hfuel Hkey.
  destruct (processMonth_exhaust cfg year month fuel c v b d j e Hsize Hnd Hfuel)
    as (b' & d' & j' & Hrun & _ & _ & Hframe & _).
  subst out. rewrite Hrun. cbn [snd bucket]. by apply Hframe.
Qed.

(** The archive of February stays when March is run. *)
Lemma processMonth_keeps_other_objects_witness :
  bucket (processMonth 4 noFaults Samples.cfg 2022 3 Rerun.world).2
    !! s3Key "events" 2022 2 1
  = Some Rerun.earlierFebruary.
Proof.
  rewrite (processMonth_keeps_other_objects Samples.cfg 2022 3 4 Rerun.world
             (s3Key "events" 2022 2 1)).
  - reflexivity.
  - cbn; lia.
  - exact samples_keyed.
  - vm_compute; lia.
  - intros i Hi. assert (i = 1) as -> by (vm_compute in Hi; lia).
    vm_compute. discriminate.
Defined.

End MonthRun.

(** ** Archive Pipeline: the whole run *)

Section WholeRun.
Import Backup Counting.

Lemma batchesFor_zero_inv rows size :
  1 <= size -> batchesFor rows size = 0 -> rows = 0.
Proof.
  intros Hs Hz. destruct (decide (rows = 0)) as [|Hne]; [done|].
  rewrite batchesFor_step in Hz by lia. done.
Qed.

Lemma outside_length lo hi (t : list Db.Row) : length (outside lo hi t) <= length t.
Proof. apply length_filter. Qed.

Lemma countWindow_length (t : list Db.Row) lo hi : Db.countWindow t lo hi <= length t.
Proof. apply length_filter. Qed.

Lemma outside_keyed lo hi (t : list Db.Row) :
  NoDup (Db.id <$> t) -> NoDup (Db.id <$> outside lo hi t).
Proof.
  intros Hnd. apply (sublist_NoDup _ (Db.id <$> t)); [done|].
  apply fmap_sublist, sublist_filter.
Qed.

Lemma kept_cons year month ms (t : list Db.Row) :
  kept ((year, month) :: ms) t
  = kept ms (outside (windowStart year month) (windowEnd year month) t).
Proof.
  unfold kept, outside. rewrite list_filter_filter.
  apply list_filter_iff. intros r.
  unfold processed. cbn [existsb].
  change (covers (Db.created_at r) (year, month))
    with (Db.inWindow (windowStart year month) (windowEnd year month) r).
  rewrite orb_false_iff. tauto.
Qed.

Lemma kept_nil (t : list Db.Row) : kept [] t = t.
Proof. unfold kept. by apply filter_all. Qed.

(** The months of a run one after another, without faults: the rows in
    the windows of the months are gone, the others stay; when the
    connection had no uncommitted change before, all of it is
    committed. *)
Lemma processMonths_exhaust (cfg : Config) (fuel : nat) :
  1 <= BATCH_SIZE cfg ->
  forall (ms : list (Z * Z)) (c : list Db.Row) (v : option (list Db.Row))
         (b d : gmap string Blob) (j : list Db.Event) (e : list string),
  let cur := Db.current (Db.mkSession c v) in
  NoDup (Db.id <$> cur) ->
  length cur < fuel ->
  exists s' b' d' j',
    processMonths fuel noFaults cfg ms (mkWorld (Db.mkSession c v) b d j e)
    = (Returned tt, mkWorld s' b' d' (j ++ j') e)
    /\ Db.current s' = kept ms cur
    /\ (v = None \/ v = Some c -> Db.committed s' = kept ms cur).
Proof.
  intros Hsize ms.
  induction ms as [|[year month] ms IH]; intros c v b d j e cur Hnd Hfuel.
  - exists (Db.mkSession c v), b, d, []. cbn [processMonths]. unfold ret.
    rewrite app_nil_r, kept_nil. split_and!; [done|done|].
    intros [->| ->]; done.
  - pose proof (countWindow_length cur (windowStart year month) (windowEnd year month))
      as Hcw.
    assert (Hfuel' : Db.countWindow cur (windowStart year month) (windowEnd year month)
                     < fuel) by lia.
    destruct (processMonth_exhaust cfg year month fuel c v b d j e Hsize Hnd Hfuel')
      as (b1 & d1 & j1 & Hrun & Hc1 & _).
    fold cur in Hrun.
    set (lo := windowStart year month) in *.
    set (hi := windowEnd year month) in *.
    set (k := batchesFor (Db.countWindow cur lo hi) (BATCH_SIZE cfg)) in *.
    set (c1 := if decide (k = 0) then c else outside lo hi cur) in *.
    pose proof (outside_length lo hi cur) as Hlen.
    destruct (IH c1 (Some (outside lo hi cur)) b1 d1
                (j ++ [Db.Connect; Db.Select; Db.Release] ++ j1) e)
      as (s' & b' & d' & j' & Hrest & Hcur & Hcom).
    { by apply outside_keyed. }
    { change (Db.current _) with (outside lo hi cur). lia. }
    change (Db.current (Db.mkSession c1 _)) with (outside lo hi cur)
      in Hcur, Hcom.
    exists s', b', d', (([Db.Connect; Db.Select; Db.Release] ++ j1) ++ j').
    split_and!.
    + cbn [processMonths]. unfold bind at 1. rewrite Hrun, Hrest.
      by rewrite <- !app_assoc.
    + by rewrite kept_cons.
    + intros Hinv. rewrite kept_cons. apply Hcom. right. f_equal.
      unfold c1. destruct (decide (k = 0)) as [Hk|]; [|done].
      apply batchesFor_zero_inv in Hk; [|done].
      rewrite (countWindow_zero _ _ _ Hk).
      destruct Hinv as [->| ->]; done.
Qed.

Lemma getRowCount_eq (s : Db.Session) (b d : gmap string Blob)
    (j : list Db.Event) (e : list string) :
  getRowCount (mkWorld s b d j e)
  = (Returned (length (Db.current s)),
     mkWorld s b d (j ++ [Db.Connect; Db.Select; Db.Release]) e).
Proof.
  unfold getRowCount. unfold_effects. cbn [fst snd session bucket disk journal errors].
  by rewrite <- !app_assoc.
Qed.

(** [backupAndDeleteRows] without faults on the months its loop visits. *)
Lemma backupAndDeleteRows_exhaust (cfg : Config) (fuel : nat)
    (startDate endDate : JsDate.Date) (ms : list (Z * Z))
    (c : list Db.Row) (v : option (list Db.Row))
    (b d : gmap string Blob) (j : list Db.Event) (e : list string) :
  let cur := Db.current (Db.mkSession c v) in
  months startDate endDate = Some ms ->
  1 <= BATCH_SIZE cfg ->
  NoDup (Db.id <$> cur) ->
  length cur < fuel ->
  exists s' b' d' j',
    backupAndDeleteRows fuel noFaults cfg startDate endDate
      (mkWorld (Db.mkSession c v) b d j e)
    = (Returned tt, mkWorld s' b' d' (j ++ j') e)
    /\ Db.current s' = kept ms cur
    /\ (v = None \/ v = Some c -> Db.committed s' = kept ms cur).
Proof.
  intros cur Hms Hsize Hnd Hfuel.
  destruct (processMonths_exhaust cfg fuel Hsize ms c v b d
              (j ++ [Db.Connect; Db.Select; Db.Release]) e Hnd Hfuel)
    as (s' & b' & d' & j' & Hrun & Hcur & Hcom).
  exists s', b', d',
    ([Db.Connect; Db.Select; Db.Release] ++ j' ++ [Db.Connect; Db.Select; Db.Release]).
  split_and!; [|done|done].
  unfold backupAndDeleteRows. rewrite Hms.
  unfold bind at 1. rewrite getRowCount_eq.
  unfold bind at 1. rewrite Hrun.
  unfold bind at 1. rewrite getRowCount_eq.
  unfold ret. by rewrite <- !app_assoc.
Qed.





End WholeRun.

(** ** Archive Pipeline: the batches of a month, whatever fails *)

Section NoLoss.
Import Backup Counting.



End NoLoss.

(** ** Archive Pipeline: the month loop from any date *)

Section AnyDates.
Import Backup Counting.
Local Open Scope Z_scope.

Lemma daysInMonth_max (y m0 : Z) : JsDate.daysInMonth y m0 <= 31.
Proof.
  unfold JsDate.daysInMonth.
  repeat match goal with |- context [if ?b then _ else _] => destruct b end; lia.
Qed.

Lemma monthOfIndex_monthIndex (d : JsDate.Date) :
  wellFormed d ->
  monthOfIndex (monthIndex d) = (JsDate.fullYear d, JsDate.month0 d + 1).
Proof.
  intros (Hm & _). unfold monthOfIndex, monthIndex.
  rewrite <- (Z.div_unique (JsDate.fullYear d * 12 + JsDate.month0 d) 12
                (JsDate.fullYear d) (JsDate.month0 d)) by lia.
  rewrite <- (Z.mod_unique (JsDate.fullYear d * 12 + JsDate.month0 d) 12
                (JsDate.fullYear d) (JsDate.month0 d)) by lia.
  done.
Qed.

(** One step of the loop moves the date one month on, or two when the day
    does not exist in the next month. *)
Lemma setMonth_next (d : JsDate.Date) :
  wellFormed d ->
  wellFormed (JsDate.setMonth d (JsDate.month0 d + 1))
  /\ monthIndex d + 1 <= monthIndex (JsDate.setMonth d (JsDate.month0 d + 1))
     <= monthIndex d + 2.
Proof.
  intros (Hm & Hd & Hrest).
  unfold JsDate.setMonth, JsDate.normalise.
  pose proof (Z.div_mod (JsDate.month0 d + 1) 12 ltac:(lia)) as Hdiv.
  pose proof (Z.mod_pos_bound (JsDate.month0 d + 1) 12 ltac:(lia)) as Hmod.
  set (q := (JsDate.month0 d + 1) / 12) in *.
  set (m' := (JsDate.month0 d + 1) mod 12) in *.
  pose proof (daysInMonth_min (JsDate.fullYear d + q) m') as Hmin.
  pose proof (daysInMonth_max (JsDate.fullYear d + q) m') as Hmax.
  destruct (JsDate.date d <=? JsDate.daysInMonth (JsDate.fullYear d + q) m') eqn:Hday;
    [|destruct (m' =? 11) eqn:Hdec];
    unfold wellFormed, monthIndex;
    cbn [JsDate.fullYear JsDate.month0 JsDate.date JsDate.hours JsDate.minutes
         JsDate.seconds JsDate.millis];
    lia.
Qed.

Lemma leb_monthIndex (d e : JsDate.Date) :
  wellFormed d -> wellFormed e -> JsDate.leb d e = true ->
  monthIndex d <= monthIndex e.
Proof.
  intros Hd He Hle. unfold JsDate.leb in Hle. apply Z.leb_le in Hle.
  pose proof (key_bounds d Hd). pose proof (key_bounds e He). lia.
Qed.

(** The loop from any date: it ends, and the months it visits follow one
    another in time, from the month of the start on and up to the month
    of the end. *)
Lemma visit_any (e : JsDate.Date) :
  wellFormed e ->
  forall (fuel : nat) (d : JsDate.Date),
    wellFormed d ->
    (Z.to_nat (monthIndex e - monthIndex d + 2) <= fuel)%nat ->
    exists idx : list Z,
      visit fuel d e = Some (map monthOfIndex idx)
      /\ Forall (fun i => monthIndex d <= i <= monthIndex e) idx
      /\ StronglySorted Z.lt idx
      /\ (JsDate.leb d e = true -> head idx = Some (monthIndex d))
      /\ (JsDate.leb d e = false -> idx = []).
Proof.
  intros He. induction fuel as [|fuel IH]; intros d Hd Hfuel.
  - destruct (JsDate.leb d e) eqn:Hle.
    { pose proof (leb_monthIndex d e Hd He Hle). lia. }
    exists []. cbn [visit]. rewrite Hle. split_and!; try done. constructor.
  - destruct (JsDate.leb d e) eqn:Hle.
    + pose proof (leb_monthIndex d e Hd He Hle) as Hidx.
      destruct (setMonth_next d Hd) as [Hd' Hnext].
      destruct (IH _ Hd' ltac:(lia)) as (idx & Hrun & Hall & Hsort & _).
      exists (monthIndex d :: idx). cbn [visit]. rewrite Hle, Hrun.
      cbn [map fmap option_fmap option_map].
      rewrite (monthOfIndex_monthIndex d Hd).
      split_and!; try done.
      * constructor; [lia|]. eapply Forall_impl; [exact Hall|]. cbn. lia.
      * constructor; [done|]. eapply Forall_impl; [exact Hall|]. cbn. lia.
    + exists []. cbn [visit]. rewrite Hle. split_and!; try done. constructor.
Qed.

Lemma windowsCovering_none (d : JsDate.Date) (idx : list Z) :
  wellFormed d -> Forall (fun i => 1200 <= i /\ monthIndex d <> i) idx ->
  windowsCovering d (map monthOfIndex idx) = 0%nat.
Proof.
  intros Hd. unfold windowsCovering.
  induction 1 as [|i idx [Hi Hne] _ IH]; [done|].
  cbn [map]. rewrite filter_cons_False; [done|].
  rewrite (covers_monthOfIndex d i Hd Hi). by rewrite bool_decide_eq_false_2.
Qed.

Lemma windowsCovering_sorted (d : JsDate.Date) (idx : list Z) :
  wellFormed d -> Forall (fun i => 1200 <= i) idx -> StronglySorted Z.lt idx ->
  (windowsCovering d (map monthOfIndex idx) <= 1)%nat.
Proof.
  intros Hd Hall Hsort.
  induction Hsort as [|i idx Hsort IH Hlt]; [cbn; lia|].
  apply Forall_cons in Hall as [Hi Hall].
  unfold windowsCovering in *. cbn [map]. rewrite filter_cons.
  rewrite (covers_monthOfIndex d i Hd Hi).
  destruct (decide (monthIndex d = i)) as [Heq|Hne].
  - rewrite bool_decide_eq_true_2, decide_True by done. cbn [length].
    pose proof (windowsCovering_none d idx Hd) as Hnone.
    unfold windowsCovering in Hnone. rewrite Hnone; [lia|].
    apply Forall_forall. intros k Hk.
    rewrite Forall_forall in Hall, Hlt.
    specialize (Hall k Hk). specialize (Hlt k Hk). lia.
  - rewrite bool_decide_eq_false_2, decide_False by done. by apply IH.
Qed.

(** X8.  For any two well-formed dates the loop of [backupAndDeleteRows]
    ends; the months it visits are in strictly increasing order, none
    before the month of [START_DATE] and none after the month of
    [END_DATE], the first being the month of [START_DATE] when that date
    is not after [END_DATE]; and (for years from 100 on) no date lies in
    the windows of two visited months. *)
Theorem months_any_dates (startDate endDate : JsDate.Date) :
  wellFormed startDate -> wellFormed endDate ->
  exists idx : list Z,
    months startDate endDate = Some (map monthOfIndex idx)
    /\ StronglySorted Z.lt idx
    /\ Forall (fun i => monthIndex startDate <= i <= monthIndex endDate) idx
    /\ (JsDate.leb startDate endDate = true -> head idx = Some (monthIndex startDate))
    /\ (100 <= JsDate.fullYear startDate ->
        forall d, wellFormed d ->
          (windowsCovering d (map monthOfIndex idx) <= 1)%nat).
Proof.
  intros Hs He.
  destruct (visit_any endDate He (monthsBetween startDate endDate) startDate Hs)
    as (idx & Hrun & Hall & Hsort & Hhead & _).
  { unfold monthsBetween, monthIndex. lia. }
  exists idx. split_and!; try done.
  intros Hy d Hd. apply windowsCovering_sorted; [done| |done].
  eapply Forall_impl; [exact Hall|]. cbn.
  destruct Hs as (Hm & _). unfold monthIndex. lia.
Qed.

(** From 31 January the loop visits January, March and April. *)
Lemma months_any_dates_witness :
  exists idx : list Z,
    months (JsDate.ofIsoDay 2022 1 31) (JsDate.ofIsoDay 2022 4 30)
    = Some (map monthOfIndex idx)
    /\ StronglySorted Z.lt idx.
Proof.
  destruct (months_any_dates (JsDate.ofIsoDay 2022 1 31) (JsDate.ofIsoDay 2022 4 30))
    as (idx & H1 & H2 & _).
  - unfold wellFormed. cbn. lia.
  - unfold wellFormed. cbn. lia.
  - exists idx. split; [exact H1|exact H2].
Defined.

End AnyDates.

(** ** Archive Pipeline: the rows of a run, kept or stored *)

Section RunNoLoss.
Import Backup Counting.

Lemma fetchTableHeaders_eq (cfg : Config) (s : Db.Session) (b d : gmap string Blob)
    (j : list Db.Event) (e : list string) :
  fetchTableHeaders cfg (mkWorld s b d j e)
  = (Returned (Codec.toHeaders (catalog cfg)),
     mkWorld s b d (j ++ [Db.Connect; Db.Select; Db.Release]) e).
Proof.
  unfold fetchTableHeaders. unfold_effects.
  cbn [fst snd session bucket disk journal errors].
  by rewrite <- !app_assoc.
Qed.







End RunNoLoss.

(** ** Restore Pipeline: a whole restore run *)

Section RestoreWhole.
Import Restore.

Context (copy : CopyIn).

(** The load step on any connection: what it does to the files and the
    bucket, and its three ways through. *)
Lemma restoreCsvToTable_any (table path : string) (c : list Db.Row)
    (v : option (list Db.Row)) (b d : gmap string Blob) (j : list Db.Event)
    (e : list string) :
  let w := mkWorld (Db.mkSession c v) b d j e in
  let out := restoreCsvToTable copy table path w in
  bucket out.2 = b /\ disk out.2 = d
  /\ (forall content first rest perr t2,
        d !! path = Some (Plain content) ->
        CsvParse.parse content = (first :: rest, perr) ->
        copy (Js.keys first) content (Db.current (Db.mkSession c v)) = (t2, None) ->
        out = (Returned tt,
               mkWorld (Db.mkSession t2 None) b d
                 (j ++ [Db.Connect; Db.Begin; Db.Copy; Db.Commit; Db.Release]) e))
  /\ (forall content,
        d !! path = Some (Plain content) ->
        CsvParse.parse content = ([], None) ->
        out = (Pending,
               mkWorld (Db.begin (Db.mkSession c v)) b d
                 (j ++ [Db.Connect; Db.Begin]) e)).
Proof.
  intros w out. subst w out.
  unfold restoreCsvToTable, readCsvHeaders, queryCopy. unfold_effects. cbn.
  destruct (d !! path) as [[content|content]|] eqn:Hd; cbn.
  - destruct (CsvParse.parse content) as [[|first rest] [perr|]] eqn:Hp; cbn;
      rewrite ?Hd; cbn.
    + split_and!; try done; intros; simplify_eq; congruence.
    + split_and!; try done; [intros; simplify_eq; congruence|].
      intros ? [= <-] _. destruct v; cbn; by rewrite <- !app_assoc.
    + destruct v as [seen|]; cbn;
        destruct (copy (Js.keys first) content _) as [t3 [err|]] eqn:Hc; cbn;
        (split_and!; try done;
         [intros c0 f r pe t4 [= <-] H2; rewrite Hp in H2; simplify_eq;
            intros H3; cbn in H3; rewrite Hc in H3; simplify_eq;
            try (by rewrite <- !app_assoc)
         |intros ? [= <-] H2; rewrite Hp in H2; simplify_eq]).
    + destruct v as [seen|]; cbn;
        destruct (copy (Js.keys first) content _) as [t3 [err|]] eqn:Hc; cbn;
        (split_and!; try done;
         [intros c0 f r pe t4 [= <-] H2; rewrite Hp in H2; simplify_eq;
            intros H3; cbn in H3; rewrite Hc in H3; simplify_eq;
            try (by rewrite <- !app_assoc)
         |intros ? [= <-] H2; rewrite Hp in H2; simplify_eq]).
  - split_and!; try done; intros; simplify_eq.
  - split_and!; try done; intros; simplify_eq.
Qed.

(** The steps before the load step change neither the connection nor the
    bucket, and no file but the two staging files. *)
Lemma fetched_frame (delivered : nat) (key : string) (w : World) :
  let out := fetched delivered key w in
  session out.2 = session w /\ bucket out.2 = bucket w
  /\ journal out.2 = journal w /\ errors out.2 = errors w
  /\ (forall p, p <> localFilePath -> p <> processedFilePath ->
        disk out.2 !! p = disk w !! p)
  /\ out.1 <> Pending.
Proof.
  destruct w as [s b d j e]. intros out.
  pose proof (fetched_cases delivered key s b d j e) as Hf. cbv zeta in Hf.
  subst out.
  destruct (b !! key) as [[text|archive]|].
  - rewrite Hf. cbn. by split_and!.
  - destruct (CsvParse.parse archive) as [records [perr|]]; rewrite Hf; cbn;
      split_and!; try done; intros p H1 H2; unfold unpacked;
      by rewrite !lookup_insert_ne.
  - rewrite Hf. cbn. by split_and!.
Qed.

Lemma cleaned_staging (d : gmap string Blob) :
  cleaned d !! localFilePath = None /\ cleaned d !! processedFilePath = None
  /\ (forall p, p <> localFilePath -> p <> processedFilePath ->
        cleaned d !! p = d !! p).
Proof.
  unfold cleaned. split_and!.
  - rewrite lookup_delete_ne by done. apply lookup_delete_eq.
  - apply lookup_delete_eq.
  - intros p H1 H2. by rewrite !lookup_delete_ne.
Qed.

Lemma steps_frame (delivered : nat) (key table : string) (w : World) :
  let out := (fetched delivered key ;;; restoreCsvToTable copy table processedFilePath) w in
  bucket out.2 = bucket w
  /\ (forall p, p <> localFilePath -> p <> processedFilePath ->
        disk out.2 !! p = disk w !! p).
Proof.
  intros out. subst out.
  destruct (fetched_frame delivered key w) as (_ & Hb & _ & _ & Hd & _).
  unfold bind.
  destruct (fetched delivered key w) as [[[]|err|] [[c v] b1 d1 j1 e1]];
    cbn [fst snd session bucket disk journal errors] in Hb, Hd; [|done..].
  destruct (restoreCsvToTable_any table processedFilePath c v b1 d1 j1 e1)
    as (Hb2 & Hd2 & _).
  rewrite Hb2, Hd2. done.
Qed.

(** X11.  A restore run never writes to the bucket and touches no file but
    its two staging files; whenever [downloadAndRestoreS3File] returns,
    whether the restore succeeded or an error was caught, both staging
    files are gone. *)
Theorem restore_cleans_staging (delivered : nat) (key table : string) (w : World) :
  let out := downloadAndRestoreS3File copy delivered key table w in
  bucket out.2 = bucket w
  /\ (forall p, p <> localFilePath -> p <> processedFilePath ->
        disk out.2 !! p = disk w !! p)
  /\ (isReturned out.1 = true ->
      disk out.2 !! localFilePath = None /\ disk out.2 !! processedFilePath = None).
Proof.
  intros out. subst out. rewrite downloadAndRestoreS3File_eq.
  pose proof (steps_frame delivered key table w) as [Hb Hd]. cbv zeta in Hb, Hd.
  destruct ((fetched delivered key ;;; restoreCsvToTable copy table processedFilePath) w)
    as [[[]|err|] [s1 b1 d1 j1 e1]];
    cbn [fst snd session bucket disk journal errors setDisk isReturned] in *;
    destruct (cleaned_staging d1) as (H1 & H2 & H3);
    (split_and!; [done| |done]); intros p Hp1 Hp2;
    rewrite ?H3 by done; by apply Hd.
Qed.

Lemma fetched_archive (delivered : nat) (key archive : string) (records : list Js.Obj)
    (s : Db.Session) (b d : gmap string Blob) (j : list Db.Event) (e : list string) :
  b !! key = Some (Gzip archive) ->
  CsvParse.parse archive = (records, None) ->
  fetched delivered key (mkWorld s b d j e)
  = (Returned tt, mkWorld s b (unpacked archive (processed records) d) j e).
Proof.
  intros Hb Hp. pose proof (fetched_cases delivered key s b d j e) as Hf.
  cbv zeta in Hf. by rewrite Hb, Hp in Hf.
Qed.

Lemma unpacked_processed (archive canonical : string) (d : gmap string Blob) :
  unpacked archive canonical d !! processedFilePath = Some (Plain canonical).
Proof. unfold unpacked. apply lookup_insert_eq. Qed.

Lemma downloadAndRestoreS3File_loads (delivered : nat) (key table archive : string)
    (records : list Js.Obj) (first : Js.Obj) (rest : list Js.Obj)
    (perr : option CsvParse.Error) (t2 : list Db.Row) (w : World) :
  bucket w !! key = Some (Gzip archive) ->
  CsvParse.parse archive = (records, None) ->
  CsvParse.parse (processed records) = (first :: rest, perr) ->
  copy (Js.keys first) (processed records) (Db.current (session w)) = (t2, None) ->
  downloadAndRestoreS3File copy delivered key table w
  = (Returned tt,
     mkWorld (Db.mkSession t2 None) (bucket w)
       (cleaned (unpacked archive (processed records) (disk w)))
       (journal w ++ [Db.Connect; Db.Begin; Db.Copy; Db.Commit; Db.Release])
       (errors w)).
Proof.
  destruct w as [[c v] b d j e].
  cbn [session bucket disk journal errors]. intros Hb Hp Hp2 Hc.
  rewrite downloadAndRestoreS3File_eq. unfold bind.
  rewrite (fetched_archive delivered key archive records _ b d j e Hb Hp).
  destruct (restoreCsvToTable_any table processedFilePath c v b
              (unpacked archive (processed records) d) j e) as (_ & _ & Hok & _).
  cbv zeta in Hok.
  by rewrite (Hok _ _ _ _ _ (unpacked_processed _ _ _) Hp2 Hc).
Qed.

(** X12.  The success path of a restore run.  When the bucket holds a
    compressed archive under the key, the archive is read without an
    error, the canonical file written from it has a first record, and the
    bulk load accepts the canonical file, then the run returns; the bulk
    load was handed the column names read back from the canonical file
    and the whole text of that file, inside a transaction that is
    committed before the connection is released; the table is the one the
    bulk load produced; nothing was logged as an error and the staging
    files are removed. *)
Theorem restore_loads_archive (delivered : nat) (key table archive : string)
    (records : list Js.Obj) (first : Js.Obj) (rest : list Js.Obj)
    (perr : option CsvParse.Error) (t2 : list Db.Row) (w : World) :
  bucket w !! key = Some (Gzip archive) ->
  CsvParse.parse archive = (records, None) ->
  CsvParse.parse (processed records) = (first :: rest, perr) ->
  copy (Js.keys first) (processed records) (Db.current (session w)) = (t2, None) ->
  downloadAndRestoreS3File copy delivered key table w
  = (Returned tt,
     mkWorld (Db.mkSession t2 None) (bucket w)
       (cleaned (unpacked archive (processed records) (disk w)))
       (journal w ++ [Db.Connect; Db.Begin; Db.Copy; Db.Commit; Db.Release])
       (errors w)).
Proof. apply downloadAndRestoreS3File_loads. Qed.

(** X13.  An archive without a data record.  When the archive is read
    without an error and holds no record (a header line alone, or nothing),
    the canonical file is empty, the header read of the load step never
    settles, and the run does not come back: [BEGIN] has been issued and
    neither [COMMIT], [ROLLBACK] nor the release follows; the cleanup has
    not run, and both staging files are still there. *)
Theorem restore_without_records_hangs (delivered : nat) (key table archive : string)
    (w : World) :
  bucket w !! key = Some (Gzip archive) ->
  CsvParse.parse archive = ([], None) ->
  let out := downloadAndRestoreS3File copy delivered key table w in
  out.1 = Pending
  /\ journal out.2 = journal w ++ [Db.Connect; Db.Begin]
  /\ Db.inTransaction (session out.2) = true
  /\ disk out.2 !! localFilePath = Some (Plain archive)
  /\ disk out.2 !! processedFilePath = Some (Plain EmptyString).
Proof.
  destruct w as [[c v] b d j e].
  cbn [session bucket disk journal errors]. intros Hb Hp.
  rewrite downloadAndRestoreS3File_eq. unfold bind.
  rewrite (fetched_archive delivered key archive [] _ b d j e Hb Hp).
  destruct (restoreCsvToTable_any table processedFilePath c v b
              (unpacked archive (processed []) d) j e) as (_ & _ & _ & Hhang).
  cbv zeta in Hhang.
  rewrite (Hhang _ (unpacked_processed _ _ _) eq_refl).
  cbn [fst snd session bucket disk journal errors].
  split_and!; [done|done|by destruct v| |apply unpacked_processed].
  unfold unpacked. rewrite lookup_insert_ne by done. apply lookup_insert_eq.
Qed.

End RestoreWhole.

Section RestoreWholeAt.
Import Restore.

(** The archive of the two March rows is loaded into the sample table. *)
Lemma restore_loads_archive_witness :
  (downloadAndRestoreS3File RestoreSamples.copyAccepts 0 RestoreSamples.key "events"
     RestoreSamples.world).1 = Returned tt
  /\ session (downloadAndRestoreS3File RestoreSamples.copyAccepts 0 RestoreSamples.key
                "events" RestoreSamples.world).2
     = Db.mkSession [Samples.row3; Samples.row1; Samples.row2] None.
Proof.
  rewrite (restore_loads_archive RestoreSamples.copyAccepts 0 RestoreSamples.key
             "events" RestoreSamples.archive
             (CsvParse.parse RestoreSamples.archive).1
             (hd [] (CsvParse.parse (decode RestoreSamples.archive)).1)
             (tl (CsvParse.parse (decode RestoreSamples.archive)).1)
             None
             [Samples.row3; Samples.row1; Samples.row2]
             RestoreSamples.world).
  - split; reflexivity.
  - reflexivity.
  - vm_compute. reflexivity.
  - vm_compute. reflexivity.
  - reflexivity.
Defined.

(** The restore of an archive that holds the header line alone. *)
Lemma restore_without_records_hangs_witness :
  (downloadAndRestoreS3File RestoreSamples.copyAccepts 0 RestoreSamples.key "events"
     RestoreEdge.world).1 = Pending
  /\ journal (downloadAndRestoreS3File RestoreSamples.copyAccepts 0 RestoreSamples.key
                "events" RestoreEdge.world).2
     = [Db.Connect; Db.Begin].
Proof.
  destruct (restore_without_records_hangs RestoreSamples.copyAccepts 0
              RestoreSamples.key "events" RestoreEdge.headerOnly RestoreEdge.world)
    as (H1 & H2 & _).
  - reflexivity.
  - vm_compute. reflexivity.
  - split; [exact H1|exact H2].
Defined.

End RestoreWholeAt.

(** ** Archive Pipeline: a batch size of zero *)

Section BatchSizeZero.
Import Backup Counting.

Lemma deleteReturning_zero (t : list Db.Row) lo hi :
  Db.deleteReturning t lo hi 0 = ([], t).
Proof.
  unfold Db.deleteReturning, Db.cte, Db.chosen. rewrite take_0. cbn [fmap list_fmap].
  f_equal.
  - apply filter_none. intros x _. apply not_elem_of_nil.
  - apply filter_all. intros x _. apply not_elem_of_nil.
Qed.

(** X15.  With [BATCH_SIZE] set to 0 the first selection of
    [processMonth] is empty, whatever the window holds: the call returns
    at once with a total of 0, having archived nothing and deleted
    nothing. *)
Theorem processMonth_batch_size_zero (cfg : Config) (year month : Z) (fuel : nat)
    (w : World) :
  let out := processMonth fuel noFaults cfg year month w in
  BATCH_SIZE cfg = 0 -> 1 <= fuel ->
  out.1 = Returned 0
  /\ Db.current (session out.2) = Db.current (session w)
  /\ Db.committed (session out.2) = Db.committed (session w)
  /\ bucket out.2 = bucket w
  /\ disk out.2 = disk w.
Proof.
  destruct w as [[c v] b d j e]. intros out Hsize Hfuel.
  destruct fuel as [|fuel]; [lia|].
  pose proof (deleteReturning_zero (Db.current (Db.mkSession c v))
                (windowStart year month) (windowEnd year month)) as Hdel.
  rewrite <- Hsize in Hdel.
  assert (Hrun : out
                 = (Returned 0,
                    mkWorld (Db.mkSession c (Some (Db.current (Db.mkSession c v)))) b d
                      ((j ++ [Db.Connect; Db.Select; Db.Release])
                         ++ [Db.Connect; Db.Begin; Db.Delete 0; Db.Release]) e)).
  { subst out. unfold processMonth. unfold bind at 1. rewrite fetchTableHeaders_eq.
    cbn [batches]. unfold bind at 1.
    by rewrite (batch_break noFaults cfg year month _ 1 c v [] _ b d _ e Hdel
                  eq_refl eq_refl). }
  rewrite Hrun. cbn [fst snd session bucket disk Db.committed].
  split_and!; done.
Qed.

Lemma processMonth_batch_size_zero_witness :
  (processMonth 1 noFaults (mkConfig "events" 0 ["id"; "created_at"; "name"]%string)
     2022 3 Samples.world).1 = Returned 0
  /\ Db.current
       (session (processMonth 1 noFaults
                   (mkConfig "events" 0 ["id"; "created_at"; "name"]%string)
                   2022 3 Samples.world).2)
     = Samples.table.
Proof.
  destruct (processMonth_batch_size_zero
              (mkConfig "events" 0 ["id"; "created_at"; "name"]%string)
              2022 3 1 Samples.world) as (H1 & H2 & _).
  - reflexivity.
  - lia.
  - split; [exact H1|exact H2].
Defined.

End BatchSizeZero.

(** ** Row Codec: the reader on the writer's output *)

Section WriterReader.
Import Js Codec CsvParse Reading.

(** Inside a quoted field: the doubled quotes are read as one, and the
    closing quote before a delimiter ends the field. *)
Lemma run_inside_quotes (s : string) :
  forall (wq : bool) (f : list ascii) (r : list string) (recs : list (list string))
         (sep : ascii) (rest : string),
    isDelimiter sep || isRecordDelimiter sep = true ->
    run (mkState true wq f r recs)
        (Text.doubleQuotes s +:+ String Text.dquote (String sep rest))
    = run (mkState false true (rev (list_ascii_of_string s) ++ f) r recs)
          (String sep rest).
Proof.
  induction s as [|c s IH]; intros wq f r recs sep rest Hsep.
  - cbn [Text.doubleQuotes]. rewrite append_nil.
    assert (Hq : isQuote sep = false).
    { unfold isDelimiter, isRecordDelimiter, isQuote in *.
      apply orb_true_iff in Hsep as [H|H]; apply Ascii.eqb_eq in H; by subst. }
    cbn [run]. change (isQuote Text.dquote) with true. cbn [quoting].
    by rewrite Hq, Hsep.
  - cbn [Text.doubleQuotes list_ascii_of_string rev].
    destruct (Ascii.eqb c Text.dquote) eqn:Hc.
    + apply Ascii.eqb_eq in Hc. subst c. rewrite !append_cons.
      cbn [run]. change (isQuote Text.dquote) with true. cbn [quoting].
      unfold append. cbn [quoting wasQuoting field record records].
      rewrite IH by done. by rewrite <- app_assoc.
    + rewrite append_cons. cbn [run].
      unfold isQuote at 1. rewrite Hc. cbn [quoting].
      unfold append. cbn [quoting wasQuoting field record records].
      rewrite IH by done. by rewrite <- app_assoc.
Qed.

Lemma str_append (c : ascii) (s : string) : Text.str c +:+ s = String c s.
Proof. reflexivity. Qed.

Lemma run_open_quote (wq : bool) (r : list string) (recs : list (list string))
    (rest : string) :
  run (mkState false wq [] r recs) (String Text.dquote rest)
  = run (mkState true wq [] r recs) rest.
Proof. reflexivity. Qed.

(** A field of the writer before a delimiter, at the start of a field. *)
Lemma run_written_field (v : option Value) (r : list string)
    (recs : list (list string)) (sep : ascii) (rest : string) :
  isDelimiter sep || isRecordDelimiter sep = true ->
  run (mkState false false [] r recs) (stringifyField v +:+ String sep rest)
  = run (mkState false (negb (isEmpty v)) (rev (list_ascii_of_string (cellText v))) r recs)
        (String sep rest).
Proof.
  intros Hsep. unfold stringifyField, cellText.
  destruct (isEmpty v); [by rewrite append_nil|].
  unfold quoteField. rewrite !string_app_assoc, !str_append.
  rewrite run_open_quote, run_inside_quotes by done. by rewrite app_nil_r.
Qed.

Lemma run_comma_any (wq : bool) (f : list ascii) (r : list string)
    (recs : list (list string)) (rest : string) :
  run (mkState false wq f r recs) (String Text.comma rest)
  = run (mkState false false [] (string_of_list_ascii (rev f) :: r) recs) rest.
Proof. reflexivity. Qed.

Lemma run_newline_any (wq : bool) (f : list ascii) (r : list string)
    (recs : list (list string)) (rest : string) :
  run (mkState false wq f r recs) (String Text.newline rest)
  = if negb wq && bool_decide (r = []) && bool_decide (f = [])
    then run (mkState false wq f r recs) rest
    else run (mkState false false [] []
                (rev (string_of_list_ascii (rev f) :: r) :: recs)) rest.
Proof. reflexivity. Qed.

Lemma cell_read (s : string) :
  string_of_list_ascii (rev (rev (list_ascii_of_string s))) = s.
Proof. by rewrite rev_involutive, string_of_list_ascii_of_string. Qed.

Lemma cellText_empty (v : option Value) : isEmpty v = true -> cellText v = EmptyString.
Proof. unfold cellText. by intros ->. Qed.

(** A line of the writer after fields already read. *)
Lemma run_written_line (fields : list (option Value)) :
  forall (v : option Value) (r : list string) (recs : list (list string))
         (rest : string),
    run (mkState false false [] r recs)
        (getCsvLine (v :: fields) +:+ String Text.newline rest)
    = if isEmpty v && bool_decide (r = []) && bool_decide (fields = [])
      then run (mkState false false [] [] recs) rest
      else run (mkState false false [] []
                  ((rev r ++ cells (v :: fields)) :: recs)) rest.
Proof.
  induction fields as [|v' fields IH]; intros v r recs rest.
  - unfold getCsvLine. cbn [map Text.join].
    rewrite run_written_field by done. rewrite run_newline_any, cell_read.
    rewrite negb_involutive.
    destruct (isEmpty v) eqn:He.
    + rewrite (cellText_empty v He). cbn [list_ascii_of_string rev cells map].
      rewrite (cellText_empty v He).
      rewrite (bool_decide_eq_true_2 ([] = [])) by done.
      destruct r as [|f r].
      * by rewrite (bool_decide_eq_true_2 ([] = [])).
      * by rewrite (bool_decide_eq_false_2 (f :: r = [])).
    + done.
  - change (getCsvLine (v :: v' :: fields))
      with (stringifyField v +:+ "," +:+ getCsvLine (v' :: fields)).
    rewrite !string_app_assoc.
    change ("," +:+ ?s)%string with (String Text.comma s).
    rewrite run_written_field by done. rewrite run_comma_any, cell_read.
    rewrite IH.
    rewrite (bool_decide_eq_false_2 (_ :: r = [])) by done.
    rewrite (bool_decide_eq_false_2 (v' :: fields = [])) by done.
    rewrite !andb_false_r. cbn [rev cells map]. by rewrite <- !app_assoc.
Qed.

(** A whole line of the writer at the start of a record. *)
Lemma run_lineOf (fields : list (option Value)) (recs : list (list string))
    (rest : string) :
  run (mkState false false [] [] recs) (lineOf fields +:+ rest)
  = run (mkState false false [] []
           (if blank fields then recs else cells fields :: recs)) rest.
Proof.
  unfold lineOf. rewrite string_app_assoc.
  change (Text.str Text.newline +:+ rest) with (String Text.newline rest).
  destruct fields as [|v fields]; [done|].
  rewrite run_written_line. rewrite bool_decide_eq_true_2 by done.
  rewrite andb_true_r. unfold blank.
  destruct fields as [|v' fields].
  - rewrite bool_decide_eq_true_2 by done. rewrite andb_true_r.
    by destruct (isEmpty v).
  - rewrite bool_decide_eq_false_2 by done. by rewrite andb_false_r.
Qed.

Lemma run_lines (lines : list (list (option Value))) :
  forall recs : list (list string),
    run (mkState false false [] [] recs) (String.concat EmptyString (map lineOf lines))
    = (rev recs ++ map cells (filter (fun f => blank f = false) lines), None).
Proof.
  induction lines as [|fields lines IH]; intros recs.
  - cbn. by rewrite app_nil_r.
  - cbn [map]. 
    assert (Hcat : String.concat EmptyString (lineOf fields :: map lineOf lines)
                   = lineOf fields +:+ String.concat EmptyString (map lineOf lines)).
    { cbn [String.concat]. destruct (map lineOf lines) as [|l ls] eqn:Hl; [|done].
      cbn. by rewrite append_nil_r. }
    rewrite Hcat, run_lineOf, IH.
    destruct (blank fields) eqn:Hb.
    + by rewrite filter_cons_False by (by rewrite Hb).
    + rewrite filter_cons_True by done. cbn [rev map]. by rewrite <- app_assoc.
Qed.

Lemma concat_cons (l : string) (ls : list string) :
  String.concat EmptyString (l :: ls) = l +:+ String.concat EmptyString ls.
Proof.
  cbn [String.concat]. destruct ls as [|l' ls]; [|done].
  cbn. by rewrite append_nil_r.
Qed.

Lemma joinRecords_cons (l : string) (ls : list string) :
  joinRecords (l :: ls)
  = String.concat EmptyString (map (fun t => t +:+ Text.str Text.newline) (l :: ls)).
Proof.
  revert l. induction ls as [|l' ls IH]; intros l.
  - unfold joinRecords. cbn [Text.join map]. by rewrite concat_cons, append_nil_r.
  - cbn [map]. rewrite concat_cons. cbn [map] in IH. rewrite <- IH.
    unfold joinRecords.
    change (Text.join (Text.str Text.newline) (l :: l' :: ls))
      with (l +:+ Text.str Text.newline +:+ Text.join (Text.str Text.newline) (l' :: ls)).
    by rewrite !string_app_assoc.
Qed.

(** The text of the writer is its lines one after another; without a
    record it ends with an empty line. *)
Lemma writeRecords_lines (headers : list Header) (records : list Obj) :
  writeRecords headers records
  = String.concat EmptyString
      (map lineOf (written headers records
                   ++ match records with [] => [[]] | _ => [] end)).
Proof.
  unfold writeRecords, written, stringifyRecords.
  assert (Hbody : joinRecords (map (fun r => getCsvLine (getRecordAsArray headers r))
                                 records)
                  = String.concat EmptyString
                      (map lineOf (map (getRecordAsArray headers) records
                                   ++ match records with [] => [[]] | _ => [] end))).
  { destruct records as [|r records]; [done|].
    rewrite app_nil_r. cbn [map]. rewrite joinRecords_cons. cbn [map].
    rewrite !concat_cons. do 2 f_equal. by rewrite !map_map. }
  rewrite Hbody. destruct headers as [|h headers]; [done|].
  unfold getHeaderString. rewrite joinRecords_cons.
  cbn [map app]. by rewrite !concat_cons, append_nil_r.
Qed.

Lemma parseRaw_written (headers : list Header) (records : list Obj) :
  parseRaw (writeRecords headers records)
  = (map cells (filter (fun f => blank f = false) (written headers records)), None).
Proof.
  unfold parseRaw, initial. rewrite writeRecords_lines, run_lines.
  cbn [rev app]. rewrite filter_app.
  destruct records; [|by rewrite app_nil_r].
  rewrite filter_cons_False by (by cbn). by rewrite app_nil_r.
Qed.

(** X16.  The reader accepts whatever the writer writes.  For any columns
    and any records (any text in the cells: commas, quotes, line breaks),
    the reader goes through the text of [writeRecords] without an error,
    and the records it reads are the lines written, cell by cell, each
    cell with the text that was put between the quotes; the lines the
    writer left empty (no column, or a single column with an empty value)
    are not read as records. *)
Theorem written_text_reads_back (headers : list Header) (records : list Obj) :
  parseRaw (writeRecords headers records)
  = (map cells (filter (fun f => blank f = false) (written headers records)), None).
Proof. apply parseRaw_written. Qed.

Lemma parse_encode (headers : list Header) (rows : list Obj) :
  blank (map (fun h => Some (VStr (title h))) headers) = false ->
  parse (encode headers rows)
  = (map (fun fields => toObject (cells (map (fun h => Some (VStr (title h))) headers))
                          (cells fields) [])
       (filter (fun f => blank f = false)
          (map (getRecordAsArray headers) (map serializeRow rows))),
     None).
Proof.
  intros Hb. unfold parse, encode. rewrite parseRaw_written.
  unfold written. destruct headers as [|h headers]; [done|].
  cbn [app]. rewrite filter_cons_True by done.
  cbn [map]. by rewrite map_map.
Qed.

(** X17.  The archive of a batch, read as the restore script reads it
    (the first record names the columns): when the title line is not
    empty, the reader ends without an error and hands over one object for
    each row whose line is not empty, in order, keyed by the titles, with
    the cell texts of the serialised row as values. *)
Theorem archive_parses_to_objects (headers : list Header) (rows : list Obj) :
  let titles := map (fun h => Some (VStr (title h))) headers in
  blank titles = false ->
  parse (encode headers rows)
  = (map (fun fields => toObject (cells titles) (cells fields) [])
       (filter (fun f => blank f = false)
          (map (getRecordAsArray headers) (map serializeRow rows))),
     None).
Proof. intros titles Hb. by apply parse_encode. Qed.

(** The archive of the two March rows of the sample table. *)
Lemma archive_parses_to_objects_witness :
  parse RestoreSamples.archive
  = ([[("ID", VStr "1"); ("CREATED_AT", VStr "2022-03-05T10:30:00.000Z");
       ("NAME", VStr "alpha")];
      [("ID", VStr "2"); ("CREATED_AT", VStr "2022-03-04T08:00:00.000Z");
       ("NAME", VStr "beta")]]%string,
     None).
Proof.
  unfold RestoreSamples.archive.
  rewrite (archive_parses_to_objects Samples.headers
             (map Db.toObject [Samples.row1; Samples.row2])).
  - vm_compute. reflexivity.
  - reflexivity.
Defined.

Lemma cells_titles (headers : list Header) :
  cells (map (fun h => Some (VStr (title h))) headers) = map title headers.
Proof.
  unfold cells. rewrite map_map. apply map_ext. intros h.
  unfold cellText. cbn. by destruct (title h).
Qed.

Lemma set_fresh (key : string) (x : Value) (a : list (string * Value)) :
  key ∉ Js.keys a -> Js.set key x a = a ++ [(key, x)].
Proof.
  intros Hk. rewrite <- (app_nil_r a) at 1. by rewrite set_app_fresh.
Qed.

(** A record of as many fields as there are columns, the columns all
    different: the object pairs each column with its field. *)
Lemma toObject_zip (columns : list string) :
  forall (fields : list string) (obj : list (string * Value)),
    NoDup (Js.keys obj ++ columns) ->
    length fields = length columns ->
    toObject columns fields obj = obj ++ zip columns (VStr <$> fields).
Proof.
  induction columns as [|c columns IH]; intros fields obj Hnd Hlen.
  - destruct fields; [|done]. cbn. by rewrite app_nil_r.
  - destruct fields as [|f fields]; [done|]. cbn [toObject].
    assert (Hc : c ∉ Js.keys obj).
    { apply NoDup_app in Hnd as (_ & Hdisj & _). intros Hin.
      apply (Hdisj c Hin). left. }
    rewrite set_fresh by done. rewrite IH.
    + cbn. by rewrite <- app_assoc.
    + unfold Js.keys in *. rewrite fmap_app. cbn.
      rewrite <- app_assoc. cbn. done.
    + cbn in Hlen. lia.
Qed.

Lemma items_zip (columns : list string) :
  forall (fields : list string) (pre : list (string * Value)),
    NoDup (Js.keys pre ++ columns) ->
    length fields = length columns ->
    map (fun h => Restore.joinItem (Js.get h (pre ++ zip columns (VStr <$> fields))))
        columns
    = fields.
Proof.
  induction columns as [|c columns IH]; intros fields pre Hnd Hlen.
  - by destruct fields.
  - destruct fields as [|f fields]; [done|]. cbn [map fmap list_fmap zip zip_with].
    assert (Hc : c ∉ Js.keys pre).
    { apply NoDup_app in Hnd as (_ & Hdisj & _). intros Hin.
      apply (Hdisj c Hin). left. }
    f_equal.
    + rewrite get_app_fresh by done. cbn. by rewrite String.eqb_refl.
    + specialize (IH fields (pre ++ [(c, VStr f)])).
      rewrite <- app_assoc in IH. cbn in IH. apply IH.
      * unfold Js.keys in *. rewrite fmap_app. cbn.
        rewrite <- app_assoc. cbn. done.
      * cbn in Hlen. lia.
Qed.

Lemma keys_zip (columns : list string) (fields : list string) :
  length fields = length columns ->
  Js.keys (zip columns (VStr <$> fields)) = columns.
Proof.
  intros Hlen. unfold Js.keys. apply fst_zip. rewrite length_fmap. lia.
Qed.

(** The line the decode loop writes for a record read under columns that
    are all different. *)
Lemma rowLine_toObject (columns fields : list string) :
  NoDup columns -> length fields = length columns ->
  Js.keys (toObject columns fields []) = columns
  /\ Restore.rowLine columns (toObject columns fields [])
     = Text.join "," fields +:+ Text.str Text.newline.
Proof.
  intros Hnd Hlen. rewrite toObject_zip by done. cbn [app].
  split; [by apply keys_zip|].
  unfold Restore.rowLine. f_equal.
  f_equal. by apply (items_zip columns fields []).
Qed.

Lemma decode_encode (headers : list Header) (rows : list Obj) :
  let titles := map title headers in
  let lines := filter (fun f => blank f = false)
                 (map (getRecordAsArray headers) (map serializeRow rows)) in
  NoDup titles ->
  blank (map (fun h => Some (VStr (title h))) headers) = false ->
  lines <> [] ->
  Restore.decode (encode headers rows)
  = Text.join "," titles +:+ Text.str Text.newline
      +:+ String.concat EmptyString
            (map (fun f => Text.join "," (cells f) +:+ Text.str Text.newline) lines).
Proof.
  intros titles lines Hnd Hb Hne.
  unfold Restore.decode. rewrite parse_encode by done. rewrite cells_titles.
  cbn [fst]. fold titles lines.
  assert (Hlen : forall f, In f lines -> length (cells f) = length titles).
  { intros f Hf. apply list_elem_of_In in Hf. unfold lines in Hf.
    apply list_elem_of_filter in Hf as [_ Hf].
    apply list_elem_of_fmap in Hf as (r & -> & _).
    unfold cells, getRecordAsArray, titles. by rewrite !length_map. }
  assert (Hall : map (Restore.rowLine titles)
                   (map (fun fields => toObject titles (cells fields) []) lines)
                 = map (fun f => Text.join "," (cells f) +:+ Text.str Text.newline)
                     lines).
  { rewrite map_map. apply map_ext_in. intros f Hf.
    by apply rowLine_toObject, Hlen. }
  destruct lines as [|f0 ls] eqn:Hl; [done|].
  cbn [map Restore.processed].
  rewrite (proj1 (rowLine_toObject titles (cells f0) Hnd (Hlen f0 ltac:(by left)))).
  cbn [map] in Hall. by rewrite Hall.
Qed.

(** X18.  What the decode step of the restore makes of an archive of the
    backup: when the titles are all different and the archive holds a row
    whose line is not empty, the canonical file is the line of the titles
    and, for each such row, the line of its cell texts, joined by commas
    as they are: the quotes the writer put around the cells, and the
    doubling of the quotes inside them, are gone. *)
Theorem decode_archive_unquotes (headers : list Header) (rows : list Obj) :
  let titles := map title headers in
  let lines := filter (fun f => blank f = false)
                 (map (getRecordAsArray headers) (map serializeRow rows)) in
  NoDup titles ->
  blank (map (fun h => Some (VStr (title h))) headers) = false ->
  lines <> [] ->
  Restore.decode (encode headers rows)
  = Text.join "," titles +:+ Text.str Text.newline
      +:+ String.concat EmptyString
            (map (fun f => Text.join "," (cells f) +:+ Text.str Text.newline) lines).
Proof. apply decode_encode. Qed.

(** The canonical file of the archive of the two March rows. *)
Lemma decode_archive_unquotes_witness :
  Restore.decode RestoreSamples.archive
  = ("ID,CREATED_AT,NAME" +:+ Text.str Text.newline
     +:+ "1,2022-03-05T10:30:00.000Z,alpha" +:+ Text.str Text.newline
     +:+ "2,2022-03-04T08:00:00.000Z,beta" +:+ Text.str Text.newline)%string.
Proof.
  unfold RestoreSamples.archive.
  rewrite (decode_archive_unquotes Samples.headers
             (map Db.toObject [Samples.row1; Samples.row2])).
  - vm_compute. reflexivity.
  - apply (bool_decide_unpack _). vm_compute. exact I.
  - reflexivity.
  - vm_compute. discriminate.
Defined.

End WriterReader.

(** ** Row Codec: the serialised row *)

Section SerialisedRow.
Import Js Codec.

(** X19.  The serialisation of a row keeps its properties and their
    order; every value of the serialised row is a primitive (no date,
    array or object is left for the writer); a value that was a primitive
    is unchanged; and serialising a serialised row changes nothing. *)
Theorem serializeRow_shape (obj : list (string * Value)) :
  Js.keys (serializeRow obj) = Js.keys obj
  /\ (forall key v, (key, v) ∈ serializeRow obj -> isPrimitive v = true)
  /\ (forall key v, (key, v) ∈ obj -> isPrimitive v = true ->
        (key, v) ∈ serializeRow obj)
  /\ serializeRow (serializeRow obj) = serializeRow obj.
Proof.
  split_and!.
  - apply keys_serializeRow.
  - apply serialized_primitive.
  - intros key v Hin Hp. unfold serializeRow.
    apply list_elem_of_fmap. exists (key, v). split; [|done].
    cbn. rewrite serializeValue_primitive; [done|].
    unfold isPrimitive in Hp. by apply negb_true_iff in Hp.
  - unfold serializeRow. rewrite map_map. apply map_ext_in.
    intros [k v] _. cbn. f_equal.
    apply serializeValue_primitive.
    unfold serializeValue. destruct (truthyObject v) eqn:E; [by destruct v|done].
Qed.

End SerialisedRow.

(** ** Archive Pipeline and Restore Pipeline: a batch restored *)

Section BatchRestored.
Import Js Codec CsvParse Reading.

Lemma fileText_lines (lines : list (list string)) :
  fileText lines
  = String.concat EmptyString
      (map (fun f => Text.join "," f +:+ Text.str Text.newline) lines).
Proof. reflexivity. Qed.

Lemma blank_titles (headers : list Header) :
  plainLine (map title headers) = true ->
  blank (map (fun h => Some (VStr (title h))) headers) = false.
Proof.
  unfold plainLine. intros [_ H]%andb_true_iff.
  destruct headers as [|h [|h' headers]]; [done| |done].
  cbn in *. by destruct (title h).
Qed.

(** X20.  A batch archived by the backup and restored by the restore
    script.  When the bucket holds under the key the archive the backup
    writes for some rows, the titles are all different, the titles and the
    cell texts of the rows hold no comma, quote or line break, the archive
    holds a row, and the bulk load accepts what it is given, then the
    restore returns, having handed the bulk load, inside a transaction it
    commits, the titles as the column list and the canonical file: the
    line of the titles and a line of cell texts for each row. *)
Theorem restore_loads_backup_batch (copy : Restore.CopyIn) (delivered : nat)
    (key table : string) (headers : list Header) (rows : list Obj)
    (t2 : list Db.Row) (w : World) :
  let titles := map title headers in
  let lines := filter (fun f => blank f = false)
                 (map (getRecordAsArray headers) (map serializeRow rows)) in
  let canonical := fileText (titles :: map cells lines) in
  bucket w !! key = Some (Gzip (encode headers rows)) ->
  NoDup titles ->
  forallb plainLine (titles :: map cells lines) = true ->
  lines <> [] ->
  copy titles canonical (Db.current (session w)) = (t2, None) ->
  Restore.downloadAndRestoreS3File copy delivered key table w
  = (Returned tt,
     mkWorld (Db.mkSession t2 None) (bucket w)
       (Restore.cleaned (Restore.unpacked (encode headers rows) canonical (disk w)))
       (journal w ++ [Db.Connect; Db.Begin; Db.Copy; Db.Commit; Db.Release])
       (errors w)).
Proof.
  intros titles lines canonical Hb Hnd Hplain Hne Hcopy.
  assert (Htitles : blank (map (fun h => Some (VStr (title h))) headers) = false).
  { apply blank_titles. cbn [forallb] in Hplain.
    by apply andb_true_iff in Hplain as [? _]. }
  assert (Hdec : Restore.processed (parse (encode headers rows)).1 = canonical).
  { change (Restore.processed (parse (encode headers rows)).1)
      with (Restore.decode (encode headers rows)).
    rewrite decode_encode by done. fold titles lines.
    unfold canonical. rewrite fileText_cons. unfold lineText.
    rewrite string_app_assoc. do 2 f_equal.
    rewrite fileText_lines. by rewrite map_map. }
  assert (Hparse : parse (encode headers rows)
                   = ((parse (encode headers rows)).1, None)).
  { by rewrite parse_encode by done. }
  destruct lines as [|f0 ls] eqn:Hl; [done|].
  assert (Hcan : parse canonical
                 = (toObject titles (cells f0) []
                      :: map (fun f => toObject titles f []) (map cells ls), None)).
  { unfold parse, canonical. by rewrite parseRaw_plain_file by done. }
  assert (Hlen : length (cells f0) = length titles).
  { assert (Hin : f0 ∈ filter (fun f => blank f = false)
                        (map (getRecordAsArray headers) (map serializeRow rows))).
    { fold lines. rewrite Hl. left. }
    apply list_elem_of_filter in Hin as [_ Hin].
    apply list_elem_of_fmap in Hin as (r & -> & _).
    unfold cells, getRecordAsArray, titles. by rewrite !length_map. }
  rewrite (downloadAndRestoreS3File_loads copy delivered key table
             (encode headers rows) (parse (encode headers rows)).1
             (toObject titles (cells f0) [])
             (map (fun f => toObject titles f []) (map cells ls)) None t2 w
             Hb Hparse); rewrite Hdec; [done|done|].
  by rewrite (proj1 (rowLine_toObject titles (cells f0) Hnd Hlen)).
Qed.

(** The archive of the two March rows, restored into the sample table. *)
Lemma restore_loads_backup_batch_witness :
  session (Restore.downloadAndRestoreS3File RestoreSamples.copyAccepts 0
             RestoreSamples.key "events" RestoreSamples.world).2
  = Db.mkSession [Samples.row3; Samples.row1; Samples.row2] None.
Proof.
  rewrite (restore_loads_backup_batch RestoreSamples.copyAccepts 0
             RestoreSamples.key "events" Samples.headers
             (map Db.toObject [Samples.row1; Samples.row2])
             [Samples.row3; Samples.row1; Samples.row2] RestoreSamples.world).
  - reflexivity.
  - reflexivity.
  - apply (bool_decide_unpack _). vm_compute. exact I.
  - vm_compute. reflexivity.
  - vm_compute. discriminate.
  - reflexivity.
Defined.

End BatchRestored.

(** ** Archive Pipeline: the pooled connections *)

Section Connections.
Import Backup Counting.

Lemma connects_app j j' : connects (j ++ j') = connects j + connects j'.
Proof. unfold connects. by rewrite filter_app, length_app. Qed.

Lemma releases_app j j' : releases (j ++ j') = releases j + releases j'.
Proof. unfold releases. by rewrite filter_app, length_app. Qed.

Lemma givesBack_bind {A B} (m : M A) (f : A -> M B) :
  givesBack m -> (forall a, givesBack (f a)) -> givesBack (bind m f).
Proof.
  intros Hm Hf w. unfold bind.
  destruct (Hm w) as (j1 & Hj1 & Hb1).
  destruct (m w) as [[a|err|] w1]; cbn [snd] in Hj1.
  - destruct (Hf a w1) as (j2 & Hj2 & Hb2).
    exists (j1 ++ j2). rewrite Hj2, Hj1, <- app_assoc.
    split; [done|]. rewrite connects_app, releases_app. lia.
  - by exists j1.
  - by exists j1.
Qed.

Lemma givesBack_ret {A} (a : A) : givesBack (ret a).
Proof. intros w. exists []. by rewrite app_nil_r. Qed.

Lemma givesBack_pending {A} : givesBack (fun w => (@Pending A, w)).
Proof. intros w. exists []. by rewrite app_nil_r. Qed.

Lemma givesBack_batch (flt : Faults) (cfg : Config) (year month : Z)
    (headers : list Codec.Header) (n : nat) :
  givesBack (batch flt cfg year month headers n).
Proof.
  intros [[c v] b d j e].
  destruct (Db.deleteReturning (Db.current (Db.mkSession c v))
              (windowStart year month) (windowEnd year month) (BATCH_SIZE cfg))
    as [R t'] eqn:Hdel.
  set (key := s3Key (tableName cfg) year month n).
  destruct (queryFails flt key) eqn:Hq.
  { rewrite (batch_query_fails flt cfg year month headers n c v R t' b d j e Hdel Hq).
    by eexists. }
  destruct (decide (R = [])) as [HR|HRne].
  { rewrite (batch_break flt cfg year month headers n c v R t' b d j e Hdel Hq HR).
    by eexists. }
  destruct (uploadFails flt key) eqn:Hu.
  { rewrite (batch_upload_fails flt cfg year month headers n c v R t' b d j e
               Hdel Hq HRne Hu). by eexists. }
  destruct (commitFails flt key) eqn:Hc.
  { rewrite (batch_commit_fails flt cfg year month headers n c v R t' b d j e
               Hdel Hq HRne Hu Hc). by eexists. }
  rewrite (batch_next flt cfg year month headers n c v R t' b d j e
             Hdel Hq HRne Hu Hc). by eexists.
Qed.

Lemma givesBack_batches (flt : Faults) (cfg : Config) (year month : Z)
    (headers : list Codec.Header) (fuel : nat) :
  forall n total, givesBack (batches fuel flt cfg year month headers n total).
Proof.
  induction fuel as [|fuel IH]; intros n total; [apply givesBack_pending|].
  cbn [batches]. apply givesBack_bind; [apply givesBack_batch|].
  intros [|k]; [apply givesBack_ret|apply IH].
Qed.

Lemma givesBack_fetchTableHeaders (cfg : Config) : givesBack (fetchTableHeaders cfg).
Proof. intros [s b d j e]. rewrite fetchTableHeaders_eq. by eexists. Qed.

Lemma givesBack_getRowCount : givesBack getRowCount.
Proof. intros [s b d j e]. rewrite getRowCount_eq. by eexists. Qed.

Lemma givesBack_processMonth (flt : Faults) (cfg : Config) (year month : Z)
    (fuel : nat) :
  givesBack (processMonth fuel flt cfg year month).
Proof.
  unfold processMonth. apply givesBack_bind; [apply givesBack_fetchTableHeaders|].
  intros headers. apply givesBack_batches.
Qed.

Lemma givesBack_processMonths (flt : Faults) (cfg : Config) (fuel : nat)
    (ms : list (Z * Z)) :
  givesBack (processMonths fuel flt cfg ms).
Proof.
  induction ms as [|[year month] ms IH]; [apply givesBack_ret|].
  cbn [processMonths]. apply givesBack_bind; [apply givesBack_processMonth|done].
Qed.

Lemma givesBack_backupAndDeleteRows (flt : Faults) (cfg : Config) (fuel : nat)
    (startDate endDate : JsDate.Date) :
  givesBack (backupAndDeleteRows fuel flt cfg startDate endDate).
Proof.
  unfold backupAndDeleteRows. apply givesBack_bind; [apply givesBack_getRowCount|].
  intros _. destruct (months startDate endDate) as [ms|]; [|apply givesBack_pending].
  apply givesBack_bind; [apply givesBack_processMonths|].
  intros _. apply givesBack_bind; [apply givesBack_getRowCount|].
  intros _. apply givesBack_ret.
Qed.

(** X21.  The backup never keeps a pooled connection: whatever fails,
    for any dates and however the run ends, what a run of
    [backupAndDeleteRows] adds to the journal of the pool holds as many
    releases as connections taken. *)
Theorem backup_run_gives_back_connections (flt : Faults) (cfg : Config) (fuel : nat)
    (startDate endDate : JsDate.Date) (w : World) :
  let out := backupAndDeleteRows fuel flt cfg startDate endDate w in
  exists j', journal out.2 = journal w ++ j' /\ connects j' = releases j'.
Proof. apply givesBack_backupAndDeleteRows. Qed.

End Connections.

(** ** Running again, and a download that fails *)

Section Again.
Import Backup Counting.

Lemma countWindow_outside (t : list Db.Row) lo hi :
  Db.countWindow (outside lo hi t) lo hi = 0.
Proof.
  unfold Db.countWindow, outside. rewrite list_filter_filter.
  rewrite filter_none; [done|]. intros x _ [Hin Hout]. congruence.
Qed.

(** X22.  Processing a month a second time changes nothing: after a run
    of [processMonth] without faults (the table keyed by [id], a batch
    size of one row at least), a second run for the same month returns a
    total of 0 and leaves the table and the bucket as the first run left
    them. *)
Theorem processMonth_again_changes_nothing (cfg : Config) (year month : Z)
    (fuel : nat) (w : World) :
  let cur := Db.current (session w) in
  let first := processMonth fuel noFaults cfg year month w in
  let second := processMonth fuel noFaults cfg year month first.2 in
  1 <= BATCH_SIZE cfg ->
  NoDup (Db.id <$> cur) ->
  Db.countWindow cur (windowStart year month) (windowEnd year month) < fuel ->
  second.1 = Returned 0
  /\ Db.current (session second.2) = Db.current (session first.2)
  /\ bucket second.2 = bucket first.2.
Proof.
  destruct w as [[c v] b d j e]. intros cur first second Hsize Hnd Hfuel.
  subst cur. cbn [session] in Hnd, Hfuel.
  set (cur := Db.current (Db.mkSession c v)) in *.
  set (lo := windowStart year month) in *.
  set (hi := windowEnd year month) in *.
  destruct (processMonth_exhaust cfg year month fuel c v b d j e Hsize Hnd Hfuel)
    as (b1 & d1 & j1 & Hrun1 & _).
  fold cur lo hi in Hrun1.
  set (c1 := if decide (batchesFor (Db.countWindow cur lo hi) (BATCH_SIZE cfg) = 0)
             then c else outside lo hi cur) in *.
  pose proof (countWindow_outside cur lo hi) as Hzero.
  destruct (processMonth_exhaust cfg year month fuel c1 (Some (outside lo hi cur))
              b1 d1 (j ++ [Db.Connect; Db.Select; Db.Release] ++ j1) e Hsize)
    as (b2 & d2 & j2 & Hrun2 & _ & _ & Hframe & _).
  { by apply outside_keyed. }
  { change (Db.current _) with (outside lo hi cur). fold lo hi. lia. }
  change (Db.current (Db.mkSession c1 _)) with (outside lo hi cur) in Hrun2, Hframe.
  fold lo hi in Hrun2, Hframe. rewrite Hzero in Hrun2, Hframe.
  rewrite batchesFor_zero in Hframe by done.
  subst second first. rewrite Hrun1. cbn [snd]. rewrite Hrun2.
  cbn [fst snd session bucket].
  change (Db.current (Db.mkSession _ (Some ?t))) with t.
  split_and!; [done| |].
  - apply countWindow_zero. apply countWindow_outside.
  - apply map_eq. intros key. apply Hframe. intros i Hi. lia.
Qed.

Lemma processMonth_again_changes_nothing_witness :
  (processMonth 4 noFaults Samples.cfg 2022 3
     (processMonth 4 noFaults Samples.cfg 2022 3 Samples.world).2).1 = Returned 0
  /\ bucket (processMonth 4 noFaults Samples.cfg 2022 3
              (processMonth 4 noFaults Samples.cfg 2022 3 Samples.world).2).2
     = bucket (processMonth 4 noFaults Samples.cfg 2022 3 Samples.world).2.
Proof.
  destruct (processMonth_again_changes_nothing Samples.cfg 2022 3 4 Samples.world)
    as (H1 & _ & H3); [cbn; lia|exact samples_keyed|vm_compute; lia|].
  split; [exact H1|exact H3].
Defined.

End Again.

Section DownloadFails.
Import Restore.

(** X23.  A restore whose download fails.  When the bucket holds nothing
    under the key, or holds a body that is not a gzip stream, the run
    logs the error and returns; it has taken no connection, the table and
    the bucket are untouched, no staging file is left, and every other
    file is as it was. *)
Theorem restore_download_failure (copy : CopyIn) (delivered : nat)
    (key table : string) (w : World) :
  (bucket w !! key = None \/ exists text, bucket w !! key = Some (Plain text)) ->
  downloadAndRestoreS3File copy delivered key table w
  = (Returned tt,
     mkWorld (session w) (bucket w) (cleaned (disk w)) (journal w)
       (errors w ++ ["Error during download and restore process:"])).
Proof.
  destruct w as [s b d j e]. cbn [session bucket disk journal errors].
  intros Hb. rewrite downloadAndRestoreS3File_eq. unfold bind.
  pose proof (fetched_cases delivered key s b d j e) as Hf. cbv zeta in Hf.
  destruct Hb as [Hb|[text Hb]]; rewrite Hb in Hf; by rewrite Hf.
Qed.

Lemma restore_download_failure_witness :
  downloadAndRestoreS3File RestoreSamples.copyAccepts 0 "no such key" "events"
    RestoreSamples.world
  = (Returned tt,
     mkWorld (session RestoreSamples.world) (bucket RestoreSamples.world)
       (cleaned (disk RestoreSamples.world)) []
       ["Error during download and restore process:"]).
Proof.
  apply (restore_download_failure RestoreSamples.copyAccepts 0 "no such key" "events"
           RestoreSamples.world).
  left. vm_compute. reflexivity.
Defined.

End DownloadFails.

(** ** Archive Pipeline: what the archives keep of the rows *)

Section ArchivedRows.
Import Js Codec CsvParse Reading Backup Counting Archive.










(** X6.  A run of [backupAndDeleteRows] without faults, for well-formed
    dates with [START_DATE] in a year from 100 on, on a table in which
    [id] is a key and with a batch size of one row at least, returns; the
    loop has visited months of years from 100 on; afterwards the table
    holds the rows that lie in the window of none of the months visited,
    in their order, and no others; when the connection had no open
    transaction before the run, that is the committed table too; nothing
    was logged as an error. *)
Theorem backup_run_removes_processed_months (cfg : Config) (fuel : nat)
    (startDate endDate : JsDate.Date) (w : World) :
  let cur := Db.current (session w) in
  let out := backupAndDeleteRows fuel noFaults cfg startDate endDate w in
  wellFormed startDate -> wellFormed endDate ->
  (100 <= JsDate.fullYear startDate)%Z ->
  1 <= BATCH_SIZE cfg ->
  NoDup (Db.id <$> cur) ->
  length cur < fuel ->
  exists ms : list (Z * Z),
    months startDate endDate = Some ms
    /\ Forall (fun ym => 100 <= ym.1 /\ 1 <= ym.2 <= 12)%Z ms
    /\ out.1 = Returned tt
    /\ Db.current (session out.2) = kept ms cur
    /\ (Db.view (session w) = None -> Db.committed (session out.2) = kept ms cur)
    /\ errors out.2 = errors w.
Proof.
  destruct w as [[c v] b d j e]. intros cur out Hs He Hy Hsize Hnd Hfuel.
  destruct (visit_any endDate He (monthsBetween startDate endDate) startDate Hs)
    as (idx & Hms & Hall & _).
  { unfold monthsBetween, monthIndex. lia. }
  exists (map monthOfIndex idx).
  destruct (backupAndDeleteRows_exhaust cfg fuel startDate endDate _ c v b d j e
              Hms Hsize Hnd Hfuel) as (s' & b' & d' & j' & Hrun & Hcur & Hcom).
  subst out. rewrite Hrun. cbn [fst snd session errors Db.view].
  split_and!; try done.
  - apply Forall_forall. intros ym Hym.
    apply list_elem_of_fmap in Hym as (k & -> & Hk).
    rewrite Forall_forall in Hall. specialize (Hall k Hk).
    assert (Hk' : (1200 <= k)%Z).
    { destruct Hs as (Hm & _). unfold monthIndex in Hall. lia. }
    unfold monthOfIndex. cbn [fst snd].
    pose proof (Z.mod_pos_bound k 12 ltac:(lia)).
    assert (100 <= k / 12)%Z by (apply Z.div_le_lower_bound; lia). lia.
  - intros ->. apply Hcom. by left.
Qed.

(** From 15 March to 10 April the loop visits March alone, and the rows
    of March are removed. *)
Lemma backup_run_removes_processed_months_witness :
  exists ms : list (Z * Z),
    months (JsDate.ofIsoDay 2022 3 15) (JsDate.ofIsoDay 2022 4 10) = Some ms
    /\ Db.current
         (session (backupAndDeleteRows 4 noFaults Samples.cfg
                     (JsDate.ofIsoDay 2022 3 15) (JsDate.ofIsoDay 2022 4 10)
                     Samples.world).2)
       = kept ms Samples.table.
Proof.
  destruct (backup_run_removes_processed_months Samples.cfg 4
              (JsDate.ofIsoDay 2022 3 15) (JsDate.ofIsoDay 2022 4 10)
              Samples.world) as (ms & H1 & _ & _ & H2 & _).
  - unfold wellFormed. cbn. lia.
  - unfold wellFormed. cbn. lia.
  - cbn. lia.
  - cbn; lia.
  - exact samples_keyed.
  - cbn; lia.
  - exists ms. split; [exact H1|exact H2].
Defined.










End ArchivedRows.
